(** * Resilient collection layer and enrichment pipeline: a shallow embedding

    The development follows the Python sources:
    - [CircuitBreaker]   stage-2.2-instagram/lambda_function.py
    - [Retry]            stage-2.4-youtube/lambda_function.py
    - [KeyRotation]      stage-2.1-google-search/key_rotation.py
    - [PostProcessor]    phase-3-post-processing/post-processor/lambda_function.py
    - [KeyLoading]       stage-2.1-google-search/key_rotation.py ([_load_keys])
    - [PostBatch]        the post-processor's [lambda_handler]
    - [YouTubeStore]     stage-2.4-youtube/lambda_function.py (store access)
    - [MetricsCollector], [InstagramScraper]
                         stage-2.2-instagram/lambda_function.py

    Conventions.  Python [int] is [Z].  Python [float] arithmetic is read
    over the exact rationals [Q]: a decimal literal denotes its exact value
    and binary64 rounding is not modelled.  The two agree except where an
    exact value sits on a boundary that the rounded one misses: in Python
    [(57/100)*100] is [56.99999999999999] and [round(0.475, 2)] is [0.47],
    here they are [57] and [0.48].  A [datetime] is the number of
    microseconds since the epoch.  Exceptions are explicit: a computation
    that can raise returns a sum or an option, and a [try]/[except] is a
    match on it. *)

From Stdlib Require Import ZArith QArith Qround String Ascii List Bool Lia.
From stdpp Require Import gmap strings list fin_maps.

Local Open Scope Z_scope.

(** ** Rational comparisons used for Python's [<] and [>=] on floats *)

Definition Qltb (x y : Q) : bool := negb (Qle_bool y x).

(** ** CircuitBreaker (stage-2.2-instagram/lambda_function.py, lines 74-111) *)

Module CircuitBreaker.

Record t := mk {
  failure_threshold : Z;
  timeout : Z;
  failure_count : Z;
  last_failure_time : option Z;   (* None until the first failure *)
  is_open : bool
}.

(** [__init__] *)
Definition init (failure_threshold timeout : Z) : t :=
  mk failure_threshold timeout 0 None false.

(** [record_success] *)
Definition record_success (cb : t) : t :=
  mk (failure_threshold cb) (timeout cb) 0 (last_failure_time cb) false.

(** [record_failure]; [now] is the value of [datetime.utcnow()]. *)
Definition record_failure (now : Z) (cb : t) : t :=
  let n := failure_count cb + 1 in
  mk (failure_threshold cb) (timeout cb) n (Some now)
     (if failure_threshold cb <=? n then true else is_open cb).

(** [(a - b).total_seconds()] *)
Definition total_seconds (a b : Z) : Q := (a - b) # 1000000.

(** [can_execute]: the answer and the breaker after the call. *)
Definition can_execute (now : Z) (cb : t) : bool * t :=
  if negb (is_open cb) then (true, cb)
  else
    match last_failure_time cb with
    | Some tf =>
        let elapsed := total_seconds now tf in
        if Qltb (inject_Z (timeout cb)) elapsed
        then (true, mk (failure_threshold cb) (timeout cb) 0
                       (last_failure_time cb) false)
        else (false, cb)
    | None => (false, cb)
    end.

(** A run of consecutive failures, one per timestamp. *)
Definition record_failures (ts : list Z) (cb : t) : t :=
  fold_left (fun c now => record_failure now c) ts cb.

End CircuitBreaker.

(** ** Python strings and values shared by the modules below *)

(** [needle in hay] on [str]: substring test. *)
Fixpoint contains (needle hay : string) : bool :=
  if String.prefix needle hay then true
  else match hay with
       | EmptyString => false
       | String _ rest => contains needle rest
       end.

(** [s.startswith(p)] *)
Definition startswith (p s : string) : bool := String.prefix p s.

(** [c.lower()] on an ASCII character. *)
Definition lower_ascii (c : ascii) : ascii :=
  let n := nat_of_ascii c in
  if (65 <=? n)%nat && (n <=? 90)%nat then ascii_of_nat (n + 32) else c.

(** [s.lower()]; characters outside ASCII are left as they are. *)
Fixpoint lower (s : string) : string :=
  match s with
  | EmptyString => EmptyString
  | String c rest => String (lower_ascii c) (lower rest)
  end.

(** [sep.join(parts)] *)
Fixpoint join (sep : string) (parts : list string) : string :=
  match parts with
  | [] => EmptyString
  | [p] => p
  | p :: rest => (p ++ sep ++ join sep rest)%string
  end.

(** The Python objects that occur as values of a result dictionary. *)
Inductive pyval :=
| PNone
| PBool (b : bool)
| PInt (z : Z)
| PStr (s : string).

(** Truthiness, as [if v:] and [v or w] test it. *)
Definition truthy (v : pyval) : bool :=
  match v with
  | PNone => false
  | PBool b => b
  | PInt z => negb (z =? 0)
  | PStr s => negb (String.eqb s EmptyString)
  end.

(** [d.get(k)] and [d.get(k, default)] on a dictionary with string keys. *)
Definition dict_get (d : gmap string pyval) (k : string) : pyval :=
  default PNone (d !! k).

Definition dict_get_default (d : gmap string pyval) (k : string) (dflt : pyval) : pyval :=
  default dflt (d !! k).

(** ** retry_with_backoff (stage-2.4-youtube/lambda_function.py, lines 167-201) *)

Module Retry.

(** What [func()] hands back: a dictionary, or some other object. *)
Inductive pyobj :=
| ODict (d : gmap string pyval)
| OOther (v : pyval).

(** One call of the attempt function. *)
Inductive outcome :=
| Raises                 (* [func()] raises an [Exception] *)
| Returns (r : pyobj).

Inductive exn :=
| FuncError              (* raised by [func] itself *)
| AttributeError         (* [result.get] on an object that is no dict *)
| TypeError              (* ['Invalid' in x] with [x] not iterable *)
| ValueError             (* [time.sleep] of a negative length *)
| UnboundLocalError.     (* [return result] with [result] never bound *)

Inductive event :=
| Call (attempt : nat)
| Sleep (delay : Z).

(** The local variable [result] and the observable effects so far. *)
Record state := mkState {
  result : option pyobj;
  trace : list event
}.

Definition emit (e : event) (s : state) : state :=
  mkState (result s) (trace s ++ [e]).

Definition bind_result (r : pyobj) (s : state) : state :=
  mkState (Some r) (trace s).

(** [time.sleep(delay)]: a negative length raises [ValueError]. *)
Definition time_sleep (delay : Z) (s : state) : exn + state :=
  if delay <? 0 then inl ValueError else inr (emit (Sleep delay) s).

(** [x in y] for a string [x]: [y] must be a string here. *)
Definition str_in (needle : string) (v : pyval) : exn + bool :=
  match v with
  | PStr s => inr (contains needle s)
  | _ => inl TypeError
  end.

(** ['Invalid' in e or 'API key' in e], left to right. *)
Definition invalid_key_error (e : pyval) : exn + bool :=
  match str_in "Invalid" e with
  | inl x => inl x
  | inr true => inr true
  | inr false => str_in "API key" e
  end.

(** How the body of the [try] ends when it does not raise. *)
Inductive control :=
| Continue
| Return (r : pyobj).

(** [result] after an attempt: rebound when [func] returned. *)
Definition observe (o : outcome) (res : option pyobj) : option pyobj :=
  match o with
  | Raises => res
  | Returns r => Some r
  end.

Section Loop.
Variable func : nat -> outcome.     (* outcome of the i-th call of [func] *)
Variable max_retries : Z.
Variable base_delay : Z.

(** [delay = base_delay * (2 ** attempt)] *)
Definition delay_of (attempt : nat) : Z := base_delay * 2 ^ Z.of_nat attempt.

Definition backoff (attempt : nat) (s : state) : exn + state :=
  if Z.of_nat attempt <? max_retries - 1
  then time_sleep (delay_of attempt) s
  else inr s.

(** The body of the [try] block for one attempt. *)
Definition try_body (attempt : nat) (s : state) : (exn + control) * state :=
  let s := emit (Call attempt) s in
  match func attempt with
  | Raises => (inl FuncError, s)
  | Returns r =>
      let s := bind_result r s in
      match r with
      | OOther _ => (inl AttributeError, s)
      | ODict d =>
          if truthy (dict_get d "success") || truthy (dict_get d "channel_id")
          then (inr (Return r), s)
          else
            match invalid_key_error (dict_get_default d "error" (PStr "")) with
            | inl x => (inl x, s)
            | inr true => (inr (Return r), s)
            | inr false =>
                match backoff attempt s with
                | inl x => (inl x, s)
                | inr s' => (inr Continue, s')
                end
            end
      end
  end.

(** [for attempt in range(...)] followed by [return result]. *)
Fixpoint loop (attempts : list nat) (s : state) : (exn + pyobj) * state :=
  match attempts with
  | [] =>
      match result s with
      | Some r => (inr r, s)
      | None => (inl UnboundLocalError, s)
      end
  | attempt :: rest =>
      match try_body attempt s with
      | (inr (Return r), s') => (inr r, s')
      | (inr Continue, s') => loop rest s'
      | (inl _, s') =>
          (* except Exception: the handler may sleep, and its own
             exception leaves the function *)
          match backoff attempt s' with
          | inl x => (inl x, s')
          | inr s'' => loop rest s''
          end
      end
  end.

Definition retry_with_backoff : (exn + pyobj) * state :=
  loop (seq 0 (Z.to_nat max_retries)) (mkState None []).

(** The state in which the loop goes on after an attempt that neither
    returned from the function nor raised out of it. *)
Definition after_retried (attempt : nat) (s : state) : state :=
  mkState (observe (func attempt) (result s))
          (trace s ++ Call attempt ::
             if Z.of_nat attempt <? max_retries - 1
             then [Sleep (delay_of attempt)] else []).

(** The state after the attempts [0 .. n-1] when the loop went on after
    each of them. *)
Definition after_run (n : nat) : state :=
  fold_left (fun acc j => after_retried j acc) (seq 0 n) (mkState None []).

End Loop.

(** A failing result: neither [success] nor [channel_id] is truthy. *)
Definition failing (d : gmap string pyval) : bool :=
  negb (truthy (dict_get d "success") || truthy (dict_get d "channel_id")).

(** The failures the executor does not retry. *)
Definition terminal (d : gmap string pyval) : bool :=
  failing d &&
  match invalid_key_error (dict_get_default d "error" (PStr "")) with
  | inr true => true
  | _ => false
  end.

(** The attempts after which the loop goes on: an exception, an object
    that is no dictionary, or a failing result that is not terminal. *)
Definition retried (o : outcome) : bool :=
  match o with
  | Raises => true
  | Returns (OOther _) => true
  | Returns (ODict d) => failing d && negb (terminal d)
  end.

(** The last object returned among the calls [0 .. n-1]. *)
Fixpoint last_observed (func : nat -> outcome) (n : nat) : option pyobj :=
  match n with
  | O => None
  | S m => observe (func m) (last_observed func m)
  end.

(** Calls [0 .. n-1], each followed by its back-off sleep. *)
Definition retry_trace (base_delay : Z) (n : nat) : list event :=
  flat_map (fun j => [Call j; Sleep (base_delay * 2 ^ Z.of_nat j)]) (seq 0 n).

(** The sleeps of a trace, in order. *)
Definition sleeps (tr : list event) : list Z :=
  flat_map (fun e => match e with Sleep d => [d] | Call _ => [] end) tr.

Definition calls (tr : list event) : list nat :=
  flat_map (fun e => match e with Call a => [a] | Sleep _ => [] end) tr.

(** Concrete attempt functions: results as the scrapers build them. *)
Definition persistent_error : gmap string pyval :=
  <["success"%string := PBool false]> (<["error"%string := PStr "Persistent error"]> ∅).

Definition invalid_api_key : gmap string pyval :=
  <["success"%string := PBool false]> (<["error"%string := PStr "Invalid API key"]> ∅).

Definition always_fails (attempt : nat) : outcome := Returns (ODict persistent_error).

Definition fails_then_invalid (attempt : nat) : outcome :=
  match attempt with
  | O => Returns (ODict persistent_error)
  | _ => Returns (ODict invalid_api_key)
  end.

End Retry.

(** ** APIKeyRotationManager (stage-2.1-google-search/key_rotation.py) *)

Module KeyRotation.

(** One entry of [key_stats].  The key ["last_error_time"] is absent
    until the first failure; absent and [None] read the same through
    [stats.get]. *)
Record KeyStats := mkStats {
  requests : Z;
  errors : Z;
  last_error : option string;
  last_error_time : option Z
}.

Record t := mk {
  strategy : string;
  current_index : Z;
  keys : list string;
  key_stats : gmap string KeyStats;
  rate_limit_threshold : Z
}.

Definition fresh_stats : KeyStats := mkStats 0 0 None None.

(** [{key: {...} for key in self.keys}] *)
Definition init_stats (keys : list string) : gmap string KeyStats :=
  fold_left (fun m k => <[k := fresh_stats]> m) keys ∅.

(** [__init__]; [keys] is what [_load_keys] found in the environment and
    [threshold] the value of [RATE_LIMIT_THRESHOLD]. *)
Definition init (strategy : string) (keys : list string) (threshold : Z) : t :=
  mk strategy 0 keys (init_stats keys) threshold.

Inductive exn :=
| KeyError
| ZeroDivisionError.

(** [lst[i % len(lst)]] for a non-empty list and an index that is never
    negative. *)
Definition index_mod (lst : list string) (i : Z) : option string :=
  lst !! Z.to_nat (i mod Z.of_nat (length lst)).

(** [_get_round_robin_key] *)
Definition _get_round_robin_key (m : t) : option string * t :=
  (index_mod (keys m) (current_index m),
   mk (strategy m) (current_index m + 1) (keys m) (key_stats m) (rate_limit_threshold m)).

(** [min(self.keys, key=...)]: the first key with the fewest requests;
    [None] stands for the [KeyError] of a key without statistics. *)
Fixpoint min_by_requests (stats : gmap string KeyStats) (best : string * Z)
    (rest : list string) : option string :=
  match rest with
  | [] => Some (fst best)
  | k :: rest' =>
      match stats !! k with
      | None => None
      | Some st =>
          if requests st <? snd best
          then min_by_requests stats (k, requests st) rest'
          else min_by_requests stats best rest'
      end
  end.

Definition _get_least_used_key (m : t) : exn + option string :=
  match keys m with
  | [] => inr None
  | k :: rest =>
      match key_stats m !! k with
      | None => inl KeyError
      | Some st =>
          match min_by_requests (key_stats m) (k, requests st) rest with
          | None => inl KeyError
          | Some best => inr (Some best)
          end
      end
  end.

(** [_is_error_stale]; one hour is 3600 * 10^6 microseconds. *)
Definition _is_error_stale (now : Z) (st : KeyStats) : bool :=
  match last_error st, last_error_time st with
  | Some e, Some tm =>
      if String.eqb e EmptyString then true
      else 3600000000 <? now - tm
  | _, _ => true
  end.

Definition reset_stats (st : KeyStats) : KeyStats :=
  mkStats (requests st) (errors st) None None.

(** [_reset_error_tracking]; its only caller has just read the
    statistics of every key, so no lookup can fail here. *)
Definition _reset_error_tracking (m : t) : t :=
  mk (strategy m) (current_index m) (keys m)
     (fold_left (fun s k => alter reset_stats k s) (keys m) (key_stats m))
     (rate_limit_threshold m).

(** The comprehension of [_get_adaptive_key]. *)
Fixpoint available_keys (now : Z) (stats : gmap string KeyStats)
    (ks : list string) : option (list string) :=
  match ks with
  | [] => Some []
  | k :: rest =>
      match stats !! k, available_keys now stats rest with
      | Some st, Some av =>
          if negb (bool_decide (last_error st = Some "RATE_LIMIT"%string))
             || _is_error_stale now st
          then Some (k :: av) else Some av
      | _, _ => None
      end
  end.

Definition _get_adaptive_key (now : Z) (m : t) : exn + option string * t :=
  match available_keys now (key_stats m) (keys m) with
  | None => inl KeyError
  | Some [] => inr (_get_round_robin_key (_reset_error_tracking m))
  | Some av =>
      inr (index_mod av (current_index m),
           mk (strategy m) (current_index m + 1) (keys m) (key_stats m)
              (rate_limit_threshold m))
  end.

(** [get_next_key].  [now] is the clock read by the adaptive strategy and
    [pick] the index drawn by [random.choice]. *)
Definition get_next_key (now : Z) (pick : nat) (m : t) : exn + option string * t :=
  match keys m with
  | [] => inr (None, m)
  | _ :: _ =>
      if String.eqb (strategy m) "round_robin" then inr (_get_round_robin_key m)
      else if String.eqb (strategy m) "least_used" then
        match _get_least_used_key m with
        | inl x => inl x
        | inr k => inr (k, m)
        end
      else if String.eqb (strategy m) "random" then
        inr (keys m !! (pick mod length (keys m))%nat, m)
      else if String.eqb (strategy m) "adaptive" then _get_adaptive_key now m
      else inr (_get_round_robin_key m)
  end.

(** [record_request(key, success, error_type)] at time [now]. *)
Definition record_request (now : Z) (key : string) (success : bool)
    (error_type : option string) (m : t) : t :=
  match key_stats m !! key with
  | None => m
  | Some st =>
      let st1 := mkStats (requests st + 1) (errors st) (last_error st) (last_error_time st) in
      let st2 :=
        if negb success
        then mkStats (requests st1) (errors st1 + 1) error_type (Some now)
        else st1 in
      mk (strategy m) (current_index m) (keys m) (<[key := st2]> (key_stats m))
         (rate_limit_threshold m)
  end.

(** Python's [a / b] on integers. *)
Definition truediv (a b : Z) : exn + Q :=
  if b =? 0 then inl ZeroDivisionError else inr (inject_Z a / inject_Z b)%Q.

(** [(errors / requests) * 100] *)
Definition error_rate (st : KeyStats) : exn + Q :=
  match truediv (errors st) (requests st) with
  | inl x => inl x
  | inr q => inr (q * 100)%Q
  end.

(** [should_skip_key] *)
Definition should_skip_key (m : t) (key : string) : exn + bool :=
  match key_stats m !! key with
  | None => inr false
  | Some st =>
      if requests st =? 0 then inr false
      else
        match error_rate st with
        | inl x => inl x
        | inr rate => inr (Qle_bool (inject_Z (rate_limit_threshold m)) rate)
        end
  end.

(** One row of [get_statistics]; [row_error_rate] is the number that the
    source formats with one decimal. *)
Record StatRow := mkRow {
  row_requests : Z;
  row_errors : Z;
  row_error_rate : Q;
  row_last_error : option string
}.

(** [key[:10] + "..."] *)
Definition key_short (key : string) : string :=
  (String.substring 0 10 key ++ "...")%string.

Definition stat_row (st : KeyStats) : exn + StatRow :=
  let rate :=
    if 0 <? requests st then error_rate st else inr (inject_Z 0) in
  match rate with
  | inl x => inl x
  | inr r => inr (mkRow (requests st) (errors st) r (last_error st))
  end.

(** [get_statistics] *)
Fixpoint statistics_of (stats : gmap string KeyStats) (ks : list string)
    (acc : gmap string StatRow) : exn + gmap string StatRow :=
  match ks with
  | [] => inr acc
  | k :: rest =>
      match stats !! k with
      | None => inl KeyError
      | Some st =>
          match stat_row st with
          | inl x => inl x
          | inr row => statistics_of stats rest (<[key_short k := row]> acc)
          end
      end
  end.

Definition get_statistics (m : t) : exn + gmap string StatRow :=
  statistics_of (key_stats m) (keys m) ∅.

(** A call of [record_request] with its arguments. *)
Record request := mkRequest {
  req_now : Z;
  req_key : string;
  req_success : bool;
  req_error_type : option string
}.

Definition record_requests (rs : list request) (m : t) : t :=
  fold_left
    (fun acc r => record_request (req_now r) (req_key r) (req_success r) (req_error_type r) acc)
    rs m.

(** Selections driven by [get_next_key] alone, one per element of
    [envs] (the clock and the random draw of that call). *)
Fixpoint selections (envs : list (Z * nat)) (m : t) : list (exn + option string) :=
  match envs with
  | [] => []
  | (now, pick) :: rest =>
      match get_next_key now pick m with
      | inl x => [inl x]
      | inr (k, m') => inr k :: selections rest m'
      end
  end.

(** What every run of [record_request] keeps true. *)
Definition stats_ok (m : t) : Prop :=
  (forall key st, key_stats m !! key = Some st -> 0 <= errors st <= requests st) /\
  (forall key, key ∈ keys m <-> is_Some (key_stats m !! key)).

(** A concrete run: two keys, twenty requests on the first of which
    nineteen fail, none on the second. *)
Definition example_manager : t :=
  record_requests
    (repeat (mkRequest 0 "AIzaA" false (Some "TIMEOUT"%string)) 19 ++
     [mkRequest 0 "AIzaA" true None])
    (init "round_robin" ["AIzaA"; "AIzaB"]%string 95).

End KeyRotation.

(** ** Post-processor (phase-3-post-processing/post-processor/lambda_function.py) *)

Module PostProcessor.

(** The values [json.loads] produces.  An object keeps its fields in
    document order, one entry per key, as a Python [dict] does. *)
#[warnings="-register-all"] Inductive json :=
| JNull
| JBool (b : bool)
| JNum (q : Q)
| JStr (s : string)
| JArr (items : list json)
| JObj (fields : list (string * json)).

(** Python's [min(x, y)]: [y] only when it is strictly smaller. *)
Definition py_min (x y : Q) : Q := if Qltb y x then y else x.

(** Rounding to the nearest integer, ties to even. *)
Definition round_half_even (q : Q) : Z :=
  let f := Qfloor q in
  let r := (q - inject_Z f)%Q in
  if Qltb r (1 # 2) then f
  else if Qltb (1 # 2) r then f + 1
  else if Z.even f then f else f + 1.

(** [round(x, 2)] *)
Definition round2 (x : Q) : Q := (inject_Z (round_half_even (x * 100)) / 100)%Q.

(** [v is not None and v != ''] *)
Definition non_empty (v : json) : bool :=
  match v with
  | JNull => false
  | JStr s => negb (String.eqb s EmptyString)
  | _ => true
  end.

(** [len([v for v in data.values() if ...])] *)
Definition field_count (fields : list (string * json)) : Z :=
  Z.of_nat (length (filter (fun kv => non_empty (snd kv)) fields)).

(** The [source_reliability] dictionary, in its insertion order. *)
Definition source_reliability : list (string * Q) :=
  [ ("api.themoviedb.org", 95 # 100);
    ("en.wikipedia.org", 90 # 100);
    ("newsapi.org", 85 # 100);
    ("twitter.com", 80 # 100);
    ("instagram.com", 75 # 100);
    ("youtube.com", 85 # 100) ]%string.

(** The loop over [source_reliability.items()] with its [break]. *)
Fixpoint lookup_reliability (table : list (string * Q)) (source_lower : string)
    (dflt : Q) : Q :=
  match table with
  | [] => dflt
  | (domain, score) :: rest =>
      if contains domain source_lower then score
      else lookup_reliability rest source_lower dflt
  end.

Definition reliability_score (source : string) : Q :=
  lookup_reliability source_reliability (lower source) (5 # 10).

(** The keys left out of the text that is scored. *)
Definition excluded_key (k : string) : bool :=
  String.eqb k "id" || String.eqb k "raw_text" || String.eqb k "source".

(** [[str(v) for k, v in data.items() if isinstance(v, str) and k not in ...]] *)
Definition text_fields (fields : list (string * json)) : list string :=
  flat_map (fun kv =>
              match snd kv with
              | JStr s => if excluded_key (fst kv) then [] else [s]
              | _ => []
              end) fields.

(** A DynamoDB attribute value as the stream delivers it. *)
Inductive AttributeValue :=
| AttrS (s : string)
| AttrN (n : string)
| AttrBOOL (b : bool)
| AttrNULL.

(** [new_image.get(name, {}).get('S')] *)
Definition get_S (image : gmap string AttributeValue) (name : string) : option string :=
  match image !! name with
  | Some (AttrS s) => Some s
  | _ => None
  end.

(** Truthiness of a value that is [None] or a string. *)
Definition present (v : option string) : bool :=
  match v with
  | Some s => negb (String.eqb s EmptyString)
  | None => false
  end.

Record StreamData := mkStreamData {
  NewImage : option (gmap string AttributeValue)
}.

(** A stream record; a field that is [None] is a missing key. *)
Record StreamRecord := mkStreamRecord {
  eventName : option string;
  dynamodb : option StreamData
}.

(** Attribute values of a stored item. *)
Inductive Value :=
| VStr (s : string)
| VNum (q : Q).

(** A call of [table.update_item]: the key and the attributes its [SET]
    expression assigns, in order. *)
Record UpdateItem := mkUpdateItem {
  Key : string * string;
  SetAttributes : list (string * Value)
}.

(** The table: its items by (celebrity_id, source_type#timestamp) and
    the update calls it has received. *)
Record Table := mkTable {
  items : gmap (string * string) (gmap string Value);
  calls : list UpdateItem
}.

Definition apply_set (sets : list (string * Value)) (item : gmap string Value)
    : gmap string Value :=
  fold_left (fun it kv => <[fst kv := snd kv]> it) sets item.

Definition key_attributes (key : string * string) : gmap string Value :=
  <["celebrity_id"%string := VStr (fst key)]>
    (<["source_type#timestamp"%string := VStr (snd key)]> ∅).

Inductive exn :=
| KeyError
| ClientError.

(** The store's [update_item] with a [SET] expression.  The store is an
    external collaborator; its contract is the one the specification gives
    for a conditional update (given the full key, assign a named subset of
    attributes without touching others), and an item that does not exist
    is created from its key.  Every call is recorded in [calls]; [fault]
    tells whether the store rejects this one. *)
Definition update_item (fault : bool) (req : UpdateItem) (tbl : Table)
    : (exn + unit) * Table :=
  let received := mkTable (items tbl) (calls tbl ++ [req]) in
  if fault then (inl ClientError, received)
  else
    let item := default (key_attributes (Key req)) (items tbl !! Key req) in
    (inr tt,
     mkTable (<[Key req := apply_set (SetAttributes req) item]> (items tbl))
             (calls received)).

Section Processor.
(** [json.loads]: [None] when it raises. *)
Variable json_loads : string -> option json.
(** [TextBlob(text).sentiment.polarity] when the package can be
    imported; the inner [None] is an exception of the classifier. *)
Variable textblob : option (string -> option Q).
(** [comprehend.detect_sentiment(...)]: [None] when it raises, else the
    ['Sentiment'] entry of the response if it has one. *)
Variable detect_sentiment : string -> option (option string).
(** [USE_AWS_COMPREHEND] *)
Variable USE_AWS_COMPREHEND : bool.

(** The first [try] of [calculate_weight]. *)
Definition completeness_score (raw_text : string) : Q :=
  match json_loads raw_text with
  | Some (JObj fields) => py_min (inject_Z (field_count fields) / 10) 1
  | _ => 3 # 10      (* except: also [data.values()] on a non-object *)
  end.

(** [calculate_weight] *)
Definition calculate_weight (raw_text source : string) : Q :=
  let completeness := completeness_score raw_text in
  let reliability := reliability_score source in
  let weight := (completeness * (5 # 10) + reliability * (5 # 10))%Q in
  round2 weight.

(** The text both classifiers score, before truncation. *)
Definition text_content (raw_text : string) : string :=
  if startswith "{" raw_text then
    match json_loads raw_text with
    | Some (JObj fields) => join " " (text_fields fields)
    | _ => raw_text
    end
  else raw_text.

(** [text_content[:500]] *)
Definition truncate (text : string) : string := String.substring 0 500 text.

(** [calculate_sentiment_textblob] *)
Definition calculate_sentiment_textblob (raw_text : string) : string :=
  match textblob with
  | None => "neutral"                      (* ImportError *)
  | Some polarity_of =>
      match polarity_of (truncate (text_content raw_text)) with
      | None => "neutral"                  (* except Exception *)
      | Some polarity =>
          if Qltb (1 # 10) polarity then "positive"
          else if Qltb polarity (- (1 # 10)) then "negative"
          else "neutral"
      end
  end.

(** The [sentiment_map] lookup with its default. *)
Definition sentiment_map (label : string) : string :=
  if String.eqb label "positive" then "positive"
  else if String.eqb label "negative" then "negative"
  else "neutral".

(** [calculate_sentiment_aws] *)
Definition calculate_sentiment_aws (raw_text : string) : string :=
  match detect_sentiment (truncate (text_content raw_text)) with
  | None => "neutral"
  | Some response =>
      sentiment_map (lower (default "NEUTRAL"%string response))
  end.

(** [calculate_sentiment] *)
Definition calculate_sentiment (raw_text : string) : string :=
  if USE_AWS_COMPREHEND then calculate_sentiment_aws raw_text
  else calculate_sentiment_textblob raw_text.

(** The request [process_stream_record] builds; [utcnow] is
    [datetime.utcnow().isoformat()]. *)
Definition build_update (utcnow celebrity_id source_type_timestamp : string)
    (weight : Q) (sentiment : string) : UpdateItem :=
  mkUpdateItem (celebrity_id, source_type_timestamp)
    [ ("weight"%string, VNum weight);
      ("sentiment"%string, VStr sentiment);
      ("updated_at"%string, VStr (utcnow ++ "Z")) ].

(** The body of the [try] in [process_stream_record]. *)
Definition process_body (utcnow : string) (fault : bool) (record : StreamRecord)
    (tbl : Table) : (exn + bool) * Table :=
  match eventName record with
  | None => (inl KeyError, tbl)
  | Some event_name =>
      if negb (String.eqb event_name "INSERT" || String.eqb event_name "MODIFY")
      then (inr true, tbl)
      else
        match dynamodb record with
        | None => (inl KeyError, tbl)
        | Some dynamodb_record =>
            match NewImage dynamodb_record with
            | None => (inr true, tbl)
            | Some new_image =>
                let celebrity_id := get_S new_image "celebrity_id" in
                let source_type_timestamp := get_S new_image "source_type#timestamp" in
                let raw_text := get_S new_image "raw_text" in
                let source := get_S new_image "source" in
                match celebrity_id, source_type_timestamp, raw_text, source with
                | Some cid, Some stt, Some raw, Some src =>
                    if present celebrity_id && present source_type_timestamp
                       && present raw_text && present source
                    then
                      let weight := calculate_weight raw src in
                      let sentiment := calculate_sentiment raw in
                      match update_item fault
                              (build_update utcnow cid stt weight sentiment) tbl with
                      | (inl x, tbl') => (inl x, tbl')
                      | (inr _, tbl') => (inr true, tbl')
                      end
                    else (inr true, tbl)
                | _, _, _, _ => (inr true, tbl)
                end
            end
        end
  end.

(** [process_stream_record]: [except Exception] turns every exception
    of the body into the answer [False]. *)
Definition process_stream_record (utcnow : string) (fault : bool)
    (record : StreamRecord) (tbl : Table) : (exn + bool) * Table :=
  match process_body utcnow fault record tbl with
  | (inl _, tbl') => (inr false, tbl')
  | (inr b, tbl') => (inr b, tbl')
  end.

End Processor.


(** The stored attribute [name] of the item at [key], if any. *)
Definition stored (tbl : Table) (key : string * string) (name : string) : option Value :=
  match items tbl !! key with
  | Some item => item !! name
  | None => None
  end.

(** *** Concrete inputs *)

(** The double quote character, and a quoted JSON string. *)
Definition dq : string := String (ascii_of_nat 34) EmptyString.

Definition quoted (s : string) : string := (dq ++ s ++ dq)%string.

(** The payload [{"title":"X","bio":"great performance, amazing"}]. *)
Definition doc_profile : string :=
  ("{" ++ quoted "title" ++ ":" ++ quoted "X" ++ "," ++
   quoted "bio" ++ ":" ++ quoted "great performance, amazing" ++ "}")%string.

(** [json.loads] on the documents used below: the empty array, the empty
    object and [doc_profile] parse to the values shown; the text
    [not json], like every other argument here, is rejected. *)
Definition loads_examples (raw : string) : option json :=
  if String.eqb raw "[]" then Some (JArr [])
  else if String.eqb raw "{}" then Some (JObj [])
  else if String.eqb raw doc_profile
  then Some (JObj [("title"%string, JStr "X"); ("bio"%string, JStr "great performance, amazing")])
  else None.

(** A polarity oracle that finds every text neutral. *)
Definition flat_polarity : option (string -> option Q) := Some (fun _ => Some 0%Q).

Definition no_comprehend (text : string) : option (option string) := None.

Definition image_of (celebrity_id source_type_timestamp raw_text source : string)
    : gmap string AttributeValue :=
  <["celebrity_id"%string := AttrS celebrity_id]>
    (<["source_type#timestamp"%string := AttrS source_type_timestamp]>
       (<["raw_text"%string := AttrS raw_text]>
          (<["source"%string := AttrS source]> ∅))).

Definition insert_event (image : gmap string AttributeValue) : StreamRecord :=
  mkStreamRecord (Some "INSERT"%string) (Some (mkStreamData (Some image))).

(** A notification whose payload is not JSON. *)
Definition malformed_record : StreamRecord :=
  insert_event (image_of "celeb_001" "youtube#2025-11-07T17:20:00Z" "not json"
                  "https://www.googleapis.com/youtube/v3/channels").

(** The item that notification was sent for, as the scraper wrote it. *)
Definition scraped_item : gmap string Value :=
  <["celebrity_id"%string := VStr "celeb_001"]>
    (<["source_type#timestamp"%string := VStr "youtube#2025-11-07T17:20:00Z"]>
       (<["name"%string := VStr "Some Name"]>
          (<["raw_text"%string := VStr "not json"]>
             (<["source"%string := VStr "https://www.googleapis.com/youtube/v3/channels"]> ∅)))).

(** A notification for the profile payload, scraped from Wikipedia. *)
Definition profile_record : StreamRecord :=
  insert_event (image_of "celeb_002" "wikipedia#2025-11-07T17:20:00Z" doc_profile
                  "https://en.wikipedia.org/wiki/X").


Definition scraped_table : Table :=
  mkTable (<[("celeb_001"%string, "youtube#2025-11-07T17:20:00Z"%string) := scraped_item]> ∅) [].

End PostProcessor.

(** ** Runs of the circuit breaker *)

Module BreakerRuns.
Import CircuitBreaker.

(** The three calls a scraper makes on its breaker. *)
Inductive op :=
| Failure (now : Z)      (* [record_failure()] at time [now] *)
| Success                (* [record_success()] *)
| Check (now : Z).       (* [can_execute()] at time [now] *)

Definition step (o : op) (cb : t) : t :=
  match o with
  | Failure now => record_failure now cb
  | Success => record_success cb
  | Check now => snd (can_execute now cb)
  end.

Definition run (ops : list op) (cb : t) : t :=
  fold_left (fun c o => step o c) ops cb.

(** What every run keeps true of the breaker. *)
Definition consistent (cb : t) : Prop :=
  0 <= failure_count cb /\
  (is_open cb = true <-> 0 < failure_count cb /\ failure_threshold cb <= failure_count cb) /\
  (is_open cb = true -> exists tf, last_failure_time cb = Some tf).

End BreakerRuns.

(** ** Runs of the rotation manager *)

Module RotationOps.
Import KeyRotation.

(** The calls a scraper makes on the manager. *)
Inductive op :=
| Next (now : Z) (pick : nat)     (* [get_next_key()] *)
| Record (r : request).           (* [record_request(...)] *)

(** A run: the keys handed out, in order, and the manager afterwards. *)
Fixpoint run (ops : list op) (m : t) : exn + (list (option string) * t) :=
  match ops with
  | [] => inr ([], m)
  | Next now pick :: rest =>
      match get_next_key now pick m with
      | inl x => inl x
      | inr (k, m') =>
          match run rest m' with
          | inl x => inl x
          | inr (ks, m'') => inr (k :: ks, m'')
          end
      end
  | Record r :: rest =>
      run rest (record_request (req_now r) (req_key r) (req_success r) (req_error_type r) m)
  end.

(** The request count of a key, 0 for a key without statistics. *)
Definition requests_of (stats : gmap string KeyStats) (key : string) : Z :=
  match stats !! key with
  | Some st => requests st
  | None => 0
  end.

(** The requests of a run that name [key], and those among them that failed. *)
Definition requests_for (key : string) (rs : list request) : list request :=
  filter (fun r => String.eqb (req_key r) key) rs.

Definition failures_for (key : string) (rs : list request) : list request :=
  filter (fun r => String.eqb (req_key r) key && negb (req_success r)) rs.

(** The keys the adaptive strategy may hand out at time [now]. *)
Definition available (now : Z) (st : KeyStats) : bool :=
  negb (bool_decide (last_error st = Some "RATE_LIMIT"%string)) || _is_error_stale now st.

End RotationOps.

(** Concrete managers for the checks below. *)

Module RotationExamples.
Import KeyRotation.

(** Three keys; the first was used twice, the second once, the third once. *)
Definition used_manager (strategy : string) : t :=
  record_requests
    [mkRequest 10 "AIzaA" true None; mkRequest 20 "AIzaA" true None;
     mkRequest 30 "AIzaB" false (Some "RATE_LIMIT"%string);
     mkRequest 40 "AIzaC" true None]
    (init strategy ["AIzaA"; "AIzaB"; "AIzaC"]%string 95).

(** Two keys, both rate limited a moment ago. *)
Definition limited_manager : t :=
  record_requests
    [mkRequest 10 "AIzaA" false (Some "RATE_LIMIT"%string);
     mkRequest 20 "AIzaB" false (Some "RATE_LIMIT"%string)]
    (init "adaptive" ["AIzaA"; "AIzaB"]%string 95).

End RotationExamples.

Module StatisticsExamples.
Import KeyRotation.

(** Two keys that agree on their first ten characters: one request on the
    first, two on the second, one of them failed. *)
Definition twin_manager : t :=
  record_requests
    [mkRequest 10 "AIzaSyABCD-one" true None;
     mkRequest 20 "AIzaSyABCD-two" true None;
     mkRequest 30 "AIzaSyABCD-two" false (Some "TIMEOUT"%string)]
    (init "round_robin" ["AIzaSyABCD-one"; "AIzaSyABCD-two"]%string 95).

End StatisticsExamples.

(** ** Loading the keys (key_rotation.py, [_load_keys] and the constructors) *)

Module KeyLoading.

(** The white space [str.strip()] removes, among the ASCII characters. *)
Definition is_space (c : ascii) : bool :=
  let n := nat_of_ascii c in
  ((9 <=? n)%nat && (n <=? 13)%nat) || ((28 <=? n)%nat && (n <=? 32)%nat).

Fixpoint lstrip (s : string) : string :=
  match s with
  | EmptyString => EmptyString
  | String c rest => if is_space c then lstrip rest else s
  end.

Fixpoint rstrip (s : string) : string :=
  match s with
  | EmptyString => EmptyString
  | String c rest =>
      let rest' := rstrip rest in
      if String.eqb rest' EmptyString && is_space c then EmptyString
      else String c rest'
  end.

(** [s.strip()] *)
Definition strip (s : string) : string := rstrip (lstrip s).

(** [s.split(sep)] for a one-character separator. *)
Fixpoint split_on (sep : ascii) (s : string) : list string :=
  match s with
  | EmptyString => [EmptyString]
  | String c rest =>
      if Ascii.eqb c sep then EmptyString :: split_on sep rest
      else match split_on sep rest with
           | [] => [String c EmptyString]
           | piece :: pieces => String c piece :: pieces
           end
  end.

(** [f'GOOGLE_API_KEY_{i}'] for [i] in [range(1, 10)]. *)
Definition individual_names : list string :=
  map (fun i => ("GOOGLE_API_KEY_" ++ String (ascii_of_nat (48 + i)) EmptyString)%string)
      (seq 1 9).

(** [key and key != 'your_first_api_key_here' and key.startswith('AIza')] *)
Definition valid_individual (key : string) : bool :=
  negb (String.eqb key EmptyString)
  && negb (String.eqb key "your_first_api_key_here")
  && startswith "AIza" key.

Section Environment.
(** [os.environ] *)
Variable environ : gmap string string.

(** The first loop of [_load_keys]. *)
Definition individual_keys : list string :=
  flat_map (fun name =>
              match environ !! name with
              | Some key => if valid_individual key then [key] else []
              | None => []
              end) individual_names.

(** [[k.strip() for k in combined.split('|') if k.strip()]] when
    [GOOGLE_API_KEYS] is set, not empty and not the placeholder. *)
Definition combined_keys : list string :=
  match environ !! "GOOGLE_API_KEYS"%string with
  | Some combined =>
      if negb (String.eqb combined EmptyString)
         && negb (String.eqb combined "key1|key2|key3")
      then flat_map (fun k => if negb (String.eqb (strip k) EmptyString)
                              then [strip k] else [])
                    (split_on "|" combined)
      else []
  | None => []
  end.

Definition single_key : list string :=
  match environ !! "GOOGLE_API_KEY"%string with
  | Some key =>
      if negb (String.eqb key EmptyString) && negb (String.eqb key "your_api_key_here")
      then [key] else []
  | None => []
  end.

(** [_load_keys] *)
Definition _load_keys : list string :=
  match individual_keys with
  | _ :: _ => individual_keys
  | [] =>
      match combined_keys with
      | _ :: _ => combined_keys
      | [] => single_key
      end
  end.

(** [get_rotation_manager]: the strategy comes from
    [KEY_ROTATION_STRATEGY]; [threshold] is the integer read from
    [RATE_LIMIT_THRESHOLD]. *)
Definition get_rotation_manager (threshold : Z) : KeyRotation.t :=
  KeyRotation.init (default "round_robin"%string (environ !! "KEY_ROTATION_STRATEGY"%string))
    _load_keys threshold.

End Environment.

(** The characters of a string. *)
Fixpoint chars (s : string) : list ascii :=
  match s with
  | EmptyString => []
  | String c rest => c :: chars rest
  end.

(** An environment in the combined format, with blanks around the keys
    and an empty entry. *)
Definition combined_environ : gmap string string :=
  <["GOOGLE_API_KEYS"%string := " AIzaOne | AIzaTwo||  "%string]>
    (<["GOOGLE_API_KEY"%string := "AIzaSingle"%string]> ∅).

(** The same with one individual key and one placeholder besides. *)
Definition mixed_environ : gmap string string :=
  <["GOOGLE_API_KEY_2"%string := "AIzaSecond"%string]>
    (<["GOOGLE_API_KEY_1"%string := "your_first_api_key_here"%string]> combined_environ).

End KeyLoading.

(** ** The post-processor: the batch handler and the scrapers' sources *)

Module PostBatch.
Import PostProcessor.


(** What [lambda_handler] returns: the status code and, for code 200, the
    three numbers of the body. *)
Record Response := mkResponse {
  statusCode : Z;
  total : Z;
  success : Z;
  errors : Z
}.

(** The four fields of a record that leads to an update: an [INSERT] or
    [MODIFY] event whose new image has them all, none empty. *)
Definition complete (record : StreamRecord) : option (string * string * string * string) :=
  match eventName record, dynamodb record with
  | Some event_name, Some (mkStreamData (Some image)) =>
      if String.eqb event_name "INSERT" || String.eqb event_name "MODIFY" then
        match get_S image "celebrity_id", get_S image "source_type#timestamp",
              get_S image "raw_text", get_S image "source" with
        | Some cid, Some stt, Some raw, Some src =>
            if present (Some cid) && present (Some stt) && present (Some raw)
               && present (Some src)
            then Some (cid, stt, raw, src) else None
        | _, _, _, _ => None
        end
      else None
  | _, _ => None
  end.

(** A record raises inside [process_stream_record] when it has no
    ['eventName'], or is an [INSERT] or [MODIFY] without ['dynamodb']. *)
Definition raises_key_error (record : StreamRecord) : bool :=
  match eventName record with
  | None => true
  | Some event_name =>
      (String.eqb event_name "INSERT" || String.eqb event_name "MODIFY")
      && negb (bool_decide (is_Some (dynamodb record)))
  end.

Section Handler.
Variable json_loads : string -> option json.
Variable textblob : option (string -> option Q).
Variable detect_sentiment : string -> option (option string).
Variable USE_AWS_COMPREHEND : bool.
(** The clock and the store's behaviour at the record with index [i]. *)
Variable utcnow : nat -> string.
Variable fault : nat -> bool.

(** The loop over [enumerate(records, 1)]: the counters and the table. *)
Fixpoint process_records (idx : nat) (records : list StreamRecord)
    (success_count error_count : Z) (tbl : Table) : Z * Z * Table :=
  match records with
  | [] => (success_count, error_count, tbl)
  | record :: rest =>
      match process_stream_record json_loads textblob detect_sentiment
              USE_AWS_COMPREHEND (utcnow idx) (fault idx) record tbl with
      | (inr true, tbl') => process_records (S idx) rest (success_count + 1) error_count tbl'
      | (inr false, tbl') => process_records (S idx) rest success_count (error_count + 1) tbl'
      | (inl _, tbl') => process_records (S idx) rest success_count (error_count + 1) tbl'
      end
  end.

(** [lambda_handler]; [records] is [None] when the event has no
    ['Records']. *)
Definition lambda_handler (records : option (list StreamRecord)) (tbl : Table)
    : Response * Table :=
  match records with
  | None => (mkResponse 400 0 0 0, tbl)
  | Some rs =>
      match process_records 1 rs 0 0 tbl with
      | (s, e, tbl') => (mkResponse 200 (Z.of_nat (length rs)) s e, tbl')
      end
  end.

(** The requests a batch sends to the store, in order. *)
Fixpoint updates_of (idx : nat) (records : list StreamRecord) : list UpdateItem :=
  match records with
  | [] => []
  | record :: rest =>
      match complete record with
      | Some (cid, stt, raw, src) =>
          [build_update (utcnow idx) cid stt (calculate_weight json_loads raw src)
             (calculate_sentiment json_loads textblob detect_sentiment
                USE_AWS_COMPREHEND raw)]
      | None => []
      end ++ updates_of (S idx) rest
  end.

(** The number of records of a batch that count as errors: those that
    raise, and those whose update the store rejects. *)
Fixpoint failures_of (idx : nat) (records : list StreamRecord) : Z :=
  match records with
  | [] => 0
  | record :: rest =>
      (if raises_key_error record
          || match complete record with Some _ => fault idx | None => false end
       then 1 else 0) + failures_of (S idx) rest
  end.

End Handler.

(** A batch: a record without an event name, the malformed record and the
    profile record. *)
Definition example_batch : list StreamRecord :=
  [mkStreamRecord None None; malformed_record; profile_record].

End PostBatch.

(** ** The YouTube scraper's store access (stage-2.4-youtube/lambda_function.py) *)

(** [a == b] on the values above; Python has [True == 1] and
    [False == 0], and dictionaries and sets identify equal keys. *)
Definition py_eqb (a b : pyval) : bool :=
  match a, b with
  | PNone, PNone => true
  | PBool x, PBool y => Bool.eqb x y
  | PInt x, PInt y => x =? y
  | PStr s, PStr t => String.eqb s t
  | PBool x, PInt y => (if x then 1 else 0) =? y
  | PInt x, PBool y => x =? (if y then 1 else 0)
  | _, _ => false
  end.

Module YouTubeStore.

(** *** write_scraper_entry_with_retry (lines 249-284) *)

(** One call of [table.put_item]: the item is stored, or the call raises
    a [ClientError] (carrying a service response with its error code) or
    another [Exception].  Both handlers do the same but for the log. *)
Inductive put_outcome :=
| Stored
| RaisesClientError
| RaisesException.

Inductive exn :=
| ClientError     (* raised by the store *)
| StoreException  (* any other exception of the store *)
| KeyError        (* [item['name']] without that key *)
| ValueError      (* [time.sleep] of a negative length *)
| AttributeError. (* [.startswith] on a value that is no string *)

Inductive event :=
| Put (attempt : nat)
| Sleep (delay : Z).

Section Write.
Context {V : Type}.
Variable put_item : nat -> put_outcome.   (* outcome of the i-th call *)
Variable item : gmap string V.
Variable max_retries : Z.
Variable base_delay : Z.

(** [delay = base_delay * (2 ** attempt)] *)
Definition delay_of (attempt : nat) : Z := base_delay * 2 ^ Z.of_nat attempt.

(** The handlers' [if attempt < max_retries - 1: time.sleep(delay)]. *)
Definition backoff (attempt : nat) (tr : list event) : exn + list event :=
  if Z.of_nat attempt <? max_retries - 1
  then if delay_of attempt <? 0 then inl ValueError
       else inr (tr ++ [Sleep (delay_of attempt)])
  else inr tr.

(** The body of the [try]: the write, then the log line that reads
    [item['name']]. *)
Definition try_write (attempt : nat) : exn + unit :=
  match put_item attempt with
  | Stored =>
      match item !! "name"%string with
      | Some _ => inr tt
      | None => inl KeyError
      end
  | RaisesClientError => inl ClientError
  | RaisesException => inl StoreException
  end.

(** [for attempt in range(max_retries)], then the final log line and
    [return False].  The exception of a failed attempt is swallowed by
    its handler, so which one it was does not matter. *)
Fixpoint loop (attempts : list nat) (tr : list event) : (exn + bool) * list event :=
  match attempts with
  | [] =>
      match item !! "name"%string with
      | Some _ => (inr false, tr)
      | None => (inl KeyError, tr)
      end
  | attempt :: rest =>
      let tr := tr ++ [Put attempt] in
      match try_write attempt with
      | inr _ => (inr true, tr)
      | inl _ =>
          match backoff attempt tr with
          | inl x => (inl x, tr)
          | inr tr' => loop rest tr'
          end
      end
  end.

Definition write_scraper_entry_with_retry : (exn + bool) * list event :=
  loop (seq 0 (Z.to_nat max_retries)) [].

(** How often the item has reached the table in a run. *)
Definition stored_copies (tr : list event) : nat :=
  length (List.filter (fun e => match e with
                           | Put attempt =>
                               match put_item attempt with Stored => true | _ => false end
                           | Sleep _ => false
                           end) tr).

End Write.

(** Attempts [0 .. n-1], each followed by its back-off sleep. *)
Definition failed_attempts (base_delay : Z) (n : nat) : list event :=
  flat_map (fun j => [Put j; Sleep (base_delay * 2 ^ Z.of_nat j)]) (seq 0 n).

(** A run of [n] attempts that all fail: no sleep follows the last. *)
Definition exhausted_attempts (base_delay : Z) (n : nat) : list event :=
  match n with
  | O => []
  | S m => failed_attempts base_delay m ++ [Put m]
  end.

(** *** get_all_celebrities (lines 204-246) *)

(** An entry of [celebrities_map]. *)
Record Celebrity := mkCelebrity {
  celebrity_id : pyval;
  name : pyval
}.

(** [table.scan()]: it raises, or returns a response whose ['Items'] may
    be missing. *)
Inductive scan_outcome :=
| ScanRaises
| ScanReturns (Items : option (list (gmap string pyval))).

(** [celeb_id in celebrities_map]; the map is kept as the list of its
    values, in insertion order. *)
Definition in_map (celeb_id : pyval) (celebrities_map : list Celebrity) : bool :=
  existsb (fun c => py_eqb celeb_id (celebrity_id c)) celebrities_map.

(** [item.get('source_type#timestamp', '').startswith('metadata#')] *)
Definition is_metadata (item : gmap string pyval) : exn + bool :=
  match dict_get_default item "source_type#timestamp" (PStr "") with
  | PStr s => inr (startswith "metadata#" s)
  | _ => inl AttributeError
  end.

Definition entry_of (celeb_id : pyval) (item : gmap string pyval) : Celebrity :=
  mkCelebrity celeb_id (dict_get_default item "name" (PStr "Unknown")).

(** The first loop: metadata records only. *)
Fixpoint metadata_pass (items : list (gmap string pyval))
    (celebrities_map : list Celebrity) : exn + list Celebrity :=
  match items with
  | [] => inr celebrities_map
  | item :: rest =>
      let celeb_id := dict_get item "celebrity_id" in
      if truthy celeb_id && negb (in_map celeb_id celebrities_map) then
        match is_metadata item with
        | inl x => inl x
        | inr true => metadata_pass rest (celebrities_map ++ [entry_of celeb_id item])
        | inr false => metadata_pass rest celebrities_map
        end
      else metadata_pass rest celebrities_map
  end.

(** The second loop: the first record of every celebrity. *)
Fixpoint unique_pass (items : list (gmap string pyval))
    (celebrities_map : list Celebrity) : list Celebrity :=
  match items with
  | [] => celebrities_map
  | item :: rest =>
      let celeb_id := dict_get item "celebrity_id" in
      if truthy celeb_id && negb (in_map celeb_id celebrities_map)
      then unique_pass rest (celebrities_map ++ [entry_of celeb_id item])
      else unique_pass rest celebrities_map
  end.

(** [response.get('Items', [])] *)
Definition items_of (scan : scan_outcome) : list (gmap string pyval) :=
  match scan with
  | ScanRaises => []
  | ScanReturns Items => default [] Items
  end.

Definition get_all_celebrities (scan : scan_outcome) : list Celebrity :=
  match scan with
  | ScanRaises => []
  | ScanReturns _ =>
      match metadata_pass (items_of scan) [] with
      | inl _ => []
      | inr [] => unique_pass (items_of scan) []
      | inr celebrities_map => celebrities_map
      end
  end.

(** A celebrity built from [item], and a map without two equal ids. *)
Definition from_item (c : Celebrity) (item : gmap string pyval) : Prop :=
  dict_get item "celebrity_id" = celebrity_id c /\
  name c = dict_get_default item "name" (PStr "Unknown").

Definition distinct_ids (celebrities_map : list Celebrity) : Prop :=
  forall i j c d,
    celebrities_map !! i = Some c -> celebrities_map !! j = Some d -> i <> j ->
    py_eqb (celebrity_id c) (celebrity_id d) = false.

(** A table with a metadata record and a scraped record of one
    celebrity, and a scraped record of another. *)
Definition scanned_items : list (gmap string pyval) :=
  [ <["celebrity_id"%string := PStr "c2"]>
      (<["source_type#timestamp"%string := PStr "youtube#2024-05-01"]> ∅);
    <["celebrity_id"%string := PStr "c1"]>
      (<["source_type#timestamp"%string := PStr "youtube#2024-05-01"]> ∅);
    <["celebrity_id"%string := PStr "c1"]>
      (<["source_type#timestamp"%string := PStr "metadata#2024-01-01"]>
         (<["name"%string := PStr "Ada"]> ∅)) ].

(** An entry as [lambda_handler] builds it, and one without a name. *)
Definition named_item : gmap string pyval :=
  <["celebrity_id"%string := PStr "c1"]> (<["name"%string := PStr "Ada"]> ∅).

Definition nameless_item : gmap string pyval :=
  <["celebrity_id"%string := PStr "c1"]> ∅.

(** A store that rejects the first two writes. *)
Definition third_time (attempt : nat) : put_outcome :=
  match attempt with
  | 0%nat => RaisesClientError
  | 1%nat => RaisesException
  | _ => Stored
  end.

End YouTubeStore.

(** ** The Instagram scraper (stage-2.2-instagram/lambda_function.py) *)

From Stdlib Require Import DecimalString.

(** [str(v)], as an f-string formats a value. *)
Definition py_str (v : pyval) : string :=
  match v with
  | PNone => "None"
  | PBool true => "True"
  | PBool false => "False"
  | PInt z => NilZero.string_of_int (Z.to_int z)
  | PStr s => s
  end.

(** [a or b] *)
Definition py_or (a b : pyval) : pyval := if truthy a then a else b.

(** *** MetricsCollector (lines 114-189) *)

Module MetricsCollector.

(** The dictionary [self.metrics]. *)
Record t := mk {
  successful_scrapes : Z;
  failed_scrapes : Z;
  rate_limited : Z;
  not_found : Z;
  errors_by_type : gmap string Z;
  retry_count : Z;
  start_time : Z
}.

(** [__init__]; [now] is [datetime.utcnow()]. *)
Definition init (now : Z) : t := mk 0 0 0 0 ∅ 0 now.

Definition record_success (m : t) : t :=
  mk (successful_scrapes m + 1) (failed_scrapes m) (rate_limited m) (not_found m)
     (errors_by_type m) (retry_count m) (start_time m).

Definition record_failure (error_type : string) (m : t) : t :=
  mk (successful_scrapes m) (failed_scrapes m + 1) (rate_limited m) (not_found m)
     (<[error_type := default 0 (errors_by_type m !! error_type) + 1]> (errors_by_type m))
     (retry_count m) (start_time m).

Definition record_rate_limited (m : t) : t :=
  mk (successful_scrapes m) (failed_scrapes m) (rate_limited m + 1) (not_found m)
     (errors_by_type m) (retry_count m) (start_time m).

Definition record_retry (m : t) : t :=
  mk (successful_scrapes m) (failed_scrapes m) (rate_limited m) (not_found m)
     (errors_by_type m) (retry_count m + 1) (start_time m).

(** The sum of the counters of [errors_by_type]. *)
Definition total_errors (m : t) : Z :=
  map_fold (fun _ count acc => count + acc) 0 (errors_by_type m).

(** The counters after [n] fetches: each fetch is counted once, as a
    success, a failure or a rate limit; the failures are those of
    [errors_by_type]; [not_found] is never used; [slack] fetches have not
    been followed by a retry. *)
Definition balanced (n slack : Z) (m : t) : Prop :=
  successful_scrapes m + failed_scrapes m + rate_limited m = n /\
  failed_scrapes m = total_errors m /\
  not_found m = 0 /\
  0 <= successful_scrapes m /\ 0 <= failed_scrapes m /\ 0 <= rate_limited m /\
  0 <= retry_count m /\ retry_count m + slack <= n /\
  (forall error_type count, errors_by_type m !! error_type = Some count -> 0 < count).

End MetricsCollector.

(** *** InstagramScraper (lines 192-441) and lambda_handler (lines 444-524) *)

Module InstagramScraper.

(** The values of [ScraperStatus] the scraper uses. *)
Definition SUCCESS : string := "success".
Definition PROFILE_NOT_FOUND : string := "profile_not_found".
Definition RATE_LIMITED : string := "rate_limited".
Definition PRIVATE_ACCOUNT : string := "private_account".
Definition LOGIN_REQUIRED : string := "login_required".
Definition RETRY_EXHAUSTED : string := "retry_exhausted".

(** The exceptions of a fetch, as the [except] clauses tell them apart;
    [OtherException] carries [type(e).__name__]. *)
Inductive exc :=
| ProfileNotExistsException
| PrivateProfileNotFollowedException
| LoginRequiredException
| TooManyRequestsException
| OtherException (type_name : string).

(** The attributes read from a profile; [profile_pic_url] is [None] when
    the object has no such attribute. *)
Record Profile := mkProfile {
  username : string;
  follower_count : Z;
  mediacount : Z;
  biography : string;
  is_verified : bool;
  is_business_account : bool;
  is_private : bool;
  profile_pic_url : option string
}.

(** One pass through the [try] block: [Profile.from_username] raises, or
    it returns and reading an attribute for [data] raises, or all reads
    succeed. *)
Inductive fetch_outcome :=
| Fetched (profile : Profile)
| FetchRaises (e : exc)
| ReadRaises (e : exc).

(** The dictionary returned next to the success flag: the profile's
    attributes with status [success], or a status and an error text. *)
Inductive Data :=
| ProfileData (profile : Profile)
| Failure (status error : string).

(** [data.get('status')] and [data.get('error')] *)
Definition data_status (data : Data) : pyval :=
  match data with
  | ProfileData _ => PStr SUCCESS
  | Failure status _ => PStr status
  end.

Definition data_error (data : Data) : pyval :=
  match data with
  | ProfileData _ => PNone
  | Failure _ error => PStr error
  end.

Inductive exn :=
| KeyError       (* [account['username']] without that key *)
| SetupError.    (* an exception while the scraper is built *)

Inductive event :=
| Fetch (handle : pyval)
| Sleep (seconds : Z)
| Login (username password : pyval)
| PutItem (celebrity_id name : pyval) (timestamp : Z) (data : Data) (stored : bool).

(** The scraper object.  [steps] counts the consultations of the outside
    world (clock, Instagram, store) so far and [trace] lists the requests
    and sleeps; [processed_profiles] holds the members of the set. *)
Record t := mk {
  accounts : list (gmap string pyval);
  account_index : Z;
  circuit_breaker : CircuitBreaker.t;
  metrics : MetricsCollector.t;
  processed_profiles : list pyval;
  steps : nat;
  trace : list event
}.

Definition with_breaker (cb : CircuitBreaker.t) (s : t) : t :=
  mk (accounts s) (account_index s) cb (metrics s) (processed_profiles s)
     (steps s) (trace s).

Definition with_metrics (m : MetricsCollector.t) (s : t) : t :=
  mk (accounts s) (account_index s) (circuit_breaker s) m (processed_profiles s)
     (steps s) (trace s).

Definition with_processed (p : list pyval) (s : t) : t :=
  mk (accounts s) (account_index s) (circuit_breaker s) (metrics s) p
     (steps s) (trace s).

Definition next_account (s : t) : t :=
  mk (accounts s) (account_index s + 1) (circuit_breaker s) (metrics s)
     (processed_profiles s) (steps s) (trace s).

(** One more consultation of the outside world. *)
Definition consult (s : t) : t :=
  mk (accounts s) (account_index s) (circuit_breaker s) (metrics s)
     (processed_profiles s) (S (steps s)) (trace s).

Definition emit (e : event) (s : t) : t :=
  mk (accounts s) (account_index s) (circuit_breaker s) (metrics s)
     (processed_profiles s) (steps s) (trace s ++ [e]).

(** [h in processed_profiles] and [processed_profiles.add(h)] *)
Definition set_mem (h : pyval) (members : list pyval) : bool :=
  existsb (py_eqb h) members.

Definition set_add (h : pyval) (members : list pyval) : list pyval :=
  if set_mem h members then members else members ++ [h].

(** How one attempt ends when no exception leaves the function. *)
Inductive control :=
| Continue
| Return (success : bool) (data : Data).

Section World.
Variable INSTAGRAM_MAX_RETRIES : Z.
(** The outside world, by the number of consultations before the call:
    the answer of Instagram to a fetch, the clock in microseconds, and
    whether a login or a write raises. *)
Variable from_username : nat -> pyval -> fetch_outcome.
Variable utcnow : nat -> Z.
Variable login_raises : nat -> bool.
Variable put_item_raises : nat -> bool.

(** [self.circuit_breaker.can_execute()] *)
Definition breaker_can_execute (s : t) : bool * t :=
  let (answer, cb) := CircuitBreaker.can_execute (utcnow (steps s)) (circuit_breaker s) in
  (answer, with_breaker cb (consult s)).

(** [self.circuit_breaker.record_failure()] *)
Definition breaker_record_failure (s : t) : t :=
  with_breaker (CircuitBreaker.record_failure (utcnow (steps s)) (circuit_breaker s))
    (consult s).

(** [login_next_account]: the account id of a successful login, else
    [None].  A missing ['username'] raises inside the [try], and again in
    the handler's log line, which lets the [KeyError] out. *)
Definition login_next_account (s : t) : (exn + pyval) * t :=
  match accounts s with
  | [] => (inr PNone, s)
  | first :: _ =>
      let account :=
        nth (Z.to_nat (account_index s mod Z.of_nat (length (accounts s))))
            (accounts s) first in
      let s := next_account s in
      match account !! "username"%string with
      | None => (inl KeyError, s)
      | Some user =>
          match account !! "password"%string with
          | None => (inr PNone, s)
          | Some password =>
              let raised := login_raises (steps s) in
              let s := consult (emit (Login user password) s) in
              if raised then (inr PNone, s)
              else (inr (dict_get account "account_id"), s)
          end
      end
  end.

(** [attempt < INSTAGRAM_MAX_RETRIES - 1] *)
Definition may_retry (attempt : nat) : bool :=
  Z.of_nat attempt <? INSTAGRAM_MAX_RETRIES - 1.

Definition count_failure (error_type : string) (s : t) : t :=
  with_metrics (MetricsCollector.record_failure error_type (metrics s)) s.

Definition count_retry (s : t) : t :=
  with_metrics (MetricsCollector.record_retry (metrics s)) s.

(** The [except] clauses, in their order. *)
Definition on_exception (e : exc) (handle : pyval) (attempt : nat) (s : t)
    : (exn + control) * t :=
  match e with
  | ProfileNotExistsException =>
      (inr (Return false
              (Failure PROFILE_NOT_FOUND ("Profile does not exist: " ++ py_str handle))),
       count_failure "profile_not_found" s)
  | PrivateProfileNotFollowedException =>
      (inr (Return false
              (Failure PRIVATE_ACCOUNT ("Private account requires follow: " ++ py_str handle))),
       count_failure "private_account" s)
  | LoginRequiredException =>
      let s := count_failure "login_required" s in
      if may_retry attempt then
        match login_next_account s with
        | (inl x, s') => (inl x, s')
        | (inr _, s') => (inr Continue, count_retry s')
        end
      else
        (inr (Return false
                (Failure LOGIN_REQUIRED
                   ("Login required and all accounts failed: " ++ py_str handle))), s)
  | TooManyRequestsException =>
      let s := with_metrics (MetricsCollector.record_rate_limited (metrics s)) s in
      let s := breaker_record_failure s in
      if may_retry attempt then
        (inr Continue, count_retry (emit (Sleep (10 * 2 ^ Z.of_nat attempt)) s))
      else
        (inr (Return false
                (Failure RATE_LIMITED
                   ("Rate limited after " ++ py_str (PInt INSTAGRAM_MAX_RETRIES)
                    ++ " retries: " ++ py_str handle))), s)
  | OtherException type_name =>
      let s := count_failure type_name s in
      if may_retry attempt then
        (inr Continue, count_retry (emit (Sleep (5 * (Z.of_nat attempt + 1))) s))
      else (inr Continue, s)
  end.

(** One attempt: the [try] block and its handlers. *)
Definition attempt_once (handle : pyval) (attempt : nat) (s : t) : (exn + control) * t :=
  let answer := from_username (steps s) handle in
  let s := consult (emit (Fetch handle) s) in
  let mark s := with_processed (set_add handle (processed_profiles s)) s in
  match answer with
  | FetchRaises e => on_exception e handle attempt s
  | ReadRaises e => on_exception e handle attempt (mark s)
  | Fetched profile =>
      let s := mark s in
      let s := with_breaker (CircuitBreaker.record_success (circuit_breaker s)) s in
      let s := with_metrics (MetricsCollector.record_success (metrics s)) s in
      (inr (Return true (ProfileData profile)), s)
  end.

(** [for attempt in range(INSTAGRAM_MAX_RETRIES)] and the [return] after
    the loop. *)
Fixpoint attempts_loop (handle : pyval) (attempts : list nat) (s : t)
    : (exn + bool * Data) * t :=
  match attempts with
  | [] =>
      (inr (false,
            Failure RETRY_EXHAUSTED
              ("Max retries (" ++ py_str (PInt INSTAGRAM_MAX_RETRIES) ++ ") exceeded for "
               ++ py_str handle)), s)
  | attempt :: rest =>
      match attempt_once handle attempt s with
      | (inl x, s') => (inl x, s')
      | (inr (Return success data), s') => (inr (success, data), s')
      | (inr Continue, s') => attempts_loop handle rest s'
      end
  end.

Definition scrape_instagram_profile (instagram_handle : pyval) (s : t)
    : (exn + bool * Data) * t :=
  match breaker_can_execute s with
  | (false, s) =>
      (inr (false,
            Failure RATE_LIMITED "Circuit breaker is open due to excessive rate limiting"), s)
  | (true, s) =>
      if set_mem instagram_handle (processed_profiles s) then
        (inr (false,
              Failure "duplicate" ("Profile already processed: " ++ py_str instagram_handle)),
         s)
      else attempts_loop instagram_handle (seq 0 (Z.to_nat INSTAGRAM_MAX_RETRIES)) s
  end.

(** [save_to_dynamodb]: the clock is read for the timestamp, the item is
    sent, and an exception of the store gives [False]. *)
Definition save_to_dynamodb (celebrity_id celebrity_name : pyval) (instagram_data : Data)
    (s : t) : bool * t :=
  let timestamp := utcnow (steps s) in
  let s := consult s in
  let raised := put_item_raises (steps s) in
  let s :=
    consult (emit (PutItem celebrity_id celebrity_name timestamp instagram_data
                     (negb raised)) s) in
  (negb raised, s).

(** The dictionary [process_celebrity] returns, by its three shapes. *)
Inductive Detail :=
| Skipped (celebrity_id name : pyval)
| Scraped (celebrity_id name instagram_handle : pyval) (saved : bool) (data : Data)
| Failed (celebrity_id name instagram_handle reason error : pyval).

(** [result['status']] *)
Definition status (d : Detail) : string :=
  match d with
  | Skipped _ _ => "skipped"
  | Scraped _ _ _ saved _ => if saved then "success" else "save_failed"
  | Failed _ _ _ _ _ => "failed"
  end.

Definition detail_id (d : Detail) : pyval :=
  match d with
  | Skipped celebrity_id _ => celebrity_id
  | Scraped celebrity_id _ _ _ _ => celebrity_id
  | Failed celebrity_id _ _ _ _ => celebrity_id
  end.

Definition handle_of (celebrity : gmap string pyval) : pyval :=
  py_or (dict_get celebrity "instagram_handle") (dict_get celebrity "instagram").

Definition process_celebrity (celebrity : gmap string pyval) (s : t) : (exn + Detail) * t :=
  let celebrity_id := dict_get celebrity "celebrity_id" in
  let celebrity_name := dict_get_default celebrity "name" (PStr "Unknown") in
  let instagram_handle := handle_of celebrity in
  if negb (truthy instagram_handle) then (inr (Skipped celebrity_id celebrity_name), s)
  else
    match scrape_instagram_profile instagram_handle s with
    | (inl x, s') => (inl x, s')
    | (inr (true, data), s') =>
        let (saved, s'') := save_to_dynamodb celebrity_id celebrity_name data s' in
        (inr (Scraped celebrity_id celebrity_name instagram_handle saved data), s'')
    | (inr (false, data), s') =>
        (inr (Failed celebrity_id celebrity_name instagram_handle
                (data_status data) (data_error data)), s')
    end.

(** The dictionary [results] of [lambda_handler]. *)
Record Results := mkResults {
  total_celebrities : Z;
  successful : Z;
  failed : Z;
  skipped : Z;
  details : list Detail
}.

(** The loop of [lambda_handler] over the celebrities. *)
Fixpoint process_all (celebrities : list (gmap string pyval)) (results : Results) (s : t)
    : (exn + Results) * t :=
  match celebrities with
  | [] => (inr results, s)
  | celebrity :: rest =>
      match process_celebrity celebrity s with
      | (inl x, s') => (inl x, s')
      | (inr result, s') =>
          let ds := details results ++ [result] in
          let results :=
            if String.eqb (status result) "success" then
              mkResults (total_celebrities results) (successful results + 1)
                (failed results) (skipped results) ds
            else if String.eqb (status result) "skipped" then
              mkResults (total_celebrities results) (successful results)
                (failed results) (skipped results + 1) ds
            else
              mkResults (total_celebrities results) (successful results)
                (failed results + 1) (skipped results) ds in
          process_all rest results s'
      end
  end.

(** What [load_accounts] finds: no secret configured, a [ClientError] or
    a [JSONDecodeError] (all three give no accounts), another exception,
    or the list under ['accounts']. *)
Inductive secret_outcome :=
| NoSecretArn
| SecretClientError
| SecretInvalidJson
| SecretOtherError
| SecretAccounts (accounts : list (gmap string pyval)).

Definition load_accounts (secret : secret_outcome) : exn + list (gmap string pyval) :=
  match secret with
  | NoSecretArn => inr []
  | SecretClientError => inr []
  | SecretInvalidJson => inr []
  | SecretOtherError => inl SetupError
  | SecretAccounts accounts => inr accounts
  end.

(** [InstagramScraper.__init__] *)
Definition init (accounts : list (gmap string pyval)) : t :=
  mk accounts 0 (CircuitBreaker.init 5 300) (MetricsCollector.init (utcnow 0)) [] 1 [].

(** [get_celebrities_from_dynamodb]: a scan that raises gives no
    celebrities. *)
Definition get_celebrities_from_dynamodb
    (scan : option (list (gmap string pyval))) : list (gmap string pyval) :=
  default [] scan.

Inductive Body :=
| NoCelebrities
| Summary (results : Results)
| Error (e : exn).

Record Response := mkResponse {
  statusCode : Z;
  body : Body
}.

(** [lambda_handler]: [event_celebrities] is the list under
    ['celebrities'] when the event has that key, [scan] the answer of the
    table otherwise. *)
Definition lambda_handler (secret : secret_outcome)
    (event_celebrities : option (list (gmap string pyval)))
    (scan : option (list (gmap string pyval))) : Response * option t :=
  match load_accounts secret with
  | inl x => (mkResponse 500 (Error x), None)
  | inr accounts =>
      let scraper := init accounts in
      let celebrities :=
        match event_celebrities with
        | Some celebrities => celebrities
        | None => get_celebrities_from_dynamodb scan
        end in
      match celebrities with
      | [] => (mkResponse 200 NoCelebrities, Some scraper)
      | _ =>
          let results := mkResults (Z.of_nat (length celebrities)) 0 0 0 [] in
          match process_all celebrities results (consult scraper) with
          | (inl x, s) => (mkResponse 500 (Error x), Some s)
          | (inr results, s) => (mkResponse 200 (Summary results), Some s)
          end
      end
  end.

End World.

(** The requests of a trace to Instagram. *)
Definition fetches (tr : list event) : list pyval :=
  flat_map (fun e => match e with Fetch h => [h] | _ => [] end) tr.

Definition sleeps (tr : list event) : list Z :=
  flat_map (fun e => match e with Sleep d => [d] | _ => [] end) tr.

(** The items a trace has stored. *)
Definition stored_items (tr : list event) : list event :=
  flat_map (fun e => match e with PutItem _ _ _ _ true => [e] | _ => [] end) tr.

(** What the scraper keeps true of its counters. *)
Definition accounted (s : t) : Prop :=
  MetricsCollector.balanced (Z.of_nat (length (fetches (trace s)))) 0 (metrics s).

(** The statuses a failed scrape can carry. *)
Definition failure_statuses : list string :=
  [RATE_LIMITED; "duplicate"%string; PROFILE_NOT_FOUND; PRIVATE_ACCOUNT; LOGIN_REQUIRED;
   RETRY_EXHAUSTED].

(** The celebrities [process_celebrity] skips: no handle. *)
Definition without_handle (celebrity : gmap string pyval) : bool :=
  negb (truthy (handle_of celebrity)).

Definition with_handle (celebrity : gmap string pyval) : bool :=
  truthy (handle_of celebrity).

(** Concrete worlds. *)
Definition always_rate_limited (n : nat) (handle : pyval) : fetch_outcome :=
  FetchRaises TooManyRequestsException.

Definition unreadable (n : nat) (handle : pyval) : fetch_outcome :=
  ReadRaises (OtherException "ConnectionException").

Definition a_profile : Profile :=
  mkProfile "ada" 1200 34 "mathematician" true false false None.

Definition always_found (n : nat) (handle : pyval) : fetch_outcome :=
  Fetched a_profile.

Definition celebrity_ada : gmap string pyval :=
  <["celebrity_id"%string := PStr "c1"]>
    (<["name"%string := PStr "Ada"]> (<["instagram_handle"%string := PStr "ada"]> ∅)).

Definition celebrity_without_handle : gmap string pyval :=
  <["celebrity_id"%string := PStr "c2"]> (<["name"%string := PStr "Bob"]> ∅).

(** A clock that advances one second per consultation, and the scraper
    after it has scraped the handle [ada]. *)
Definition ticking (n : nat) : Z := Z.of_nat n * 1000000.

Definition after_ada : t :=
  snd (scrape_instagram_profile 3 always_found ticking (fun _ => false) (PStr "ada")
         (init ticking [])).

End InstagramScraper.

(** ** Further attempt functions for the retry executor *)

Module RetryExamples.
Import Retry.

(** A search result as [search_youtube_channel] builds it on success. *)
Definition found_channel : gmap string pyval :=
  <["channel_id"%string := PStr "UC123"]> (<["error"%string := PNone]> ∅).

(** The first call fails, the second finds the channel. *)
Definition fails_then_found (attempt : nat) : outcome :=
  match attempt with
  | O => Returns (ODict persistent_error)
  | _ => Returns (ODict found_channel)
  end.

(** The first call returns a failure, every later call raises. *)
Definition fails_then_raises (attempt : nat) : outcome :=
  match attempt with
  | O => Returns (ODict persistent_error)
  | _ => Raises
  end.

End RetryExamples.

(** * Properties *)

(** ** Comparisons on rationals *)

Lemma Qltb_true (x y : Q) : Qltb x y = true <-> (x < y)%Q.
Proof.
  unfold Qltb. rewrite negb_true_iff. split.
  - intros H. apply Qnot_le_lt. intros Hle.
    apply Qle_bool_iff in Hle. congruence.
  - intros H. destruct (Qle_bool y x) eqn:E; [|reflexivity].
    apply Qle_bool_iff in E. exfalso. exact (Qlt_not_le _ _ H E).
Qed.

Lemma Qltb_false (x y : Q) : Qltb x y = false <-> (y <= x)%Q.
Proof.
  unfold Qltb. rewrite negb_false_iff. apply Qle_bool_iff.
Qed.

(** ** The circuit breaker *)

Section CircuitBreakerFacts.
Import CircuitBreaker.

Lemma record_failures_cons (now : Z) (ts : list Z) (cb : t) :
  record_failures (now :: ts) cb = record_failures ts (record_failure now cb).
Proof. reflexivity. Qed.

Lemma record_failures_threshold (ts : list Z) (cb : t) :
  failure_threshold (record_failures ts cb) = failure_threshold cb.
Proof.
  revert cb. induction ts as [|now ts IH]; intros cb; [reflexivity|].
  rewrite record_failures_cons, IH. reflexivity.
Qed.

Lemma record_failures_count (ts : list Z) (cb : t) :
  failure_count (record_failures ts cb) = failure_count cb + Z.of_nat (length ts).
Proof.
  revert cb. induction ts as [|now ts IH]; intros cb.
  - simpl. lia.
  - rewrite record_failures_cons, IH. simpl length. simpl failure_count. lia.
Qed.

Lemma record_failure_open (now : Z) (cb : t) :
  is_open (record_failure now cb) = true <->
  is_open cb = true \/ failure_threshold cb <= failure_count cb + 1.
Proof.
  simpl. destruct (Z.leb_spec (failure_threshold cb) (failure_count cb + 1)).
  - split; auto.
  - split; [auto|]. intros [H'|H']; [exact H'|lia].
Qed.

Lemma record_failures_open (ts : list Z) (cb : t) :
  is_open (record_failures ts cb) = true <->
  is_open cb = true \/
  (ts <> [] /\ failure_threshold cb <= failure_count cb + Z.of_nat (length ts)).
Proof.
  revert cb. induction ts as [|now ts IH]; intros cb.
  - simpl. split; [auto|]. intros [H|[H _]]; [exact H|congruence].
  - rewrite record_failures_cons, IH, record_failure_open.
    simpl failure_threshold. simpl failure_count. simpl length.
    split.
    + intros [[H|H]|[Hne H]]; [left; exact H| |].
      * right. split; [discriminate|lia].
      * right. split; [discriminate|lia].
    + intros [H|[_ H]]; [left; left; exact H|].
      destruct ts as [|t' ts'].
      * left. right. simpl in H. lia.
      * right. split; [discriminate|]. simpl length in *. lia.
Qed.

Lemma record_failures_last (ts : list Z) (cb : t) :
  last_failure_time (record_failures ts cb) =
  match last ts with Some tf => Some tf | None => last_failure_time cb end.
Proof.
  revert cb. induction ts as [|now ts IH]; intros cb; [reflexivity|].
  rewrite record_failures_cons, IH.
  destruct ts as [|t' ts']; [reflexivity|].
  change (last (now :: t' :: ts')) with (last (t' :: ts')).
  destruct (last (t' :: ts')) eqn:E; [reflexivity|].
  apply last_None in E. discriminate.
Qed.

End CircuitBreakerFacts.

(** C1.  Starting closed with a failure count of 0, every [record_failure]
    adds one to the count and the breaker is open exactly once the count
    has reached the threshold; an open breaker refuses execution while the
    time since the last failure does not exceed the timeout; once it does,
    [can_execute] answers true, closes the breaker and resets the count;
    and one [record_success] resets the count and closes the breaker. *)
Theorem circuit_breaker_lifecycle (threshold cooldown : Z) :
  (forall ts : list Z,
     let cb := CircuitBreaker.record_failures ts (CircuitBreaker.init threshold cooldown) in
     CircuitBreaker.failure_count cb = Z.of_nat (length ts) /\
     CircuitBreaker.last_failure_time cb = last ts /\
     (CircuitBreaker.is_open cb = true <->
      ts <> [] /\ threshold <= Z.of_nat (length ts))) /\
  (forall (cb : CircuitBreaker.t) (now : Z),
     CircuitBreaker.failure_count (CircuitBreaker.record_failure now cb) =
       CircuitBreaker.failure_count cb + 1 /\
     (CircuitBreaker.is_open cb = false ->
      (CircuitBreaker.is_open (CircuitBreaker.record_failure now cb) = true <->
       CircuitBreaker.failure_threshold cb <= CircuitBreaker.failure_count cb + 1))) /\
  (forall (cb : CircuitBreaker.t) (now tf : Z),
     CircuitBreaker.is_open cb = true ->
     CircuitBreaker.last_failure_time cb = Some tf ->
     (CircuitBreaker.total_seconds now tf <= inject_Z (CircuitBreaker.timeout cb))%Q ->
     CircuitBreaker.can_execute now cb = (false, cb)) /\
  (forall (cb : CircuitBreaker.t) (now tf : Z),
     CircuitBreaker.is_open cb = true ->
     CircuitBreaker.last_failure_time cb = Some tf ->
     (inject_Z (CircuitBreaker.timeout cb) < CircuitBreaker.total_seconds now tf)%Q ->
     CircuitBreaker.can_execute now cb =
       (true, CircuitBreaker.mk (CircuitBreaker.failure_threshold cb)
                (CircuitBreaker.timeout cb) 0 (Some tf) false)) /\
  (forall cb : CircuitBreaker.t,
     CircuitBreaker.failure_count (CircuitBreaker.record_success cb) = 0 /\
     CircuitBreaker.is_open (CircuitBreaker.record_success cb) = false).
Proof.
  split; [|split; [|split; [|split]]].
  - intros ts cb. subst cb. split; [|split].
    + rewrite record_failures_count. simpl. lia.
    + rewrite record_failures_last. simpl. destruct (last ts); reflexivity.
    + rewrite record_failures_open. simpl. split.
      * intros [Hc|Hc]; [discriminate|exact Hc].
      * intros Hc. right. exact Hc.
  - intros cb now. split; [simpl; lia|].
    intros Hclosed. rewrite record_failure_open. split.
    + intros [Hc|Hc]; [congruence|exact Hc].
    + intros Hc. right. exact Hc.
  - intros cb now tf Hopen Hlast Hle. unfold CircuitBreaker.can_execute.
    rewrite Hopen, Hlast. simpl.
    apply Qltb_false in Hle. rewrite Hle. reflexivity.
  - intros cb now tf Hopen Hlast Hlt. unfold CircuitBreaker.can_execute.
    rewrite Hopen, Hlast. simpl.
    apply Qltb_true in Hlt. rewrite Hlt. reflexivity.
  - intros cb. split; reflexivity.
Qed.

Lemma circuit_breaker_lifecycle_witness :
  let cb := CircuitBreaker.record_failures [0; 1000000; 2000000]
              (CircuitBreaker.init 3 300) in
  CircuitBreaker.failure_count cb = 3 /\
  CircuitBreaker.is_open cb = true /\
  CircuitBreaker.can_execute 100000000 cb = (false, cb) /\
  CircuitBreaker.can_execute 400000000 cb =
    (true, CircuitBreaker.mk 3 300 0 (Some 2000000) false).
Proof.
  destruct (circuit_breaker_lifecycle 3 300) as (Hrun & _ & Hwait & Hresume & _).
  destruct (Hrun [0; 1000000; 2000000]) as (Hcount & _ & Hopen).
  split; [exact Hcount|].
  split; [apply Hopen; split; [discriminate|simpl; lia]|].
  split.
  - apply (Hwait _ 100000000 2000000); [reflexivity|reflexivity|].
    unfold Qle. simpl. lia.
  - apply (Hresume (CircuitBreaker.record_failures [0; 1000000; 2000000]
                      (CircuitBreaker.init 3 300)) 400000000 2000000);
      [reflexivity|reflexivity|].
    unfold Qlt. simpl. lia.
Defined.

(** ** The retry executor *)

Section RetryFacts.
Import Retry.
Variable func : nat -> outcome.
Variable max_retries : Z.
Variable base_delay : Z.
Hypothesis base_delay_nonneg : 0 <= base_delay.

Lemma backoff_nonneg (attempt : nat) (s : state) :
  backoff max_retries base_delay attempt s =
  inr (if Z.of_nat attempt <? max_retries - 1
       then emit (Sleep (delay_of base_delay attempt)) s else s).
Proof.
  unfold backoff, time_sleep.
  destruct (Z.of_nat attempt <? max_retries - 1); [|reflexivity].
  assert (H : 0 <= delay_of base_delay attempt).
  { unfold delay_of. apply Z.mul_nonneg_nonneg; [exact base_delay_nonneg|].
    apply Z.pow_nonneg. lia. }
  destruct (Z.ltb_spec (delay_of base_delay attempt) 0); [lia|reflexivity].
Qed.

Lemma loop_retried_step (attempt : nat) (rest : list nat) (s : state) :
  retried (func attempt) = true ->
  loop func max_retries base_delay (attempt :: rest) s =
  loop func max_retries base_delay rest (after_retried func max_retries base_delay attempt s).
Proof.
  intros Hretried.
  assert (Hgo : forall r,
    (if Z.of_nat attempt <? max_retries - 1
     then emit (Sleep (delay_of base_delay attempt))
            (mkState r (trace s ++ [Call attempt]))
     else mkState r (trace s ++ [Call attempt])) =
    mkState r (trace s ++ Call attempt ::
                 if Z.of_nat attempt <? max_retries - 1
                 then [Sleep (delay_of base_delay attempt)] else [])).
  { intros r. destruct (Z.of_nat attempt <? max_retries - 1); [|reflexivity].
    unfold emit. simpl. rewrite <- app_assoc. reflexivity. }
  unfold after_retried. simpl loop. unfold try_body, bind_result.
  unfold emit at 1. simpl trace. simpl result.
  destruct (func attempt) as [|[d|v]] eqn:Hf; simpl in Hretried |- *.
  - rewrite backoff_nonneg, Hgo. reflexivity.
  - unfold terminal in Hretried.
    apply andb_true_iff in Hretried as [Hfail Hterm].
    rewrite Hfail in Hterm. simpl in Hterm.
    unfold failing in Hfail. apply negb_true_iff in Hfail. rewrite Hfail.
    destruct (invalid_key_error (dict_get_default d "error" (PStr ""))) as [x|[|]].
    + rewrite backoff_nonneg, Hgo. reflexivity.
    + discriminate.
    + rewrite backoff_nonneg, Hgo. reflexivity.
  - rewrite backoff_nonneg, Hgo. reflexivity.
Qed.

Lemma loop_retried_run (attempts rest : list nat) (s : state) :
  (forall j, In j attempts -> retried (func j) = true) ->
  loop func max_retries base_delay (attempts ++ rest) s =
  loop func max_retries base_delay rest
    (fold_left (fun acc j => after_retried func max_retries base_delay j acc) attempts s).
Proof.
  revert s. induction attempts as [|a attempts IH]; intros s Hall; [reflexivity|].
  simpl app. rewrite loop_retried_step by (apply Hall; left; reflexivity).
  rewrite IH by (intros j Hj; apply Hall; right; exact Hj).
  reflexivity.
Qed.

Lemma after_run_S (n : nat) :
  after_run func max_retries base_delay (S n) =
  after_retried func max_retries base_delay n (after_run func max_retries base_delay n).
Proof.
  unfold after_run. rewrite seq_S, fold_left_app. reflexivity.
Qed.

Lemma after_run_result (n : nat) :
  result (after_run func max_retries base_delay n) = last_observed func n.
Proof.
  induction n as [|n IH]; [reflexivity|].
  rewrite after_run_S. simpl. rewrite IH. reflexivity.
Qed.

Lemma retry_trace_S (n : nat) :
  retry_trace base_delay (S n) =
  retry_trace base_delay n ++ [Call n; Sleep (base_delay * 2 ^ Z.of_nat n)].
Proof.
  unfold retry_trace. rewrite seq_S, flat_map_app. simpl. reflexivity.
Qed.

Lemma after_run_trace (n : nat) :
  Z.of_nat n <= max_retries - 1 ->
  trace (after_run func max_retries base_delay n) = retry_trace base_delay n.
Proof.
  induction n as [|n IH]; intros Hn; [reflexivity|].
  rewrite after_run_S, retry_trace_S. simpl trace.
  rewrite IH by lia.
  destruct (Z.ltb_spec (Z.of_nat n) (max_retries - 1)); [reflexivity|lia].
Qed.

Lemma sleeps_app (tr1 tr2 : list event) : sleeps (tr1 ++ tr2) = sleeps tr1 ++ sleeps tr2.
Proof. unfold sleeps. apply flat_map_app. Qed.

Lemma calls_app (tr1 tr2 : list event) : calls (tr1 ++ tr2) = calls tr1 ++ calls tr2.
Proof. unfold calls. apply flat_map_app. Qed.

Lemma sleeps_retry_trace (n : nat) :
  sleeps (retry_trace base_delay n) =
  map (fun j => base_delay * 2 ^ Z.of_nat j) (seq 0 n).
Proof.
  induction n as [|n IH]; [reflexivity|].
  rewrite retry_trace_S, sleeps_app, IH, seq_S, map_app. reflexivity.
Qed.

Lemma calls_retry_trace (n : nat) : calls (retry_trace base_delay n) = seq 0 n.
Proof.
  induction n as [|n IH]; [reflexivity|].
  rewrite retry_trace_S, calls_app, IH, seq_S. reflexivity.
Qed.

(** An attempt whose result is returned at once: the trace ends with its
    call and nothing is slept or called afterwards. *)
Lemma loop_returns_at (i : nat) (d : gmap string pyval) (rest : list nat) :
  Z.of_nat i <= max_retries - 1 ->
  (forall j, (j < i)%nat -> retried (func j) = true) ->
  func i = Returns (ODict d) ->
  terminal d = true ->
  loop func max_retries base_delay (seq 0 i ++ i :: rest) (mkState None []) =
  (inr (ODict d), mkState (Some (ODict d)) (retry_trace base_delay i ++ [Call i])).
Proof.
  intros Hi Hbefore Hfi Hterm.
  rewrite loop_retried_run
    by (intros j Hj; apply in_seq in Hj; apply Hbefore; lia).
  fold (after_run func max_retries base_delay i). simpl loop. unfold try_body. rewrite Hfi.
  unfold terminal in Hterm. apply andb_true_iff in Hterm as [Hfail Hterm].
  unfold failing in Hfail. apply negb_true_iff in Hfail. rewrite Hfail.
  destruct (invalid_key_error (dict_get_default d "error" (PStr ""))) as [x|[|]];
    try discriminate.
  unfold bind_result, emit. simpl. rewrite after_run_trace by exact Hi.
  reflexivity.
Qed.

(** All attempts are retried: the loop runs to its end and [return result]
    hands back the last object that was bound, if there is one. *)
Lemma retry_exhausted :
  1 <= max_retries ->
  (forall j, Z.of_nat j < max_retries -> retried (func j) = true) ->
  retry_with_backoff func max_retries base_delay =
  (match last_observed func (Z.to_nat max_retries) with
   | Some r => inr r
   | None => inl UnboundLocalError
   end,
   mkState (last_observed func (Z.to_nat max_retries))
           (retry_trace base_delay (Z.to_nat max_retries - 1) ++
            [Call (Z.to_nat max_retries - 1)])).
Proof.
  intros Hmax Hall. unfold retry_with_backoff.
  rewrite <- (app_nil_r (seq 0 (Z.to_nat max_retries))).
  rewrite loop_retried_run
    by (intros j Hj; apply in_seq in Hj; apply Hall; lia).
  fold (after_run func max_retries base_delay (Z.to_nat max_retries)).
  assert (Htrace : trace (after_run func max_retries base_delay (Z.to_nat max_retries)) =
                   retry_trace base_delay (Z.to_nat max_retries - 1) ++
                   [Call (Z.to_nat max_retries - 1)]).
  { destruct (Z.to_nat max_retries) as [|n] eqn:En; [lia|].
    rewrite after_run_S. simpl trace.
    rewrite after_run_trace by lia.
    replace (S n - 1)%nat with n by lia.
    destruct (Z.ltb_spec (Z.of_nat n) (max_retries - 1)); [lia|reflexivity]. }
  pose proof (after_run_result (Z.to_nat max_retries)) as Hres.
  destruct (after_run func max_retries base_delay (Z.to_nat max_retries)) as [res tr].
  simpl in Htrace, Hres. subst res tr. simpl.
  destruct (last_observed func (Z.to_nat max_retries)); reflexivity.
Qed.

End RetryFacts.

Lemma seq_last (n : nat) : (1 <= n)%nat -> seq 0 n = seq 0 (n - 1) ++ [(n - 1)%nat].
Proof.
  intros Hn. destruct n as [|n]; [lia|].
  replace (S n - 1)%nat with n by lia. apply seq_S.
Qed.

Lemma last_observed_raises (func : nat -> Retry.outcome) (n : nat) :
  (forall j, func j = Retry.Raises) -> Retry.last_observed func n = None.
Proof.
  intros Hall. induction n as [|n IH]; [reflexivity|].
  simpl. rewrite Hall. exact IH.
Qed.

(** C2.  The executor does raise: when every attempt raises, no object is
    ever bound to [result] and the final [return result] fails with
    [UnboundLocalError], after all attempts and all back-off sleeps. *)
Theorem retry_unbound_result (func : nat -> Retry.outcome) (max_retries base_delay : Z) :
  0 <= base_delay ->
  1 <= max_retries ->
  (forall j, func j = Retry.Raises) ->
  fst (Retry.retry_with_backoff func max_retries base_delay) = inl Retry.UnboundLocalError /\
  Retry.calls (Retry.trace (snd (Retry.retry_with_backoff func max_retries base_delay))) =
    seq 0 (Z.to_nat max_retries).
Proof.
  intros Hbase Hmax Hall.
  rewrite retry_exhausted; [|exact Hbase|exact Hmax|].
  - rewrite last_observed_raises by exact Hall. simpl. split; [reflexivity|].
    rewrite calls_app, calls_retry_trace. simpl.
    symmetry. apply seq_last. lia.
  - intros j _. rewrite Hall. reflexivity.
Qed.

Lemma retry_unbound_result_witness :
  fst (Retry.retry_with_backoff (fun _ => Retry.Raises) 3 1) = inl Retry.UnboundLocalError /\
  Retry.calls (Retry.trace (snd (Retry.retry_with_backoff (fun _ => Retry.Raises) 3 1))) =
    [0; 1; 2]%nat.
Proof.
  apply (retry_unbound_result (fun _ => Retry.Raises) 3 1); [lia|lia|reflexivity].
Defined.

(** C3.  A failing result whose error text contains [Invalid] or
    [API key] is returned at once: no sleep follows it and the attempt
    function is not called again, whatever [max_retries] is.  When every
    attempt fails otherwise, all [max_retries] attempts are made and the
    executor sleeps exactly [max_retries - 1] times, for
    [base_delay * 2^i] seconds after attempt [i]. *)
Theorem retry_terminal_and_backoff (func : nat -> Retry.outcome)
    (max_retries base_delay : Z) :
  0 <= base_delay ->
  (forall (i : nat) (d : gmap string pyval),
     Z.of_nat i < max_retries ->
     (forall j, (j < i)%nat -> Retry.retried (func j) = true) ->
     func i = Retry.Returns (Retry.ODict d) ->
     Retry.terminal d = true ->
     Retry.retry_with_backoff func max_retries base_delay =
       (inr (Retry.ODict d),
        Retry.mkState (Some (Retry.ODict d))
          (Retry.retry_trace base_delay i ++ [Retry.Call i]))) /\
  (1 <= max_retries ->
   (forall j, Z.of_nat j < max_retries -> Retry.retried (func j) = true) ->
   let tr := Retry.trace (snd (Retry.retry_with_backoff func max_retries base_delay)) in
   Retry.calls tr = seq 0 (Z.to_nat max_retries) /\
   Retry.sleeps tr =
     map (fun i => base_delay * 2 ^ Z.of_nat i) (seq 0 (Z.to_nat max_retries - 1)) /\
   length (Retry.sleeps tr) = (Z.to_nat max_retries - 1)%nat).
Proof.
  intros Hbase. split.
  - intros i d Hi Hbefore Hfi Hterm. unfold Retry.retry_with_backoff.
    replace (Z.to_nat max_retries) with (i + S (Z.to_nat max_retries - S i))%nat by lia.
    rewrite seq_app. simpl seq at 2.
    apply loop_returns_at; [exact Hbase|lia|exact Hbefore|exact Hfi|exact Hterm].
  - intros Hmax Hall tr. subst tr.
    rewrite retry_exhausted; [|exact Hbase|exact Hmax|exact Hall].
    simpl snd. simpl Retry.trace.
    rewrite calls_app, sleeps_app, calls_retry_trace, sleeps_retry_trace.
    simpl. rewrite app_nil_r. split; [|split].
    + symmetry. apply seq_last. lia.
    + reflexivity.
    + rewrite length_map, length_seq. reflexivity.
Qed.

Lemma retry_terminal_and_backoff_witness :
  Retry.retry_with_backoff Retry.fails_then_invalid 3 1 =
    (inr (Retry.ODict Retry.invalid_api_key),
     Retry.mkState (Some (Retry.ODict Retry.invalid_api_key))
       [Retry.Call 0; Retry.Sleep 1; Retry.Call 1]) /\
  Retry.sleeps (Retry.trace (snd (Retry.retry_with_backoff Retry.always_fails 3 1))) = [1; 2].
Proof.
  split.
  - destruct (retry_terminal_and_backoff Retry.fails_then_invalid 3 1) as [Hterm _]; [lia|].
    apply (Hterm 1%nat Retry.invalid_api_key); [lia| |reflexivity|vm_compute; reflexivity].
    intros j Hj. assert (j = 0%nat) by lia. subst j. vm_compute. reflexivity.
  - destruct (retry_terminal_and_backoff Retry.always_fails 3 1) as [_ Hall]; [lia|].
    apply Hall; [lia|]. intros j _. vm_compute. reflexivity.
Defined.

(** ** The key rotation manager *)

Section RoundRobinFacts.
Import KeyRotation.

Lemma get_next_key_round_robin (now : Z) (pick : nat) (m : t) :
  strategy m = "round_robin"%string ->
  keys m <> [] ->
  get_next_key now pick m = inr (_get_round_robin_key m).
Proof.
  intros Hs Hk. unfold get_next_key. rewrite Hs. simpl.
  destruct (keys m); [congruence|reflexivity].
Qed.

Lemma selections_round_robin (envs : list (Z * nat)) (m : t) :
  strategy m = "round_robin"%string ->
  keys m <> [] ->
  selections envs m =
  map (fun j => inr (index_mod (keys m) (current_index m + Z.of_nat j)))
      (seq 0 (length envs)).
Proof.
  revert m. induction envs as [|[now pick] envs IH]; intros m Hs Hk; [reflexivity|].
  simpl selections. rewrite get_next_key_round_robin by assumption.
  simpl. rewrite IH by assumption. simpl.
  rewrite Z.add_0_r. f_equal.
  rewrite <- seq_shift, map_map.
  apply map_ext. intros j. do 2 f_equal. lia.
Qed.

Lemma index_mod_some (lst : list string) (i : Z) :
  lst <> [] -> exists k, index_mod lst i = Some k /\ k ∈ lst.
Proof.
  intros Hne. unfold index_mod.
  assert (Hlen : 0 < Z.of_nat (length lst)).
  { destruct lst; [congruence|simpl; lia]. }
  pose proof (Z.mod_pos_bound i _ Hlen) as Hb.
  destruct (lookup_lt_is_Some_2 lst (Z.to_nat (i mod Z.of_nat (length lst))))
    as [k Hk]; [lia|].
  exists k. split; [exact Hk|]. apply list_elem_of_lookup. eauto.
Qed.

Lemma index_mod_period (lst : list string) (i : Z) :
  index_mod lst (i + Z.of_nat (length lst)) = index_mod lst i.
Proof.
  unfold index_mod.
  destruct lst as [|k lst]; [reflexivity|].
  replace (i + Z.of_nat (length (k :: lst)))
    with (i + 1 * Z.of_nat (length (k :: lst))) by lia.
  rewrite Z_mod_plus_full. reflexivity.
Qed.

End RoundRobinFacts.

(** C8.  Under round-robin over a non-empty list of N keys, with nothing
    but [get_next_key] called, the i-th and the (i+N)-th selection return
    the same key: the one at position [(current_index + i) mod N]. *)
Theorem round_robin_cyclic (m : KeyRotation.t) (envs : list (Z * nat)) (i : nat) :
  KeyRotation.strategy m = "round_robin"%string ->
  KeyRotation.keys m <> [] ->
  (i + length (KeyRotation.keys m) < length envs)%nat ->
  exists k : string,
    k ∈ KeyRotation.keys m /\
    KeyRotation.index_mod (KeyRotation.keys m)
      (KeyRotation.current_index m + Z.of_nat i) = Some k /\
    KeyRotation.selections envs m !! i = Some (inr (Some k)) /\
    KeyRotation.selections envs m !! (i + length (KeyRotation.keys m))%nat =
      Some (inr (Some k)).
Proof.
  intros Hs Hk Hi.
  destruct (index_mod_some (KeyRotation.keys m)
              (KeyRotation.current_index m + Z.of_nat i) Hk) as (k & Hsel & Hin).
  exists k. split; [exact Hin|]. split; [exact Hsel|].
  rewrite selections_round_robin by assumption.
  rewrite !list_lookup_fmap, !lookup_seq_lt by lia. simpl.
  rewrite Nat2Z.inj_add, Z.add_assoc, index_mod_period, Hsel.
  split; reflexivity.
Qed.

Lemma round_robin_cyclic_witness :
  let m := KeyRotation.init "round_robin" ["AIzaA"; "AIzaB"; "AIzaC"]%string 95 in
  let envs := repeat (0, 0%nat) 7 in
  KeyRotation.selections envs m !! 1%nat = Some (inr (Some "AIzaB"%string)) /\
  KeyRotation.selections envs m !! 4%nat = Some (inr (Some "AIzaB"%string)).
Proof.
  intros m envs.
  destruct (round_robin_cyclic m envs 1) as (k & _ & Hk & H1 & H4);
    [reflexivity|discriminate|simpl; lia|].
  vm_compute in Hk. injection Hk as <-.
  split; [exact H1|exact H4].
Defined.

Section SkipFacts.
Import KeyRotation.

Lemma error_rate_defined (st : KeyStats) :
  requests st <> 0 ->
  error_rate st = inr (inject_Z (errors st) / inject_Z (requests st) * 100)%Q.
Proof.
  intros Hr. unfold error_rate, truediv.
  destruct (Z.eqb_spec (requests st) 0); [contradiction|reflexivity].
Qed.

(** The percentage compared on integers. *)
Lemma rate_le_iff (e r c : Z) :
  0 < r ->
  (inject_Z c <= inject_Z e / inject_Z r * 100)%Q <-> c * r <= 100 * e.
Proof.
  intros Hr. destruct r as [|p|p]; try lia.
  unfold Qle, Qdiv, Qmult, Qinv, inject_Z. simpl.
  rewrite Pos.mul_1_r. rewrite !Z.mul_1_r. lia.
Qed.

Lemma rate_ge_iff (e r c : Z) :
  0 < r ->
  (inject_Z e / inject_Z r * 100 <= inject_Z c)%Q <-> 100 * e <= c * r.
Proof.
  intros Hr. destruct r as [|p|p]; try lia.
  unfold Qle, Qdiv, Qmult, Qinv, inject_Z. simpl.
  rewrite Pos.mul_1_r. rewrite !Z.mul_1_r. lia.
Qed.

Lemma should_skip_key_total (m : t) (key : string) :
  exists b : bool, should_skip_key m key = inr b.
Proof.
  unfold should_skip_key. destruct (key_stats m !! key) as [st|]; [|eauto].
  destruct (Z.eqb_spec (requests st) 0) as [Hr|Hr]; [eauto|].
  rewrite error_rate_defined by exact Hr. eauto.
Qed.

End SkipFacts.



Section StatsFacts.
Import KeyRotation.

Lemma init_stats_lookup (ks : list string) (acc : gmap string KeyStats) (key : string) :
  fold_left (fun s k => <[k := fresh_stats]> s) ks acc !! key =
  if decide (key ∈ ks) then Some fresh_stats else acc !! key.
Proof.
  revert acc. induction ks as [|k ks IH]; intros acc.
  - simpl. destruct (decide (key ∈ [])) as [H|H]; [|reflexivity].
    apply elem_of_nil in H. contradiction.
  - simpl. rewrite IH.
    destruct (decide (key ∈ ks)) as [Hin|Hnin].
    + rewrite decide_True by (right; exact Hin). reflexivity.
    + destruct (decide (key = k)) as [->|Hne].
      * rewrite decide_True by left. apply lookup_insert_eq.
      * rewrite decide_False.
        -- apply lookup_insert_ne. congruence.
        -- intros H. apply elem_of_cons in H as [H|H]; contradiction.
Qed.

Lemma init_ok (strategy : string) (ks : list string) (threshold : Z) :
  stats_ok (init strategy ks threshold).
Proof.
  split; simpl; unfold init_stats.
  - intros key st. rewrite init_stats_lookup.
    destruct (decide (key ∈ ks)); [|rewrite lookup_empty; discriminate].
    intros [= <-]. simpl. lia.
  - intros key. rewrite init_stats_lookup.
    destruct (decide (key ∈ ks)) as [H|H].
    + split; [eauto|intros _; exact H].
    + rewrite lookup_empty. split; [contradiction|].
      intros [x Hx]. discriminate.
Qed.

Lemma record_request_keys (now : Z) (key : string) (success : bool)
    (error_type : option string) (m : t) :
  keys (record_request now key success error_type m) = keys m.
Proof.
  unfold record_request. destruct (key_stats m !! key); reflexivity.
Qed.

Lemma record_request_ok (now : Z) (key : string) (success : bool)
    (error_type : option string) (m : t) :
  stats_ok m -> stats_ok (record_request now key success error_type m).
Proof.
  intros [Hbound Hdom]. unfold record_request.
  destruct (key_stats m !! key) as [st|] eqn:Hst; [|split; assumption].
  pose proof (Hbound key st Hst) as Hb.
  split; simpl.
  - intros key' st'. destruct (decide (key = key')) as [<-|Hne].
    + rewrite lookup_insert_eq. intros [= <-].
      destruct success; simpl; lia.
    + rewrite lookup_insert_ne by exact Hne. apply Hbound.
  - intros key'. rewrite Hdom. destruct (decide (key = key')) as [<-|Hne].
    + rewrite lookup_insert_eq, Hst. split; eauto.
    + rewrite lookup_insert_ne by exact Hne. reflexivity.
Qed.

Lemma record_requests_ok (rs : list request) (m : t) :
  stats_ok m -> stats_ok (record_requests rs m).
Proof.
  revert m. induction rs as [|r rs IH]; intros m Hok; [exact Hok|].
  simpl. apply IH. apply record_request_ok. exact Hok.
Qed.

Lemma record_requests_keys (rs : list request) (m : t) :
  keys (record_requests rs m) = keys m.
Proof.
  revert m. induction rs as [|r rs IH]; intros m; [reflexivity|].
  simpl. unfold record_requests in IH. rewrite IH. apply record_request_keys.
Qed.

Lemma error_rate_bounds (st : KeyStats) (rate : Q) :
  0 <= errors st <= requests st ->
  error_rate st = inr rate ->
  (0 <= rate <= 100)%Q.
Proof.
  intros Hb Hrate. unfold error_rate, truediv in Hrate.
  destruct (Z.eqb_spec (requests st) 0) as [|Hr]; [discriminate|].
  injection Hrate as <-.
  assert (Hpos : 0 < requests st) by lia.
  split.
  - apply (rate_le_iff (errors st) (requests st) 0 Hpos). lia.
  - apply (rate_ge_iff (errors st) (requests st) 100 Hpos). lia.
Qed.

Lemma stat_row_defined (st : KeyStats) : exists row, stat_row st = inr row.
Proof.
  unfold stat_row. destruct (Z.ltb_spec 0 (requests st)) as [Hr|Hr].
  - rewrite error_rate_defined by lia. eauto.
  - eauto.
Qed.

Lemma statistics_of_defined (stats : gmap string KeyStats) (ks : list string)
    (acc : gmap string StatRow) :
  (forall k, k ∈ ks -> is_Some (stats !! k)) ->
  exists rows, statistics_of stats ks acc = inr rows.
Proof.
  revert acc. induction ks as [|k ks IH]; intros acc Hall; [simpl; eauto|].
  simpl. destruct (Hall k) as [st Hst]; [left|]. rewrite Hst.
  destruct (stat_row_defined st) as [row Hrow]. rewrite Hrow.
  apply IH. intros k' Hk'. apply Hall. right. exact Hk'.
Qed.

End StatsFacts.

(** C10.  After any sequence of [record_request] calls every tracked key
    has [0 <= errors <= requests]; the error rate is computed only behind
    the test on [requests], so [should_skip_key] and [get_statistics] never
    divide by zero, and it lies between 0 and 100; a key the manager does
    not hold leaves the statistics as they are and is never skipped. *)
Theorem key_stats_invariant (strategy : string) (ks : list string) (threshold : Z)
    (rs : list KeyRotation.request) :
  let m := KeyRotation.record_requests rs (KeyRotation.init strategy ks threshold) in
  (forall key st, KeyRotation.key_stats m !! key = Some st ->
     0 <= KeyRotation.errors st <= KeyRotation.requests st) /\
  (forall key st rate, KeyRotation.key_stats m !! key = Some st ->
     KeyRotation.error_rate st = inr rate -> (0 <= rate <= 100)%Q) /\
  (forall key, exists b, KeyRotation.should_skip_key m key = inr b) /\
  (exists rows, KeyRotation.get_statistics m = inr rows) /\
  (forall key, key ∉ ks ->
     KeyRotation.should_skip_key m key = inr false /\
     forall now success error_type,
       KeyRotation.record_request now key success error_type m = m).
Proof.
  intros m.
  assert (Hok : KeyRotation.stats_ok m).
  { apply record_requests_ok, init_ok. }
  assert (Hkeys : KeyRotation.keys m = ks).
  { unfold m. rewrite record_requests_keys. reflexivity. }
  destruct Hok as [Hbound Hdom].
  split; [exact Hbound|]. split; [|split; [|split]].
  - intros key st rate Hst. apply error_rate_bounds. exact (Hbound key st Hst).
  - intros key. apply (should_skip_key_total m key).
  - unfold KeyRotation.get_statistics. apply statistics_of_defined.
    intros k Hk. apply Hdom. exact Hk.
  - intros key Hkey.
    assert (Hnone : KeyRotation.key_stats m !! key = None).
    { destruct (KeyRotation.key_stats m !! key) as [st|] eqn:Hst; [|reflexivity].
      exfalso. apply Hkey. rewrite <- Hkeys. apply Hdom. eauto. }
    split.
    + unfold KeyRotation.should_skip_key. rewrite Hnone. reflexivity.
    + intros now success error_type. unfold KeyRotation.record_request.
      rewrite Hnone. reflexivity.
Qed.

Lemma key_stats_invariant_witness :
  0 <= 19 <= 20 /\
  KeyRotation.should_skip_key KeyRotation.example_manager "unmanaged" = inr false /\
  KeyRotation.record_request 5 "unmanaged" false (Some "TIMEOUT"%string)
    KeyRotation.example_manager = KeyRotation.example_manager.
Proof.
  pose proof (key_stats_invariant "round_robin" ["AIzaA"; "AIzaB"]%string 95
                (repeat (KeyRotation.mkRequest 0 "AIzaA" false (Some "TIMEOUT"%string)) 19 ++
                 [KeyRotation.mkRequest 0 "AIzaA" true None]))
    as (Hbound & _ & _ & _ & Hother).
  split.
  - apply (Hbound "AIzaA"%string
             (KeyRotation.mkStats 20 19 (Some "TIMEOUT"%string) (Some 0))).
    vm_compute. reflexivity.
  - assert (Hout : "unmanaged"%string ∉ ["AIzaA"; "AIzaB"]%string).
    { intros H. apply elem_of_cons in H as [H|H]; [discriminate|].
      apply elem_of_cons in H as [H|H]; [discriminate|].
      apply elem_of_nil in H. exact H. }
    destruct (Hother "unmanaged"%string Hout) as [Hskip Hrec].
    split; [exact Hskip|]. apply Hrec.
Defined.

(** ** The post-processor: weights *)

Section WeightFacts.
Import PostProcessor.












End WeightFacts.




(** ** The post-processor: stream records *)

Section ProcessorFacts.
Import PostProcessor.
Variable json_loads : string -> option json.
Variable textblob : option (string -> option Q).
Variable detect_sentiment : string -> option (option string).
Variable USE_AWS_COMPREHEND : bool.

Local Abbreviation process :=
  (process_stream_record json_loads textblob detect_sentiment USE_AWS_COMPREHEND).
Local Abbreviation weight_of := (calculate_weight json_loads).
Local Abbreviation sentiment_of :=
  (calculate_sentiment json_loads textblob detect_sentiment USE_AWS_COMPREHEND).

(** A record is either answered without touching the table, or it leads
    to one [update_item] whose key, weight and sentiment depend on the
    record alone. *)
Lemma process_stream_record_cases (record : StreamRecord) :
  (exists b, forall utcnow fault tbl, process utcnow fault record tbl = (inr b, tbl)) \/
  (exists image cid stt raw src,
     dynamodb record = Some (mkStreamData (Some image)) /\
     get_S image "celebrity_id" = Some cid /\
     get_S image "source_type#timestamp" = Some stt /\
     get_S image "raw_text" = Some raw /\
     get_S image "source" = Some src /\
     present (Some cid) && present (Some stt) && present (Some raw)
       && present (Some src) = true /\
     forall utcnow fault tbl,
       process utcnow fault record tbl =
       (inr (negb fault),
        snd (update_item fault
               (build_update utcnow cid stt (weight_of raw src) (sentiment_of raw)) tbl))).
Proof.
  unfold process_stream_record, process_body.
  destruct record as [[event_name|] data]; simpl;
    [|left; exists false; intros; reflexivity].
  destruct (negb (String.eqb event_name "INSERT" || String.eqb event_name "MODIFY"));
    [left; exists true; intros; reflexivity|].
  destruct data as [[[image|]]|]; simpl;
    [|left; exists true; intros; reflexivity|left; exists false; intros; reflexivity].
  destruct (get_S image "celebrity_id") as [cid|] eqn:Hcid;
    [|left; exists true; intros; reflexivity].
  destruct (get_S image "source_type#timestamp") as [stt|] eqn:Hstt;
    [|left; exists true; intros; reflexivity].
  destruct (get_S image "raw_text") as [raw|] eqn:Hraw;
    [|left; exists true; intros; reflexivity].
  destruct (get_S image "source") as [src|] eqn:Hsrc;
    [|left; exists true; intros; reflexivity].
  destruct (present (Some cid) && present (Some stt) && present (Some raw)
            && present (Some src)) eqn:Hall;
    [|left; exists true; intros; reflexivity].
  right. exists image, cid, stt, raw, src.
  do 6 (split; [first [reflexivity | assumption]|]).
  intros utcnow fault tbl. unfold update_item. destruct fault; reflexivity.
Qed.




End ProcessorFacts.

Section StoreFacts.
Import PostProcessor.

Lemma update_item_calls (fault : bool) (req : UpdateItem) (tbl : Table) :
  calls (snd (update_item fault req tbl)) = calls tbl ++ [req].
Proof. unfold update_item. destruct fault; reflexivity. Qed.

Lemma update_item_other (fault : bool) (req : UpdateItem) (tbl : Table)
    (key : string * string) :
  key <> Key req ->
  items (snd (update_item fault req tbl)) !! key = items tbl !! key.
Proof.
  intros Hne. unfold update_item. destruct fault; [reflexivity|].
  simpl. apply lookup_insert_ne. congruence.
Qed.

Lemma apply_set_other (sets : list (string * Value)) (item : gmap string Value)
    (name : string) :
  name ∉ map fst sets -> apply_set sets item !! name = item !! name.
Proof.
  unfold apply_set. revert item.
  induction sets as [|[k v] sets IH]; intros item Hname; [reflexivity|].
  simpl. rewrite IH.
  - apply lookup_insert_ne. intros ->. apply Hname. simpl. left.
  - intros H. apply Hname. simpl. right. exact H.
Qed.

(** An existing item keeps every attribute the request does not name. *)
Lemma update_item_frame (fault : bool) (req : UpdateItem) (tbl : Table)
    (key : string * string) (item : gmap string Value) (name : string) :
  items tbl !! key = Some item ->
  name ∉ map fst (SetAttributes req) ->
  stored (snd (update_item fault req tbl)) key name = item !! name.
Proof.
  intros Hitem Hname. unfold stored.
  destruct (decide (key = Key req)) as [->|Hne].
  - unfold update_item. destruct fault; simpl.
    + rewrite Hitem. reflexivity.
    + rewrite lookup_insert_eq, Hitem. simpl. apply apply_set_other. exact Hname.
  - rewrite update_item_other by exact Hne. rewrite Hitem. reflexivity.
Qed.

End StoreFacts.

Section EnrichmentFacts.
Import PostProcessor.

(** The three assignments of the request, applied to an item. *)
Lemma apply_build_update (utcnow cid stt : string) (w : Q) (s : string)
    (item : gmap string Value) :
  apply_set (SetAttributes (build_update utcnow cid stt w s)) item =
  <["updated_at"%string := VStr (utcnow ++ "Z")]>
    (<["sentiment"%string := VStr s]> (<["weight"%string := VNum w]> item)).
Proof. reflexivity. Qed.


End EnrichmentFacts.






(** C7.  Whatever the outcome of processing a notification, an item of
    the table keeps every attribute other than [weight], [sentiment] and
    [updated_at], its [raw_text] among them; and when an update is issued
    it is a single call that carries the key of the notification and
    leaves the items at all other keys as they are. *)
Theorem enrichment_update_frame (json_loads : string -> option PostProcessor.json)
    (textblob : option (string -> option Q))
    (detect_sentiment : string -> option (option string))
    (USE_AWS_COMPREHEND : bool)
    (utcnow : string) (fault : bool) (record : PostProcessor.StreamRecord)
    (tbl : PostProcessor.Table)
    (key : string * string) (item : gmap string PostProcessor.Value) (name : string) :
  PostProcessor.items tbl !! key = Some item ->
  name <> "weight"%string ->
  name <> "sentiment"%string ->
  name <> "updated_at"%string ->
  let tbl' := snd (PostProcessor.process_stream_record json_loads textblob
                     detect_sentiment USE_AWS_COMPREHEND utcnow fault record tbl) in
  PostProcessor.stored tbl' key name = item !! name /\
  (tbl' = tbl \/
   exists image cid stt w s,
     PostProcessor.dynamodb record = Some (PostProcessor.mkStreamData (Some image)) /\
     PostProcessor.get_S image "celebrity_id" = Some cid /\
     PostProcessor.get_S image "source_type#timestamp" = Some stt /\
     PostProcessor.calls tbl' =
       PostProcessor.calls tbl ++ [PostProcessor.build_update utcnow cid stt w s] /\
     forall key', key' <> (cid, stt) ->
       PostProcessor.items tbl' !! key' = PostProcessor.items tbl !! key').
Proof.
  intros Hitem Hw Hs Hu tbl'. unfold tbl'.
  destruct (process_stream_record_cases json_loads textblob detect_sentiment
              USE_AWS_COMPREHEND record)
    as [[b Hskip]|(image & cid & stt & raw & src & Hrec & Hcid & Hstt & _ & _ & _ & Hupd)].
  - rewrite Hskip. cbn [snd]. split; [|left; reflexivity].
    unfold PostProcessor.stored. rewrite Hitem. reflexivity.
  - rewrite Hupd. cbn [snd]. split.
    + apply update_item_frame; [exact Hitem|].
      cbn [PostProcessor.build_update PostProcessor.SetAttributes map fst].
      rewrite !elem_of_cons, elem_of_nil. tauto.
    + right. exists image, cid, stt. eexists _, _.
      split; [exact Hrec|]. split; [exact Hcid|]. split; [exact Hstt|].
      split; [apply update_item_calls|].
      intros key' Hne. apply update_item_other. exact Hne.
Qed.

Lemma enrichment_update_frame_witness :
  PostProcessor.stored
    (snd (PostProcessor.process_stream_record PostProcessor.loads_examples
            PostProcessor.flat_polarity PostProcessor.no_comprehend false
            "2025-11-08T09:00:00" false PostProcessor.malformed_record
            PostProcessor.scraped_table))
    ("celeb_001", "youtube#2025-11-07T17:20:00Z")%string "raw_text" =
  Some (PostProcessor.VStr "not json").
Proof.
  destruct (enrichment_update_frame PostProcessor.loads_examples
              PostProcessor.flat_polarity PostProcessor.no_comprehend false
              "2025-11-08T09:00:00" false PostProcessor.malformed_record
              PostProcessor.scraped_table
              ("celeb_001", "youtube#2025-11-07T17:20:00Z")%string
              PostProcessor.scraped_item "raw_text")
    as [Hkeep _]; [vm_compute; reflexivity|discriminate|discriminate|discriminate|].
  rewrite Hkeep. vm_compute. reflexivity.
Defined.

(** ** Further checks on concrete inputs *)

(** The tests of the scrapers: a failure followed by a success sleeps once
    and returns the success. *)
Example retry_succeeds_on_second_attempt :
  Retry.retry_with_backoff
    (fun attempt =>
       match attempt with
       | O => Retry.Returns (Retry.ODict Retry.persistent_error)
       | _ => Retry.Returns (Retry.ODict (<["success"%string := PBool true]> ∅))
       end) 3 1 =
  (inr (Retry.ODict (<["success"%string := PBool true]> ∅)),
   Retry.mkState (Some (Retry.ODict (<["success"%string := PBool true]> ∅)))
     [Retry.Call 0; Retry.Sleep 1; Retry.Call 1]).
Proof. vm_compute. reflexivity. Qed.

(** A negative [base_delay] makes [time.sleep] raise inside the handler,
    and that exception leaves the executor. *)
Example retry_negative_delay_raises :
  fst (Retry.retry_with_backoff Retry.always_fails 3 (-1)) = inl Retry.ValueError.
Proof. vm_compute. reflexivity. Qed.

(** The scenario of the specification: two non-empty fields from a source
    of reliability 0.9 weigh 0.55. *)
Example weight_of_profile :
  PostProcessor.field_count
    [("title"%string, PostProcessor.JStr "X");
     ("bio"%string, PostProcessor.JStr "great performance, amazing")] = 2 /\
  PostProcessor.reliability_score "https://en.wikipedia.org/wiki/X" = 90 # 100 /\
  PostProcessor.calculate_weight PostProcessor.loads_examples PostProcessor.doc_profile
    "https://en.wikipedia.org/wiki/X" = 55 # 100.
Proof. repeat split; vm_compute; reflexivity. Qed.

(** Five failures with a threshold of five open the breaker. *)
Example breaker_opens_at_five :
  CircuitBreaker.is_open
    (CircuitBreaker.record_failures [1; 2; 3; 4]%Z (CircuitBreaker.init 5 300)) = false /\
  fst (CircuitBreaker.can_execute 6
         (CircuitBreaker.record_failures [1; 2; 3; 4; 5]%Z (CircuitBreaker.init 5 300))) = false.
Proof. split; vm_compute; reflexivity. Qed.

(** * Further properties of the code *)

(** ** The circuit breaker over arbitrary runs *)

Section BreakerRunFacts.
Import CircuitBreaker BreakerRuns.

Lemma can_execute_fields (now : Z) (cb : t) :
  failure_threshold (snd (can_execute now cb)) = failure_threshold cb /\
  timeout (snd (can_execute now cb)) = timeout cb.
Proof.
  unfold can_execute. destruct (is_open cb); simpl; [|auto].
  destruct (last_failure_time cb) as [tf|]; simpl; [|auto].
  destruct (Qltb _ _); simpl; auto.
Qed.

Lemma step_fields (o : op) (cb : t) :
  failure_threshold (step o cb) = failure_threshold cb /\
  timeout (step o cb) = timeout cb.
Proof.
  destruct o as [now| |now]; simpl; auto. apply can_execute_fields.
Qed.

Lemma run_fields (ops : list op) (cb : t) :
  failure_threshold (run ops cb) = failure_threshold cb /\
  timeout (run ops cb) = timeout cb.
Proof.
  revert cb. induction ops as [|o ops IH]; intros cb; [auto|].
  change (run (o :: ops) cb) with (run ops (step o cb)).
  destruct (IH (step o cb)) as [H1 H2], (step_fields o cb) as [H3 H4].
  split; congruence.
Qed.

Lemma step_consistent (o : op) (cb : t) : consistent cb -> consistent (step o cb).
Proof.
  intros (Hc & Hopen & Hlast). destruct o as [now| |now]; simpl.
  - unfold consistent. simpl. split; [lia|]. split.
    + destruct (Z.leb_spec (failure_threshold cb) (failure_count cb + 1)) as [Hle|Hgt].
      * split; [intros _; lia|reflexivity].
      * rewrite Hopen. split; [lia|lia].
    + intros _. eauto.
  - unfold consistent. simpl. split; [lia|]. split; [|discriminate].
    split; [discriminate|lia].
  - unfold can_execute.
    destruct (is_open cb) eqn:Ho; simpl;
      [|unfold consistent; rewrite Ho; auto].
    destruct (last_failure_time cb) as [tf|] eqn:Hl; simpl;
      [|unfold consistent; rewrite Ho, Hl; auto].
    destruct (Qltb _ _); simpl; [|unfold consistent; rewrite Ho, Hl; auto].
    unfold consistent. simpl. split; [lia|]. split; [|discriminate].
    split; [discriminate|lia].
Qed.

Lemma run_consistent (ops : list op) (cb : t) : consistent cb -> consistent (run ops cb).
Proof.
  revert cb. induction ops as [|o ops IH]; intros cb Hc; [exact Hc|].
  change (run (o :: ops) cb) with (run ops (step o cb)).
  apply IH, step_consistent, Hc.
Qed.

Lemma init_consistent (threshold cooldown : Z) : consistent (init threshold cooldown).
Proof.
  unfold consistent. simpl. split; [lia|]. split; [|discriminate].
  split; [discriminate|lia].
Qed.

Lemma run_app (ops1 ops2 : list op) (cb : t) :
  run (ops1 ++ ops2) cb = run ops2 (run ops1 cb).
Proof. unfold run. apply fold_left_app. Qed.

Lemma run_failures (ts : list Z) (cb : t) :
  run (map Failure ts) cb = record_failures ts cb.
Proof.
  revert cb. induction ts as [|now ts IH]; intros cb; [reflexivity|].
  change (run (map Failure (now :: ts)) cb)
    with (run (map Failure ts) (record_failure now cb)).
  rewrite IH. reflexivity.
Qed.

End BreakerRunFacts.

(** X1.  Whatever failures, successes and checks a breaker has seen since
    it was built, it is open exactly when its failure count is positive
    and has reached the threshold, and an open breaker closes again: every
    check later than the timeout after its last failure answers true. *)
Theorem breaker_open_iff_count (threshold cooldown : Z) (ops : list BreakerRuns.op) :
  let cb := BreakerRuns.run ops (CircuitBreaker.init threshold cooldown) in
  0 <= CircuitBreaker.failure_count cb /\
  (CircuitBreaker.is_open cb = true <->
   0 < CircuitBreaker.failure_count cb /\ threshold <= CircuitBreaker.failure_count cb) /\
  (CircuitBreaker.is_open cb = true ->
   exists tf, CircuitBreaker.last_failure_time cb = Some tf /\
     forall now, tf + cooldown * 1000000 < now ->
       fst (CircuitBreaker.can_execute now cb) = true).
Proof.
  intros cb.
  pose proof (run_consistent ops _ (init_consistent threshold cooldown)) as (Hc & Hopen & Hlast).
  destruct (run_fields ops (CircuitBreaker.init threshold cooldown)) as [Hthr Htmo].
  fold cb in Hc, Hopen, Hlast, Hthr, Htmo. simpl in Hthr, Htmo.
  split; [exact Hc|]. split; [rewrite <- Hthr; exact Hopen|].
  intros Ho. destruct (Hlast Ho) as [tf Htf]. exists tf. split; [exact Htf|].
  intros now Hnow. unfold CircuitBreaker.can_execute. rewrite Ho, Htf. simpl.
  assert (Hlt : Qltb (inject_Z (CircuitBreaker.timeout cb))
                  (CircuitBreaker.total_seconds now tf) = true).
  { apply Qltb_true. rewrite Htmo. unfold Qlt, CircuitBreaker.total_seconds. simpl. lia. }
  rewrite Hlt. reflexivity.
Qed.

(** X2.  [can_execute] answers true exactly when the breaker is closed
    after the call, and its answer never turns from true to false as time
    passes: a breaker that lets a request through at one time lets it
    through at every later time. *)
Theorem can_execute_answer (cb : CircuitBreaker.t) (now later : Z) :
  now <= later ->
  fst (CircuitBreaker.can_execute now cb) =
    negb (CircuitBreaker.is_open (snd (CircuitBreaker.can_execute now cb))) /\
  (fst (CircuitBreaker.can_execute now cb) = true ->
   fst (CircuitBreaker.can_execute later cb) = true) /\
  (fst (CircuitBreaker.can_execute now cb) = false ->
   snd (CircuitBreaker.can_execute now cb) = cb).
Proof.
  intros Hlater. unfold CircuitBreaker.can_execute.
  destruct (CircuitBreaker.is_open cb) eqn:Ho; simpl; [|rewrite Ho; auto].
  destruct (CircuitBreaker.last_failure_time cb) as [tf|]; simpl; [|rewrite Ho; auto].
  destruct (Qltb (inject_Z (CircuitBreaker.timeout cb))
              (CircuitBreaker.total_seconds now tf)) eqn:Hnow; simpl.
  - split; [reflexivity|]. split; [|discriminate]. intros _.
    assert (Hl : Qltb (inject_Z (CircuitBreaker.timeout cb))
                   (CircuitBreaker.total_seconds later tf) = true).
    { apply Qltb_true. apply Qltb_true in Hnow.
      eapply Qlt_le_trans; [exact Hnow|].
      unfold Qle, CircuitBreaker.total_seconds. simpl. lia. }
    rewrite Hl. reflexivity.
  - rewrite Ho. split; [reflexivity|]. split; [discriminate|reflexivity].
Qed.

Lemma can_execute_answer_witness :
  let cb := CircuitBreaker.record_failures [0; 1; 2] (CircuitBreaker.init 3 300) in
  fst (CircuitBreaker.can_execute 299000000 cb) = false /\
  snd (CircuitBreaker.can_execute 299000000 cb) = cb.
Proof.
  intros cb.
  destruct (can_execute_answer cb 299000000 299000001) as (Hans & _ & Hsame); [lia|].
  assert (H : fst (CircuitBreaker.can_execute 299000000 cb) = false)
    by (vm_compute; reflexivity).
  split; [exact H|exact (Hsame H)].
Defined.

(** X3.  Only consecutive failures count: after a success, whatever came
    before it, the breaker is open after further failures exactly when
    there are at least [threshold] of them (and at least one). *)
Theorem breaker_counts_consecutive (threshold cooldown : Z)
    (before : list BreakerRuns.op) (ts : list Z) :
  let cb := BreakerRuns.run (before ++ BreakerRuns.Success :: map BreakerRuns.Failure ts)
              (CircuitBreaker.init threshold cooldown) in
  CircuitBreaker.failure_count cb = Z.of_nat (length ts) /\
  (CircuitBreaker.is_open cb = true <-> ts <> [] /\ threshold <= Z.of_nat (length ts)).
Proof.
  intros cb. unfold cb.
  rewrite run_app. change (BreakerRuns.Success :: map BreakerRuns.Failure ts)
    with ([BreakerRuns.Success] ++ map BreakerRuns.Failure ts).
  rewrite run_app, run_failures.
  destruct (run_fields before (CircuitBreaker.init threshold cooldown)) as [Hthr _].
  simpl in Hthr.
  set (cb0 := BreakerRuns.run [BreakerRuns.Success] _).
  assert (H0 : CircuitBreaker.failure_count cb0 = 0) by reflexivity.
  assert (H1 : CircuitBreaker.is_open cb0 = false) by reflexivity.
  assert (H2 : CircuitBreaker.failure_threshold cb0 = threshold) by exact Hthr.
  split.
  - rewrite record_failures_count, H0. lia.
  - rewrite record_failures_open, H0, H1, H2. simpl. split.
    + intros [H|H]; [discriminate|exact H].
    + intros H. right. exact H.
Qed.

Lemma breaker_open_iff_count_witness :
  let cb := BreakerRuns.run [BreakerRuns.Failure 0; BreakerRuns.Failure 1; BreakerRuns.Failure 2]
              (CircuitBreaker.init 3 300) in
  CircuitBreaker.is_open cb = true /\
  fst (CircuitBreaker.can_execute 400000000 cb) = true.
Proof.
  intros cb.
  destruct (breaker_open_iff_count 3 300
              [BreakerRuns.Failure 0; BreakerRuns.Failure 1; BreakerRuns.Failure 2])
    as (_ & Hopen & Hlive).
  fold cb in Hopen, Hlive.
  assert (Ho : CircuitBreaker.is_open cb = true).
  { apply Hopen. vm_compute. split; [reflexivity|discriminate]. }
  split; [exact Ho|].
  destruct (Hlive Ho) as (tf & Htf & Hafter).
  apply Hafter. vm_compute in Htf. injection Htf as <-. lia.
Defined.

(** ** The rotation manager: every strategy *)

Section RotationFacts.
Import KeyRotation RotationOps.

Lemma reset_stats_twice (st : KeyStats) : reset_stats (reset_stats st) = reset_stats st.
Proof. reflexivity. Qed.

Lemma reset_lookup (ks : list string) (stats : gmap string KeyStats) (key : string) :
  fold_left (fun s k => alter reset_stats k s) ks stats !! key =
  (if decide (key ∈ ks) then reset_stats else id) <$> stats !! key.
Proof.
  revert stats. induction ks as [|k ks IH]; intros stats.
  - cbn [fold_left]. destruct (decide (key ∈ [])) as [H|_].
    + apply elem_of_nil in H. contradiction.
    + destruct (stats !! key); reflexivity.
  - cbn [fold_left]. rewrite IH, lookup_alter.
    destruct (decide (k = key)) as [->|Hne].
    + destruct (decide (key ∈ key :: ks)) as [_|Hn]; [|exfalso; apply Hn; left].
      destruct (decide (key ∈ ks)); destruct (stats !! key); reflexivity.
    + destruct (decide (key ∈ ks)) as [Hin|Hnin];
        destruct (decide (key ∈ k :: ks)) as [Hin'|Hnin']; try reflexivity.
      * exfalso. apply Hnin'. right. exact Hin.
      * exfalso. apply elem_of_cons in Hin' as [H|H]; [congruence|contradiction].
Qed.

Lemma reset_ok (m : t) : stats_ok m -> stats_ok (_reset_error_tracking m).
Proof.
  intros [Hbound Hdom]. split; simpl.
  - intros key st. rewrite reset_lookup.
    destruct (key_stats m !! key) as [st0|] eqn:Hst; [|discriminate].
    pose proof (Hbound key st0 Hst) as Hb.
    destruct (decide (key ∈ keys m)); simpl; intros [= <-]; simpl; lia.
  - intros key. etransitivity; [apply Hdom|].
    rewrite reset_lookup. symmetry. apply fmap_is_Some.
Qed.

Lemma min_by_requests_in (stats : gmap string KeyStats) (best : string * Z)
    (rest : list string) :
  (forall k, k ∈ rest -> is_Some (stats !! k)) ->
  exists k, min_by_requests stats best rest = Some k /\ (k = fst best \/ k ∈ rest).
Proof.
  revert best. induction rest as [|k rest IH]; intros best Hall; [simpl; eauto|].
  simpl. destruct (Hall k) as [st Hst]; [left|]. rewrite Hst.
  assert (Hrest : forall k', k' ∈ rest -> is_Some (stats !! k'))
    by (intros k' Hk'; apply Hall; right; exact Hk').
  destruct (requests st <? snd best).
  - destruct (IH (k, requests st) Hrest) as (k' & Hk' & [->|Hin]).
    + exists k. split; [exact Hk'|]. right. left.
    + exists k'. split; [exact Hk'|]. right. right. exact Hin.
  - destruct (IH best Hrest) as (k' & Hk' & [->|Hin]).
    + exists (fst best). split; [exact Hk'|]. left. reflexivity.
    + exists k'. split; [exact Hk'|]. right. right. exact Hin.
Qed.

Lemma available_keys_spec (now : Z) (stats : gmap string KeyStats) (ks : list string) :
  (forall k, k ∈ ks -> is_Some (stats !! k)) ->
  exists av, available_keys now stats ks = Some av /\
    forall k, k ∈ av <-> k ∈ ks /\ exists st, stats !! k = Some st /\ available now st = true.
Proof.
  induction ks as [|k ks IH]; intros Hall.
  - exists []. split; [reflexivity|]. intros k. split.
    + intros H. apply elem_of_nil in H. contradiction.
    + intros [H _]. exact H.
  - destruct IH as (av & Hav & Hspec);
      [intros k' Hk'; apply Hall; right; exact Hk'|].
    destruct (Hall k) as [st Hst]; [left|].
    simpl. rewrite Hst, Hav. fold (available now st).
    destruct (available now st) eqn:Ha.
    + exists (k :: av). split; [reflexivity|]. intros k'.
      rewrite !elem_of_cons, Hspec. split.
      * intros [->|[Hin Hx]]; [split; [left; reflexivity|eauto]|split; [right; exact Hin|exact Hx]].
      * intros [[->|Hin] Hx]; [left; reflexivity|right; split; assumption].
    + exists av. split; [reflexivity|]. intros k'.
      rewrite elem_of_cons, Hspec. split.
      * intros [Hin Hx]. split; [right; exact Hin|exact Hx].
      * intros [[->|Hin] (st' & Hst' & Ha')]; [congruence|split; eauto].
Qed.

(** One call of [get_next_key] on a manager whose statistics are in order. *)
Lemma get_next_key_ok (now : Z) (pick : nat) (m : t) :
  stats_ok m ->
  exists k m', get_next_key now pick m = inr (k, m') /\
    stats_ok m' /\ keys m' = keys m /\ strategy m' = strategy m /\
    rate_limit_threshold m' = rate_limit_threshold m /\
    ((keys m = [] /\ k = None) \/ (exists key, k = Some key /\ key ∈ keys m)).
Proof.
  intros Hok. pose proof Hok as [Hbound Hdom].
  assert (Hrr : forall m0, stats_ok m0 -> keys m0 <> [] ->
            exists k m', inr (_get_round_robin_key m0) = inr (A:=exn) (k, m') /\
              stats_ok m' /\ keys m' = keys m0 /\ strategy m' = strategy m0 /\
              rate_limit_threshold m' = rate_limit_threshold m0 /\
              ((keys m0 = [] /\ k = None) \/ (exists key, k = Some key /\ key ∈ keys m0))).
  { intros m0 Hok0 Hne. destruct (index_mod_some (keys m0) (current_index m0) Hne)
      as (key & Hkey & Hin).
    eexists _, _. split; [reflexivity|]. simpl.
    split; [exact Hok0|]. do 3 (split; [reflexivity|]). right. eauto. }
  assert (Hcase : keys m = [] \/ keys m <> []) by (destruct (keys m); [left|right]; congruence).
  destruct Hcase as [Hnil|Hne].
  - exists None, m. split; [unfold get_next_key; rewrite Hnil; reflexivity|].
    split; [exact Hok|]. do 3 (split; [reflexivity|]). left. auto.
  - assert (Hshape : get_next_key now pick m =
        if String.eqb (strategy m) "round_robin" then inr (_get_round_robin_key m)
        else if String.eqb (strategy m) "least_used" then
          match _get_least_used_key m with
          | inl x => inl x
          | inr k => inr (k, m)
          end
        else if String.eqb (strategy m) "random" then
          inr (keys m !! (pick mod length (keys m))%nat, m)
        else if String.eqb (strategy m) "adaptive" then _get_adaptive_key now m
        else inr (_get_round_robin_key m)).
    { unfold get_next_key. destruct (keys m); [congruence|reflexivity]. }
    rewrite Hshape. clear Hshape.
    destruct (String.eqb (strategy m) "round_robin"); [apply Hrr; assumption|].
    destruct (String.eqb (strategy m) "least_used").
    { unfold _get_least_used_key.
      destruct (keys m) as [|k0 ks0] eqn:Hkeys; [congruence|].
      destruct (proj1 (Hdom k0)) as [st Hst]; [left|]. rewrite Hst.
      destruct (min_by_requests_in (key_stats m) (k0, requests st) ks0)
        as (k & Hk & Hin).
      { intros k' Hk'. apply Hdom. right. exact Hk'. }
      rewrite Hk. exists (Some k), m. split; [reflexivity|]. split; [exact Hok|].
      split; [exact Hkeys|]. do 2 (split; [reflexivity|]).
      right. exists k. split; [reflexivity|].
      simpl in Hin. destruct Hin as [->|Hin]; [left|right; exact Hin]. }
    destruct (String.eqb (strategy m) "random").
    { destruct (lookup_lt_is_Some_2 (keys m) (pick mod length (keys m))%nat) as [k Hk].
      { apply Nat.mod_upper_bound. destruct (keys m); [congruence|discriminate]. }
      exists (Some k), m. split; [rewrite Hk; reflexivity|]. split; [exact Hok|].
      do 3 (split; [reflexivity|]). right. exists k. split; [reflexivity|].
      apply list_elem_of_lookup. eauto. }
    destruct (String.eqb (strategy m) "adaptive"); [|apply Hrr; assumption].
    unfold _get_adaptive_key.
    destruct (available_keys_spec now (key_stats m) (keys m)) as (av & Hav & Hspec).
    { intros k Hk. apply Hdom. exact Hk. }
    rewrite Hav. destruct av as [|a av].
    + destruct (Hrr (_reset_error_tracking m) (reset_ok m Hok) Hne)
        as (k & m' & Heq & H1 & H2 & H3 & H4 & H5).
      exists k, m'. split; [exact Heq|]. split; [exact H1|].
      split; [exact H2|]. split; [exact H3|]. split; [exact H4|exact H5].
    + destruct (index_mod_some (a :: av) (current_index m)) as (k & Hk & Hin);
        [discriminate|].
      eexists (Some k), _. split; [rewrite Hk; reflexivity|]. simpl.
      split; [exact Hok|]. do 3 (split; [reflexivity|]).
      right. exists k. split; [reflexivity|]. apply Hspec in Hin. exact (proj1 Hin).
Qed.

Lemma run_ok (ops : list op) (m : t) :
  stats_ok m ->
  exists sel m', run ops m = inr (sel, m') /\ stats_ok m' /\ keys m' = keys m /\
    Forall (fun s => (keys m = [] /\ s = None) \/ (exists key, s = Some key /\ key ∈ keys m)) sel.
Proof.
  revert m. induction ops as [|[now pick|r] ops IH]; intros m Hok.
  - exists [], m. split; [reflexivity|]. split; [exact Hok|]. split; [reflexivity|constructor].
  - destruct (get_next_key_ok now pick m Hok) as (k & m1 & Hk & Hok1 & Hkeys1 & _ & _ & Hsel).
    destruct (IH m1 Hok1) as (sel & m2 & Hrun & Hok2 & Hkeys2 & Hall).
    simpl. rewrite Hk, Hrun. exists (k :: sel), m2. split; [reflexivity|].
    split; [exact Hok2|]. split; [congruence|].
    constructor; [exact Hsel|]. rewrite <- Hkeys1. exact Hall.
  - destruct (IH _ (record_request_ok (req_now r) (req_key r) (req_success r)
                      (req_error_type r) m Hok)) as (sel & m2 & Hrun & Hok2 & Hkeys2 & Hall).
    simpl. rewrite Hrun. exists sel, m2. split; [reflexivity|]. split; [exact Hok2|].
    rewrite record_request_keys in Hkeys2, Hall. split; [exact Hkeys2|exact Hall].
Qed.

End RotationFacts.

(** X4.  Under every strategy, and for every interleaving of
    [get_next_key] and [record_request] calls on a freshly built manager,
    no call raises; with no key loaded every [get_next_key] returns
    [None], and otherwise every one returns one of the loaded keys. *)
Theorem rotation_hands_out_loaded_keys (strategy : string) (ks : list string)
    (threshold : Z) (ops : list RotationOps.op) :
  exists sel m',
    RotationOps.run ops (KeyRotation.init strategy ks threshold) = inr (sel, m') /\
    KeyRotation.keys m' = ks /\
    Forall (fun s => (ks = [] /\ s = None) \/ (exists key, s = Some key /\ key ∈ ks)) sel.
Proof.
  destruct (run_ok ops _ (init_ok strategy ks threshold)) as (sel & m' & Hrun & _ & Hkeys & Hall).
  exists sel, m'. split; [exact Hrun|]. split; [exact Hkeys|exact Hall].
Qed.

Section LeastUsedFacts.
Import KeyRotation RotationOps.

Lemma min_by_requests_min (stats : gmap string KeyStats) (rest pre : list string)
    (b : string) (ib : nat) :
  (forall k, k ∈ rest -> is_Some (stats !! k)) ->
  pre !! ib = Some b ->
  (forall k', k' ∈ pre -> requests_of stats b <= requests_of stats k') ->
  (forall j k', (j < ib)%nat -> pre !! j = Some k' ->
     requests_of stats b < requests_of stats k') ->
  exists k i,
    min_by_requests stats (b, requests_of stats b) rest = Some k /\
    (pre ++ rest) !! i = Some k /\
    (forall k', k' ∈ pre ++ rest -> requests_of stats k <= requests_of stats k') /\
    (forall j k', (j < i)%nat -> (pre ++ rest) !! j = Some k' ->
       requests_of stats k < requests_of stats k').
Proof.
  revert pre b ib. induction rest as [|k rest IH]; intros pre b ib Hall Hb Hmin Hfirst.
  - exists b, ib. rewrite app_nil_r. simpl. auto.
  - destruct (Hall k) as [st Hst]; [left|].
    assert (Hrk : requests_of stats k = requests st)
      by (unfold requests_of; rewrite Hst; reflexivity).
    assert (Hrest : forall k', k' ∈ rest -> is_Some (stats !! k'))
      by (intros k' Hk'; apply Hall; right; exact Hk').
    assert (Hlen : (ib < length pre)%nat) by (eapply lookup_lt_Some; exact Hb).
    simpl. rewrite Hst. cbn [snd].
    replace (pre ++ k :: rest) with ((pre ++ [k]) ++ rest)
      by (rewrite <- app_assoc; reflexivity).
    destruct (Z.ltb_spec (requests st) (requests_of stats b)) as [Hlt|Hge].
    + rewrite <- Hrk. apply (IH (pre ++ [k]) k (length pre) Hrest).
      * rewrite lookup_app_r by lia. rewrite Nat.sub_diag. reflexivity.
      * intros k' Hk'. apply elem_of_app in Hk' as [Hk'|Hk'].
        -- specialize (Hmin k' Hk'). lia.
        -- apply list_elem_of_singleton in Hk'. subst k'. lia.
      * intros j k' Hj Hk'. rewrite lookup_app_l in Hk' by exact Hj.
        assert (k' ∈ pre) by (apply list_elem_of_lookup; eauto).
        specialize (Hmin k' H). lia.
    + apply (IH (pre ++ [k]) b ib Hrest).
      * rewrite lookup_app_l by exact Hlen. exact Hb.
      * intros k' Hk'. apply elem_of_app in Hk' as [Hk'|Hk'].
        -- apply Hmin. exact Hk'.
        -- apply list_elem_of_singleton in Hk'. subst k'. lia.
      * intros j k' Hj Hk'. rewrite lookup_app_l in Hk' by lia.
        apply (Hfirst j k' Hj Hk').
Qed.

Lemma least_used_ok (now : Z) (pick : nat) (m : t) :
  stats_ok m ->
  strategy m = "least_used"%string ->
  keys m <> [] ->
  exists k i,
    get_next_key now pick m = inr (Some k, m) /\
    keys m !! i = Some k /\
    (forall k', k' ∈ keys m ->
       requests_of (key_stats m) k <= requests_of (key_stats m) k') /\
    (forall j k', (j < i)%nat -> keys m !! j = Some k' ->
       requests_of (key_stats m) k < requests_of (key_stats m) k').
Proof.
  intros [_ Hdom] Hs Hne. unfold get_next_key, _get_least_used_key. rewrite Hs.
  destruct (keys m) as [|k0 ks0] eqn:Hkeys; [congruence|]. simpl.
  destruct (proj1 (Hdom k0)) as [st Hst]; [left|]. rewrite Hst.
  assert (Hr0 : requests st = requests_of (key_stats m) k0)
    by (unfold requests_of; rewrite Hst; reflexivity).
  rewrite Hr0.
  destruct (min_by_requests_min (key_stats m) ks0 [k0] k0 0) as (k & i & Hk & Hi & Hmin & Hfirst).
  - intros k' Hk'. apply Hdom. right. exact Hk'.
  - reflexivity.
  - intros k' Hk'. apply list_elem_of_singleton in Hk'. subst k'. lia.
  - intros j k' Hj. lia.
  - rewrite Hk. exists k, i. split; [reflexivity|]. auto.
Qed.

Lemma record_requests_fields (rs : list request) (m : t) :
  strategy (record_requests rs m) = strategy m /\
  rate_limit_threshold (record_requests rs m) = rate_limit_threshold m /\
  current_index (record_requests rs m) = current_index m.
Proof.
  revert m. induction rs as [|r rs IH]; intros m; [auto|].
  change (record_requests (r :: rs) m)
    with (record_requests rs
            (record_request (req_now r) (req_key r) (req_success r) (req_error_type r) m)).
  destruct (IH (record_request (req_now r) (req_key r) (req_success r) (req_error_type r) m))
    as (H1 & H2 & H3).
  rewrite H1, H2, H3. unfold record_request.
  destruct (key_stats m !! req_key r); auto.
Qed.

End LeastUsedFacts.

(** X5.  The least-used strategy hands out a key with the fewest recorded
    requests, the first such key in loading order, and does not change the
    manager. *)
Theorem least_used_is_minimal (ks : list string) (threshold : Z)
    (rs : list KeyRotation.request) (now : Z) (pick : nat) :
  ks <> [] ->
  let m := KeyRotation.record_requests rs (KeyRotation.init "least_used" ks threshold) in
  exists k i,
    KeyRotation.get_next_key now pick m = inr (Some k, m) /\
    ks !! i = Some k /\
    (forall k', k' ∈ ks ->
       RotationOps.requests_of (KeyRotation.key_stats m) k <=
       RotationOps.requests_of (KeyRotation.key_stats m) k') /\
    (forall j k', (j < i)%nat -> ks !! j = Some k' ->
       RotationOps.requests_of (KeyRotation.key_stats m) k <
       RotationOps.requests_of (KeyRotation.key_stats m) k').
Proof.
  intros Hne m.
  assert (Hkeys : KeyRotation.keys m = ks) by (unfold m; rewrite record_requests_keys; reflexivity).
  assert (Hs : KeyRotation.strategy m = "least_used"%string).
  { unfold m. rewrite (proj1 (record_requests_fields rs _)). reflexivity. }
  destruct (least_used_ok now pick m) as (k & i & H1 & H2 & H3 & H4).
  - apply record_requests_ok, init_ok.
  - exact Hs.
  - rewrite Hkeys. exact Hne.
  - rewrite Hkeys in H2, H3, H4. exists k, i. auto.
Qed.

Lemma least_used_is_minimal_witness :
  KeyRotation.get_next_key 50 0 (RotationExamples.used_manager "least_used") =
    inr (Some "AIzaB"%string, RotationExamples.used_manager "least_used").
Proof.
  destruct (least_used_is_minimal ["AIzaA"; "AIzaB"; "AIzaC"]%string 95
              [KeyRotation.mkRequest 10 "AIzaA" true None;
               KeyRotation.mkRequest 20 "AIzaA" true None;
               KeyRotation.mkRequest 30 "AIzaB" false (Some "RATE_LIMIT"%string);
               KeyRotation.mkRequest 40 "AIzaC" true None] 50 0)
    as (k & i & Hget & _); [discriminate|].
  assert (Hc : KeyRotation.get_next_key 50 0 (RotationExamples.used_manager "least_used") =
               inr (Some "AIzaB"%string, RotationExamples.used_manager "least_used"))
    by (vm_compute; reflexivity).
  pose proof (eq_trans (eq_sym Hc) Hget) as Heq.
  injection Heq as Hk. subst k. exact Hget.
Defined.

Section AdaptiveFacts.
Import KeyRotation RotationOps.

Lemma should_skip_key_reset (m : t) (key : string) :
  should_skip_key (_reset_error_tracking m) key = should_skip_key m key.
Proof.
  unfold should_skip_key. cbn [_reset_error_tracking key_stats rate_limit_threshold].
  rewrite reset_lookup.
  destruct (key_stats m !! key) as [st|]; [|reflexivity].
  destruct (decide (key ∈ keys m)); reflexivity.
Qed.

Lemma adaptive_ok (now : Z) (pick : nat) (m : t) :
  stats_ok m ->
  strategy m = "adaptive"%string ->
  keys m <> [] ->
  exists k m',
    get_next_key now pick m = inr (Some k, m') /\
    k ∈ keys m /\
    (forall key, should_skip_key m' key = should_skip_key m key) /\
    (((exists key st, key ∈ keys m /\ key_stats m !! key = Some st /\
                      available now st = true) /\
      key_stats m' = key_stats m /\
      exists st, key_stats m !! k = Some st /\ available now st = true)
     \/
     ((forall key st, key ∈ keys m -> key_stats m !! key = Some st ->
                      available now st = false) /\
      index_mod (keys m) (current_index m) = Some k /\
      forall key st, key_stats m !! key = Some st ->
        key_stats m' !! key = Some (reset_stats st))).
Proof.
  intros Hok Hs Hne. pose proof Hok as [_ Hdom].
  assert (Hshape : get_next_key now pick m = _get_adaptive_key now m).
  { unfold get_next_key. rewrite Hs. destruct (keys m); [congruence|reflexivity]. }
  rewrite Hshape. unfold _get_adaptive_key.
  destruct (available_keys_spec now (key_stats m) (keys m)) as (av & Hav & Hspec).
  { intros k Hk. apply Hdom. exact Hk. }
  rewrite Hav. destruct av as [|a av].
  - destruct (index_mod_some (keys m) (current_index m) Hne) as (k & Hk & Hin).
    exists k. eexists. split; [unfold _get_round_robin_key; simpl; rewrite Hk; reflexivity|].
    split; [exact Hin|]. split.
    { intros key. unfold should_skip_key. simpl.
      rewrite reset_lookup. destruct (key_stats m !! key) as [st|]; [|reflexivity].
      destruct (decide (key ∈ keys m)); reflexivity. }
    right. split; [|split; [exact Hk|]].
    + intros key st Hkey Hst. destruct (available now st) eqn:Ha; [|reflexivity].
      exfalso. assert (H : key ∈ []) by (apply Hspec; eauto).
      apply elem_of_nil in H. exact H.
    + intros key st Hst. simpl. rewrite reset_lookup, Hst.
      rewrite decide_True; [reflexivity|]. apply Hdom. eauto.
  - destruct (index_mod_some (a :: av) (current_index m)) as (k & Hk & Hin);
      [discriminate|].
    pose proof (proj1 (Hspec k) Hin) as (Hkin & st & Hst & Ha).
    exists k. eexists. split; [rewrite Hk; reflexivity|].
    split; [exact Hkin|]. split; [intros key; reflexivity|].
    left. split; [|split; [reflexivity|eauto]].
    exists k, st. auto.
Qed.

End AdaptiveFacts.

(** X6.  The adaptive strategy hands out a loaded key that is not rate
    limited (its last error is not [RATE_LIMIT], or that error is older
    than an hour) whenever there is one, and then changes no statistics.
    When every key is rate limited it clears the last error of every key,
    keeps all request and error counts, and hands out the round-robin key;
    either way [should_skip_key] answers as before. *)
Theorem adaptive_avoids_rate_limited (m : KeyRotation.t) (now : Z) (pick : nat) :
  KeyRotation.stats_ok m ->
  KeyRotation.strategy m = "adaptive"%string ->
  KeyRotation.keys m <> [] ->
  exists k m',
    KeyRotation.get_next_key now pick m = inr (Some k, m') /\
    k ∈ KeyRotation.keys m /\
    (forall key, KeyRotation.should_skip_key m' key = KeyRotation.should_skip_key m key) /\
    (((exists key st, key ∈ KeyRotation.keys m /\
         KeyRotation.key_stats m !! key = Some st /\
         RotationOps.available now st = true) /\
      KeyRotation.key_stats m' = KeyRotation.key_stats m /\
      exists st, KeyRotation.key_stats m !! k = Some st /\
                 RotationOps.available now st = true)
     \/
     ((forall key st, key ∈ KeyRotation.keys m ->
         KeyRotation.key_stats m !! key = Some st ->
         RotationOps.available now st = false) /\
      KeyRotation.index_mod (KeyRotation.keys m) (KeyRotation.current_index m) = Some k /\
      forall key st, KeyRotation.key_stats m !! key = Some st ->
        KeyRotation.key_stats m' !! key = Some (KeyRotation.reset_stats st))).
Proof. apply adaptive_ok. Qed.

Lemma adaptive_avoids_rate_limited_witness :
  (exists m', KeyRotation.get_next_key 50 0 (RotationExamples.used_manager "adaptive") =
              inr (Some "AIzaA"%string, m')) /\
  (exists m', KeyRotation.get_next_key 50 0 RotationExamples.limited_manager =
              inr (Some "AIzaA"%string, m') /\
              KeyRotation.key_stats m' !! "AIzaB"%string =
              Some (KeyRotation.mkStats 1 1 None None)).
Proof.
  split.
  - destruct (adaptive_avoids_rate_limited (RotationExamples.used_manager "adaptive") 50 0)
      as (k & m' & Hget & _).
    + apply record_requests_ok, init_ok.
    + reflexivity.
    + discriminate.
    + exists m'.
      assert (Hc : fst <$> (match KeyRotation.get_next_key 50 0
                                    (RotationExamples.used_manager "adaptive") with
                            | inr p => Some p | inl _ => None end) =
                   Some (Some "AIzaA"%string)) by (vm_compute; reflexivity).
      rewrite Hget in Hc. simpl in Hc. injection Hc as ->. exact Hget.
  - destruct (adaptive_avoids_rate_limited RotationExamples.limited_manager 50 0)
      as (k & m' & Hget & _ & _ & [((key & st & Hkey & Hst & Ha) & _)|(_ & Hrr & Hreset)]).
    + apply record_requests_ok, init_ok.
    + reflexivity.
    + discriminate.
    + exfalso.
      apply elem_of_cons in Hkey as [->|Hkey].
      { vm_compute in Hst. injection Hst as <-. vm_compute in Ha. discriminate. }
      apply elem_of_cons in Hkey as [->|Hkey].
      { vm_compute in Hst. injection Hst as <-. vm_compute in Ha. discriminate. }
      apply elem_of_nil in Hkey. exact Hkey.
    + exists m'. vm_compute in Hrr. injection Hrr as <-. split; [exact Hget|].
      apply (Hreset "AIzaB"%string
               (KeyRotation.mkStats 1 1 (Some "RATE_LIMIT"%string) (Some 20))).
      vm_compute. reflexivity.
Defined.

Section CountingFacts.
Import KeyRotation RotationOps.

Lemma record_requests_snoc (rs : list request) (r : request) (m : t) :
  record_requests (rs ++ [r]) m =
  record_request (req_now r) (req_key r) (req_success r) (req_error_type r)
    (record_requests rs m).
Proof. unfold record_requests. rewrite fold_left_app. reflexivity. Qed.

Lemma filter_bool_snoc {A : Type} (f : A -> bool) (l : list A) (x : A) :
  filter (fun a => f a) (l ++ [x]) = filter (fun a => f a) l ++ (if f x then [x] else []).
Proof.
  rewrite filter_app. f_equal. destruct (f x) eqn:E.
  - rewrite filter_cons_True by (rewrite E; exact I). reflexivity.
  - rewrite filter_cons_False by (rewrite E; exact id). reflexivity.
Qed.

Lemma record_requests_counts (rs : list request) (m : t) (key : string) (st0 : KeyStats) :
  key_stats m !! key = Some st0 ->
  exists st, key_stats (record_requests rs m) !! key = Some st /\
    requests st = requests st0 + Z.of_nat (length (requests_for key rs)) /\
    errors st = errors st0 + Z.of_nat (length (failures_for key rs)) /\
    (last_error st, last_error_time st) =
      match last (failures_for key rs) with
      | Some r => (req_error_type r, Some (req_now r))
      | None => (last_error st0, last_error_time st0)
      end.
Proof.
  intros Hst0. induction rs as [|r rs IH] using rev_ind.
  - exists st0. simpl. split; [exact Hst0|]. split; [lia|]. split; [lia|reflexivity].
  - destruct IH as (st & Hst & Hreq & Herr & Hlast).
    rewrite record_requests_snoc. unfold requests_for, failures_for in *.
    rewrite !filter_bool_snoc, !length_app.
    unfold record_request.
    destruct (String.eqb_spec (req_key r) key) as [Heq|Hne].
    + rewrite Heq, Hst. cbn [key_stats]. rewrite lookup_insert_eq.
      eexists. split; [reflexivity|].
      destruct (req_success r); cbn [negb andb requests errors last_error last_error_time length].
      * rewrite app_nil_r. split; [lia|]. split; [lia|].
        exact Hlast.
      * split; [lia|]. split; [lia|].
        rewrite last_snoc. reflexivity.
    + cbn [andb length]. rewrite !app_nil_r.
      exists st. split.
      * destruct (key_stats (record_requests rs m) !! req_key r); [|exact Hst].
        cbn [key_stats]. rewrite lookup_insert_ne by exact Hne. exact Hst.
      * split; [lia|]. split; [lia|exact Hlast].
Qed.

End CountingFacts.

(** X7.  The statistics of a loaded key count the calls made for it: its
    request count is the number of [record_request] calls naming it, its
    error count the number of those that failed, and its last error and
    error time are those of the latest failed call (none if no call
    failed). *)
Theorem record_request_counts (strategy : string) (ks : list string) (threshold : Z)
    (rs : list KeyRotation.request) (key : string) :
  key ∈ ks ->
  exists st,
    KeyRotation.key_stats
      (KeyRotation.record_requests rs (KeyRotation.init strategy ks threshold)) !! key
      = Some st /\
    KeyRotation.requests st = Z.of_nat (length (RotationOps.requests_for key rs)) /\
    KeyRotation.errors st = Z.of_nat (length (RotationOps.failures_for key rs)) /\
    (KeyRotation.last_error st, KeyRotation.last_error_time st) =
      match last (RotationOps.failures_for key rs) with
      | Some r => (KeyRotation.req_error_type r, Some (KeyRotation.req_now r))
      | None => (None, None)
      end.
Proof.
  intros Hin.
  assert (H0 : KeyRotation.key_stats (KeyRotation.init strategy ks threshold) !! key =
               Some KeyRotation.fresh_stats).
  { simpl. unfold KeyRotation.init_stats. rewrite init_stats_lookup.
    rewrite decide_True by exact Hin. reflexivity. }
  destruct (record_requests_counts rs _ key _ H0) as (st & Hst & Hreq & Herr & Hlast).
  exists st. split; [exact Hst|]. simpl in Hreq, Herr, Hlast.
  split; [lia|]. split; [lia|exact Hlast].
Qed.

Lemma record_request_counts_witness :
  KeyRotation.key_stats (RotationExamples.used_manager "round_robin") !! "AIzaB"%string =
  Some (KeyRotation.mkStats 1 1 (Some "RATE_LIMIT"%string) (Some 30)).
Proof.
  destruct (record_request_counts "round_robin" ["AIzaA"; "AIzaB"; "AIzaC"]%string 95
              [KeyRotation.mkRequest 10 "AIzaA" true None;
               KeyRotation.mkRequest 20 "AIzaA" true None;
               KeyRotation.mkRequest 30 "AIzaB" false (Some "RATE_LIMIT"%string);
               KeyRotation.mkRequest 40 "AIzaC" true None] "AIzaB")
    as (st & Hst & Hreq & Herr & Hlast).
  - right. left.
  - unfold RotationExamples.used_manager. rewrite Hst. f_equal.
    destruct st as [rq er le lt]. simpl in Hreq, Herr, Hlast.
    vm_compute in Hreq, Herr, Hlast. injection Hlast as -> ->. subst rq er.
    reflexivity.
Defined.

Section StatisticsFacts.
Import KeyRotation.

Lemma statistics_of_app (stats : gmap string KeyStats) (l1 l2 : list string)
    (acc : gmap string StatRow) :
  statistics_of stats (l1 ++ l2) acc =
  match statistics_of stats l1 acc with
  | inl x => inl x
  | inr acc1 => statistics_of stats l2 acc1
  end.
Proof.
  revert acc. induction l1 as [|k l1 IH]; intros acc; [reflexivity|].
  simpl. destruct (stats !! k) as [st|]; [|reflexivity].
  destruct (stat_row st) as [x|row]; [reflexivity|]. apply IH.
Qed.

Lemma statistics_of_other (stats : gmap string KeyStats) (ks : list string)
    (acc rows : gmap string StatRow) (short : string) :
  statistics_of stats ks acc = inr rows ->
  (forall k, k ∈ ks -> key_short k <> short) ->
  rows !! short = acc !! short.
Proof.
  revert acc. induction ks as [|k ks IH]; intros acc Hrows Hnone.
  - injection Hrows as <-. reflexivity.
  - simpl in Hrows. destruct (stats !! k) as [st|]; [|discriminate].
    destruct (stat_row st) as [x|row]; [discriminate|].
    rewrite (IH _ Hrows) by (intros k' Hk'; apply Hnone; right; exact Hk').
    apply lookup_insert_ne. apply Hnone. left.
Qed.

Lemma statistics_of_dom (stats : gmap string KeyStats) (ks : list string)
    (acc rows : gmap string StatRow) (short : string) :
  statistics_of stats ks acc = inr rows ->
  (is_Some (rows !! short) <->
   is_Some (acc !! short) \/ exists k, k ∈ ks /\ key_short k = short).
Proof.
  revert acc. induction ks as [|k ks IH]; intros acc Hrows.
  - injection Hrows as <-. split; [auto|]. intros [H|(k & Hk & _)]; [exact H|].
    apply elem_of_nil in Hk. contradiction.
  - simpl in Hrows. destruct (stats !! k) as [st|]; [|discriminate].
    destruct (stat_row st) as [x|row]; [discriminate|].
    rewrite (IH _ Hrows). split.
    + intros [H|(k' & Hk' & Hs)].
      * destruct (decide (key_short k = short)) as [Heq|Hne].
        -- right. exists k. split; [left|exact Heq].
        -- rewrite lookup_insert_ne in H by exact Hne. left. exact H.
      * right. exists k'. split; [right; exact Hk'|exact Hs].
    + intros [H|(k' & Hk' & Hs)].
      * left. destruct (decide (key_short k = short)) as [Heq|Hne].
        -- rewrite Heq, lookup_insert_eq. eauto.
        -- rewrite lookup_insert_ne by exact Hne. exact H.
      * apply elem_of_cons in Hk' as [->|Hk'].
        -- left. rewrite Hs, lookup_insert_eq. eauto.
        -- right. exists k'. split; assumption.
Qed.

Lemma stat_row_value (st : KeyStats) :
  stat_row st =
  inr (mkRow (requests st) (errors st)
         (if 0 <? requests st
          then (inject_Z (errors st) / inject_Z (requests st) * 100)%Q
          else inject_Z 0)
         (last_error st)).
Proof.
  unfold stat_row. destruct (Z.ltb_spec 0 (requests st)) as [Hr|Hr]; [|reflexivity].
  rewrite error_rate_defined by lia. reflexivity.
Qed.

End StatisticsFacts.

(** X8.  [get_statistics] never raises and does not report per key but per
    shortened key (the first ten characters and an ellipsis): there is a
    row for exactly the shortened forms of the loaded keys, and the row
    shows the counts, the error rate (0 without requests) and the last
    error of the last loaded key with that shortened form, so keys that
    agree on their first ten characters share one row. *)
Theorem get_statistics_rows (strategy : string) (ks : list string) (threshold : Z)
    (rs : list KeyRotation.request) :
  let m := KeyRotation.record_requests rs (KeyRotation.init strategy ks threshold) in
  exists rows,
    KeyRotation.get_statistics m = inr rows /\
    (forall short, is_Some (rows !! short) <->
       exists k, k ∈ ks /\ KeyRotation.key_short k = short) /\
    (forall l1 k l2 st,
       ks = l1 ++ k :: l2 ->
       (forall k', k' ∈ l2 -> KeyRotation.key_short k' <> KeyRotation.key_short k) ->
       KeyRotation.key_stats m !! k = Some st ->
       rows !! KeyRotation.key_short k =
       Some (KeyRotation.mkRow (KeyRotation.requests st) (KeyRotation.errors st)
               (if 0 <? KeyRotation.requests st
                then (inject_Z (KeyRotation.errors st) /
                      inject_Z (KeyRotation.requests st) * 100)%Q
                else inject_Z 0)
               (KeyRotation.last_error st))).
Proof.
  intros m.
  assert (Hok : KeyRotation.stats_ok m) by (apply record_requests_ok, init_ok).
  assert (Hkeys : KeyRotation.keys m = ks)
    by (unfold m; rewrite record_requests_keys; reflexivity).
  destruct Hok as [_ Hdom].
  destruct (statistics_of_defined (KeyRotation.key_stats m) ks ∅) as [rows Hrows].
  { intros k Hk. apply Hdom. rewrite Hkeys. exact Hk. }
  exists rows. unfold KeyRotation.get_statistics. rewrite Hkeys.
  split; [exact Hrows|]. split.
  - intros short. rewrite (statistics_of_dom _ _ _ _ short Hrows).
    rewrite lookup_empty. split.
    + intros [[x Hx]|H]; [discriminate|exact H].
    + intros H. right. exact H.
  - intros l1 k l2 st -> Hlast Hst.
    rewrite statistics_of_app in Hrows.
    destruct (KeyRotation.statistics_of (KeyRotation.key_stats m) l1 ∅) as [x|acc1];
      [discriminate|].
    simpl in Hrows. rewrite Hst, stat_row_value in Hrows.
    rewrite (statistics_of_other _ _ _ _ _ Hrows Hlast).
    apply lookup_insert_eq.
Qed.

Lemma get_statistics_rows_witness :
  exists rows,
    KeyRotation.get_statistics StatisticsExamples.twin_manager = inr rows /\
    rows !! "AIzaSyABCD..."%string =
      Some (KeyRotation.mkRow 2 1 (inject_Z 1 / inject_Z 2 * 100)%Q (Some "TIMEOUT"%string)).
Proof.
  destruct (get_statistics_rows "round_robin" ["AIzaSyABCD-one"; "AIzaSyABCD-two"]%string 95
              [KeyRotation.mkRequest 10 "AIzaSyABCD-one" true None;
               KeyRotation.mkRequest 20 "AIzaSyABCD-two" true None;
               KeyRotation.mkRequest 30 "AIzaSyABCD-two" false (Some "TIMEOUT"%string)])
    as (rows & Hrows & _ & Hrow).
  exists rows. split; [exact Hrows|].
  apply (Hrow ["AIzaSyABCD-one"%string] "AIzaSyABCD-two"%string []
           (KeyRotation.mkStats 2 1 (Some "TIMEOUT"%string) (Some 30))).
  - reflexivity.
  - intros k' Hk'. apply elem_of_nil in Hk'. contradiction.
  - vm_compute. reflexivity.
Defined.

(** ** Loading the keys *)

Section LoadingFacts.
Import KeyLoading.

Lemma rstrip_rstrip (s : string) : rstrip (rstrip s) = rstrip s.
Proof.
  induction s as [|c rest IH]; [reflexivity|].
  simpl. destruct (String.eqb (rstrip rest) EmptyString && is_space c) eqn:E;
    [reflexivity|].
  simpl. rewrite IH, E. reflexivity.
Qed.

Lemma lstrip_head (s : string) :
  match lstrip s with
  | EmptyString => True
  | String c _ => is_space c = false
  end.
Proof.
  induction s as [|c rest IH]; [exact I|].
  simpl. destruct (is_space c) eqn:E; [exact IH|exact E].
Qed.

Lemma lstrip_rstrip_head (s : string) :
  match s with
  | EmptyString => True
  | String c _ => is_space c = false
  end ->
  lstrip (rstrip s) = rstrip s.
Proof.
  destruct s as [|c rest]; [reflexivity|].
  intros Hc. simpl. rewrite Hc, andb_false_r. simpl. rewrite Hc. reflexivity.
Qed.

Lemma strip_strip (s : string) : strip (strip s) = strip s.
Proof.
  unfold strip. rewrite (lstrip_rstrip_head (lstrip s)) by apply lstrip_head.
  apply rstrip_rstrip.
Qed.

Lemma chars_lstrip (s : string) (c : ascii) : In c (chars (lstrip s)) -> In c (chars s).
Proof.
  induction s as [|d rest IH]; [auto|].
  simpl. destruct (is_space d); [intros H; right; apply IH, H|auto].
Qed.

Lemma chars_rstrip (s : string) (c : ascii) : In c (chars (rstrip s)) -> In c (chars s).
Proof.
  induction s as [|d rest IH]; [auto|].
  simpl. destruct (String.eqb (rstrip rest) EmptyString && is_space d);
    [intros []|].
  simpl. intros [H|H]; [left; exact H|right; apply IH, H].
Qed.

Lemma chars_strip (s : string) (c : ascii) : In c (chars (strip s)) -> In c (chars s).
Proof. unfold strip. intros H. apply chars_lstrip, chars_rstrip, H. Qed.

Lemma split_on_pieces (sep : ascii) (s piece : string) :
  In piece (split_on sep s) -> ~ In sep (chars piece).
Proof.
  revert piece. induction s as [|c rest IH]; intros piece.
  - simpl. intros [<-|[]]. simpl. auto.
  - simpl. destruct (Ascii.eqb_spec c sep) as [->|Hne].
    + intros [<-|H]; [simpl; auto|apply IH, H].
    + destruct (split_on sep rest) as [|p ps] eqn:E.
      * intros [<-|[]]. simpl. intros [H|[]]. congruence.
      * intros [<-|H].
        -- simpl. intros [H|H]; [congruence|].
           apply (IH p); [left; reflexivity|exact H].
        -- apply IH. right. exact H.
Qed.

Lemma individual_keys_valid (environ : gmap string string) (k : string) :
  In k (individual_keys environ) -> valid_individual k = true.
Proof.
  unfold individual_keys. intros H. apply in_flat_map in H as (name & _ & Hk).
  destruct (environ !! name) as [key|]; [|destruct Hk].
  destruct (valid_individual key) eqn:E; [|destruct Hk].
  destruct Hk as [<-|[]]. exact E.
Qed.

Lemma combined_keys_stripped (environ : gmap string string) (k : string) :
  In k (combined_keys environ) ->
  k <> EmptyString /\ strip k = k /\ ~ In "|"%char (chars k).
Proof.
  unfold combined_keys. destruct (environ !! "GOOGLE_API_KEYS"%string) as [combined|];
    [|intros []].
  destruct (negb (String.eqb combined EmptyString)
            && negb (String.eqb combined "key1|key2|key3")); [|intros []].
  intros H. apply in_flat_map in H as (piece & Hpiece & Hk).
  destruct (String.eqb_spec (strip piece) EmptyString) as [He|Hne]; [destruct Hk|].
  destruct Hk as [<-|[]]. split; [exact Hne|]. split; [apply strip_strip|].
  intros Hc. apply chars_strip in Hc. exact (split_on_pieces _ _ _ Hpiece Hc).
Qed.

Lemma single_key_nonempty (environ : gmap string string) (k : string) :
  In k (single_key environ) -> k <> EmptyString.
Proof.
  unfold single_key. destruct (environ !! "GOOGLE_API_KEY"%string) as [key|]; [|intros []].
  destruct (String.eqb_spec key EmptyString) as [He|Hne]; [intros []|].
  simpl. destruct (negb _); [|intros []]. intros [<-|[]]. exact Hne.
Qed.

End LoadingFacts.

(** X9.  [_load_keys] never yields an empty key.  Individually configured
    keys win: if any of [GOOGLE_API_KEY_1..9] holds a value starting with
    [AIza], exactly those values are loaded, in order, and the combined
    and single variables are ignored.  Keys taken from the combined
    variable carry no surrounding white space and no separator. *)
Theorem load_keys_wellformed (environ : gmap string string) :
  (forall k, In k (KeyLoading._load_keys environ) -> k <> EmptyString) /\
  (KeyLoading.individual_keys environ <> [] ->
   KeyLoading._load_keys environ = KeyLoading.individual_keys environ /\
   forall k, In k (KeyLoading._load_keys environ) -> startswith "AIza" k = true) /\
  (KeyLoading.individual_keys environ = [] ->
   KeyLoading.combined_keys environ <> [] ->
   KeyLoading._load_keys environ = KeyLoading.combined_keys environ /\
   forall k, In k (KeyLoading._load_keys environ) ->
     KeyLoading.strip k = k /\ ~ In "|"%char (KeyLoading.chars k)) /\
  (KeyLoading.individual_keys environ = [] ->
   KeyLoading.combined_keys environ = [] ->
   KeyLoading._load_keys environ = KeyLoading.single_key environ).
Proof.
  assert (Hvalid : forall k, KeyLoading.valid_individual k = true ->
            k <> EmptyString /\ startswith "AIza" k = true).
  { intros k H. unfold KeyLoading.valid_individual in H.
    apply andb_true_iff in H as [H Hs]. apply andb_true_iff in H as [He _].
    split; [|exact Hs]. intros ->. discriminate. }
  split; [|split; [|split]].
  - intros k. unfold KeyLoading._load_keys.
    destruct (KeyLoading.individual_keys environ) as [|i0 is0] eqn:Ei.
    + destruct (KeyLoading.combined_keys environ) as [|c0 cs0] eqn:Ec.
      * apply single_key_nonempty.
      * intros H. rewrite <- Ec in H. exact (proj1 (combined_keys_stripped _ _ H)).
    + intros H. rewrite <- Ei in H.
      exact (proj1 (Hvalid k (individual_keys_valid _ _ H))).
  - intros Hne. unfold KeyLoading._load_keys.
    destruct (KeyLoading.individual_keys environ) as [|i0 is0] eqn:Ei; [congruence|].
    split; [reflexivity|]. intros k H. rewrite <- Ei in H.
    exact (proj2 (Hvalid k (individual_keys_valid _ _ H))).
  - intros Hi Hc. unfold KeyLoading._load_keys. rewrite Hi.
    destruct (KeyLoading.combined_keys environ) as [|c0 cs0] eqn:Ec; [congruence|].
    split; [reflexivity|]. intros k H. rewrite <- Ec in H.
    exact (proj2 (combined_keys_stripped _ _ H)).
  - intros Hi Hc. unfold KeyLoading._load_keys. rewrite Hi, Hc. reflexivity.
Qed.

Lemma load_keys_wellformed_witness :
  KeyLoading._load_keys KeyLoading.combined_environ = ["AIzaOne"; "AIzaTwo"]%string /\
  KeyLoading._load_keys KeyLoading.mixed_environ = ["AIzaSecond"%string].
Proof.
  split.
  - destruct (load_keys_wellformed KeyLoading.combined_environ) as (_ & _ & Hc & _).
    destruct Hc as [Hc _]; [vm_compute; reflexivity|vm_compute; discriminate|].
    rewrite Hc. vm_compute. reflexivity.
  - destruct (load_keys_wellformed KeyLoading.mixed_environ) as (_ & Hi & _).
    destruct Hi as [Hi _]; [vm_compute; discriminate|].
    rewrite Hi. vm_compute. reflexivity.
Defined.

(** ** The post-processor: sentiment and weight *)

(** X10.  Both sentiment back ends answer with one of the three labels
    [positive], [negative] and [neutral], whatever the payload and
    whatever the classifier does: a missing TextBlob package, an exception
    of either classifier, and a Comprehend label such as [MIXED] all give
    [neutral]; on the TextBlob path the label is [positive] exactly for a
    polarity above 0.1 and [negative] exactly for one below -0.1. *)
Theorem calculate_sentiment_labels (json_loads : string -> option PostProcessor.json)
    (textblob : option (string -> option Q))
    (detect_sentiment : string -> option (option string))
    (USE_AWS_COMPREHEND : bool) (raw_text : string) :
  let label := PostProcessor.calculate_sentiment json_loads textblob detect_sentiment
                 USE_AWS_COMPREHEND raw_text in
  let text := PostProcessor.truncate (PostProcessor.text_content json_loads raw_text) in
  (label = "positive"%string \/ label = "negative"%string \/ label = "neutral"%string) /\
  (USE_AWS_COMPREHEND = false -> textblob = None -> label = "neutral"%string) /\
  (USE_AWS_COMPREHEND = false ->
   forall polarity_of, textblob = Some polarity_of ->
     match polarity_of text with
     | None => label = "neutral"%string
     | Some p =>
         (label = "positive"%string <-> (1 # 10 < p)%Q) /\
         (label = "negative"%string <-> (p < - (1 # 10))%Q)
     end) /\
  (USE_AWS_COMPREHEND = true -> detect_sentiment text = None -> label = "neutral"%string) /\
  (USE_AWS_COMPREHEND = true -> detect_sentiment text = Some (Some "MIXED"%string) ->
   label = "neutral"%string).
Proof.
  intros label text. unfold label, text, PostProcessor.calculate_sentiment.
  split; [|split; [|split; [|split]]].
  - destruct USE_AWS_COMPREHEND.
    + unfold PostProcessor.calculate_sentiment_aws.
      destruct (detect_sentiment _) as [response|]; [|auto].
      unfold PostProcessor.sentiment_map.
      destruct (String.eqb _ "positive"); [auto|].
      destruct (String.eqb _ "negative"); auto.
    + unfold PostProcessor.calculate_sentiment_textblob.
      destruct textblob as [polarity_of|]; [|auto].
      destruct (polarity_of _) as [p|]; [|auto].
      destruct (Qltb (1 # 10) p); [auto|].
      destruct (Qltb p (- (1 # 10))); auto.
  - intros -> ->. reflexivity.
  - intros -> polarity_of ->. unfold PostProcessor.calculate_sentiment_textblob.
    destruct (polarity_of _) as [p|]; [|reflexivity].
    destruct (Qltb (1 # 10) p) eqn:Hpos.
    + apply Qltb_true in Hpos. split; [split; auto|].
      split; [discriminate|]. intros Hneg. exfalso.
      assert (H : (1 # 10 < - (1 # 10))%Q) by (eapply Qlt_trans; eassumption).
      unfold Qlt in H. simpl in H. lia.
    + apply Qltb_false in Hpos. destruct (Qltb p (- (1 # 10))) eqn:Hneg.
      * apply Qltb_true in Hneg. split; [|split; auto].
        split; [discriminate|]. intros H. exfalso. exact (Qlt_not_le _ _ H Hpos).
      * apply Qltb_false in Hneg. split; (split; [discriminate|]); intros H; exfalso.
        -- exact (Qlt_not_le _ _ H Hpos).
        -- exact (Qlt_not_le _ _ H Hneg).
  - intros -> Hnone. unfold PostProcessor.calculate_sentiment_aws. rewrite Hnone. reflexivity.
  - intros -> Hmixed. unfold PostProcessor.calculate_sentiment_aws. rewrite Hmixed. reflexivity.
Qed.

Lemma calculate_sentiment_labels_witness :
  PostProcessor.calculate_sentiment PostProcessor.loads_examples None
    PostProcessor.no_comprehend false PostProcessor.doc_profile = "neutral"%string /\
  PostProcessor.calculate_sentiment PostProcessor.loads_examples None
    (fun _ => Some (Some "MIXED"%string)) true PostProcessor.doc_profile = "neutral"%string.
Proof.
  split.
  - destruct (calculate_sentiment_labels PostProcessor.loads_examples None
                PostProcessor.no_comprehend false PostProcessor.doc_profile)
      as (_ & Hmissing & _).
    apply Hmissing; reflexivity.
  - destruct (calculate_sentiment_labels PostProcessor.loads_examples None
                (fun _ => Some (Some "MIXED"%string)) true PostProcessor.doc_profile)
      as (_ & _ & _ & _ & Hmixed).
    apply Hmixed; reflexivity.
Defined.

Section WeightOrderFacts.
Import PostProcessor.








End WeightOrderFacts.




(** ** The post-processor: a batch of stream records *)

Section BatchFacts.
Import PostProcessor PostBatch.
Variable json_loads : string -> option json.
Variable textblob : option (string -> option Q).
Variable detect_sentiment : string -> option (option string).
Variable USE_AWS_COMPREHEND : bool.
Variable utcnow : nat -> string.
Variable fault : nat -> bool.

Local Abbreviation process_one :=
  (process_stream_record json_loads textblob detect_sentiment USE_AWS_COMPREHEND).
Local Abbreviation batch :=
  (process_records json_loads textblob detect_sentiment USE_AWS_COMPREHEND utcnow fault).
Local Abbreviation requests :=
  (updates_of json_loads textblob detect_sentiment USE_AWS_COMPREHEND utcnow).

(** One record: an update when it is complete, no effect otherwise. *)
Lemma process_stream_record_complete (now : string) (flt : bool)
    (record : StreamRecord) (tbl : Table) :
  process_one now flt record tbl =
  match complete record with
  | Some (cid, stt, raw, src) =>
      (inr (negb flt),
       snd (update_item flt
              (build_update now cid stt (calculate_weight json_loads raw src)
                 (calculate_sentiment json_loads textblob detect_sentiment
                    USE_AWS_COMPREHEND raw)) tbl))
  | None => (inr (negb (raises_key_error record)), tbl)
  end.
Proof.
  unfold process_stream_record, process_body, complete, raises_key_error.
  destruct record as [[event_name|] data]; simpl; [|reflexivity].
  destruct (String.eqb event_name "INSERT" || String.eqb event_name "MODIFY");
    simpl; [|destruct data as [[[image|]]|]; reflexivity].
  destruct data as [[[image|]]|]; simpl; try reflexivity.
  destruct (get_S image "celebrity_id") as [cid|]; [|reflexivity].
  destruct (get_S image "source_type#timestamp") as [stt|]; [|reflexivity].
  destruct (get_S image "raw_text") as [raw|]; [|reflexivity].
  destruct (get_S image "source") as [src|]; [|reflexivity].
  destruct (_ && _ && _ && _); [|reflexivity].
  unfold update_item. destruct flt; reflexivity.
Qed.

Lemma process_records_spec (records : list StreamRecord) (idx : nat)
    (s e : Z) (tbl : Table) :
  let out := batch idx records s e tbl in
  snd (fst out) = e + failures_of fault idx records /\
  fst (fst out) = s + (Z.of_nat (length records) - failures_of fault idx records) /\
  calls (snd out) = calls tbl ++ requests idx records /\
  (forall key, (forall u, u ∈ requests idx records -> Key u <> key) ->
     items (snd out) !! key = items tbl !! key).
Proof.
  revert idx s e tbl. induction records as [|record rest IH]; intros idx s e tbl.
  - simpl. repeat split; try lia. symmetry. apply app_nil_r.
  - cbn [process_records updates_of failures_of length].
    rewrite process_stream_record_complete.
    destruct (complete record) as [[[[cid stt] raw] src]|] eqn:Hc.
    + assert (Hr : raises_key_error record = false).
      { unfold complete in Hc. unfold raises_key_error.
        destruct (eventName record) as [ev|]; [|discriminate].
        destruct (dynamodb record) as [d|]; [|discriminate].
        rewrite bool_decide_eq_true_2 by eauto. apply andb_false_r. }
      rewrite Hr. cbn [orb].
      set (u := build_update _ _ _ _ _).
      destruct (fault idx) eqn:Hf; cbn [negb];
        specialize (IH (S idx)); cbv zeta in IH.
      * destruct (IH s (e + 1) (snd (update_item true u tbl))) as (He & Hs & Hcalls & Hitems).
        rewrite He, Hs, Hcalls, update_item_calls. repeat split; try lia.
        -- rewrite <- app_assoc. reflexivity.
        -- intros key Hkey. rewrite Hitems.
           ++ apply update_item_other. intros ->. apply (Hkey u); [|reflexivity].
              apply elem_of_app. left. apply list_elem_of_singleton. reflexivity.
           ++ intros u' Hu'. apply Hkey. apply elem_of_app. right. exact Hu'.
      * destruct (IH (s + 1) e (snd (update_item false u tbl))) as (He & Hs & Hcalls & Hitems).
        rewrite He, Hs, Hcalls, update_item_calls. repeat split; try lia.
        -- rewrite <- app_assoc. reflexivity.
        -- intros key Hkey. rewrite Hitems.
           ++ apply update_item_other. intros ->. apply (Hkey u); [|reflexivity].
              apply elem_of_app. left. apply list_elem_of_singleton. reflexivity.
           ++ intros u' Hu'. apply Hkey. apply elem_of_app. right. exact Hu'.
    + rewrite orb_false_r. cbn [app].
      specialize (IH (S idx)); cbv zeta in IH.
      destruct (raises_key_error record); cbn [negb].
      * destruct (IH s (e + 1) tbl) as (He & Hs & Hcalls & Hitems).
        rewrite He, Hs, Hcalls. repeat split; try lia. exact Hitems.
      * destruct (IH (s + 1) e tbl) as (He & Hs & Hcalls & Hitems).
        rewrite He, Hs, Hcalls. repeat split; try lia. exact Hitems.
Qed.

Lemma failures_of_bounds (records : list StreamRecord) (idx : nat) :
  0 <= failures_of fault idx records <= Z.of_nat (length records).
Proof.
  revert idx. induction records as [|record rest IH]; intros idx; [simpl; lia|].
  cbn [failures_of length]. specialize (IH (S idx)).
  destruct (_ || _); lia.
Qed.

End BatchFacts.

(** X13.  The post-processor's handler answers an event without
    ['Records'] with status 400 and leaves the table alone.  Otherwise it
    answers 200 and every record is counted once: the errors are the
    records that lack ['eventName'] (or ['dynamodb'] on an insert or
    modify) and the complete records whose update the store rejects, all
    others are successes.  A failing record stops nothing: the store
    receives, in order, exactly one update for each complete record of the
    batch, and items under other keys are untouched. *)
Theorem post_processor_batch (json_loads : string -> option PostProcessor.json)
    (textblob : option (string -> option Q))
    (detect_sentiment : string -> option (option string))
    (USE_AWS_COMPREHEND : bool) (utcnow : nat -> string) (fault : nat -> bool)
    (tbl : PostProcessor.Table) :
  let handler := PostBatch.lambda_handler json_loads textblob detect_sentiment
                   USE_AWS_COMPREHEND utcnow fault in
  let requests := PostBatch.updates_of json_loads textblob detect_sentiment
                    USE_AWS_COMPREHEND utcnow in
  handler None tbl = (PostBatch.mkResponse 400 0 0 0, tbl) /\
  forall records,
    let response := fst (handler (Some records) tbl) in
    let tbl' := snd (handler (Some records) tbl) in
    PostBatch.statusCode response = 200 /\
    PostBatch.total response = Z.of_nat (length records) /\
    PostBatch.errors response = PostBatch.failures_of fault 1 records /\
    PostBatch.success response + PostBatch.errors response = PostBatch.total response /\
    0 <= PostBatch.success response /\ 0 <= PostBatch.errors response /\
    PostProcessor.calls tbl' = PostProcessor.calls tbl ++ requests 1%nat records /\
    (forall key,
       (forall u, u ∈ requests 1%nat records -> PostProcessor.Key u <> key) ->
       PostProcessor.items tbl' !! key = PostProcessor.items tbl !! key).
Proof.
  intros handler requests. split; [reflexivity|].
  intros records response tbl'.
  pose proof (process_records_spec json_loads textblob detect_sentiment
                USE_AWS_COMPREHEND utcnow fault records 1 0 0 tbl) as H.
  cbv zeta in H. destruct H as (He & Hs & Hcalls & Hitems).
  pose proof (failures_of_bounds fault records 1) as Hb.
  unfold response, tbl', handler, PostBatch.lambda_handler.
  destruct (PostBatch.process_records _ _ _ _ _ _ _ _ _ _ _) as [[s e] t].
  cbn [fst snd PostBatch.statusCode PostBatch.total PostBatch.errors PostBatch.success] in *.
  repeat split; try lia; assumption.
Qed.

Lemma post_processor_batch_witness :
  let out := PostBatch.lambda_handler PostProcessor.loads_examples None
               PostProcessor.no_comprehend false (fun _ => "2024-05-01T12:00:00"%string)
               (fun _ => false) (Some PostBatch.example_batch)
               PostProcessor.scraped_table in
  PostBatch.errors (fst out) = 1 /\ PostBatch.success (fst out) = 2 /\
  length (PostProcessor.calls (snd out)) = 2%nat.
Proof.
  destruct (post_processor_batch PostProcessor.loads_examples None
              PostProcessor.no_comprehend false (fun _ => "2024-05-01T12:00:00"%string)
              (fun _ => false) PostProcessor.scraped_table) as [_ H].
  destruct (H PostBatch.example_batch) as (_ & Ht & He & Hs & _ & _ & Hc & _).
  cbv zeta. split; [|split].
  - rewrite He. vm_compute. reflexivity.
  - rewrite He, Ht in Hs. vm_compute in Hs. vm_compute. lia.
  - rewrite Hc. vm_compute. reflexivity.
Defined.

(** ** The YouTube scraper's store access *)

Section WriteFacts.
Import YouTubeStore.
Context {V : Type}.
Variable put_item : nat -> put_outcome.
Variable item : gmap string V.
Variable max_retries : Z.
Variable base_delay : Z.
Hypothesis base_delay_nonneg : 0 <= base_delay.

Local Abbreviation attempt_fails j := (exists x, try_write put_item item j = inl x).

Lemma failed_attempts_S (n : nat) :
  failed_attempts base_delay (S n) =
  failed_attempts base_delay n ++ [Put n; Sleep (base_delay * 2 ^ Z.of_nat n)].
Proof.
  unfold failed_attempts. rewrite seq_S, flat_map_app. simpl.
  reflexivity.
Qed.

Lemma failed_attempts_shift (a k : nat) :
  flat_map (fun j => [Put j; Sleep (base_delay * 2 ^ Z.of_nat j)]) (seq a (S k)) =
  Put a :: Sleep (base_delay * 2 ^ Z.of_nat a) ::
  flat_map (fun j => [Put j; Sleep (base_delay * 2 ^ Z.of_nat j)]) (seq (S a) k).
Proof. reflexivity. Qed.

Lemma backoff_sleeps (attempt : nat) (tr : list event) :
  (S attempt < Z.to_nat max_retries)%nat ->
  backoff max_retries base_delay attempt tr =
  inr (tr ++ [Sleep (base_delay * 2 ^ Z.of_nat attempt)]).
Proof.
  intros Hlt. unfold backoff, delay_of.
  destruct (Z.ltb_spec (Z.of_nat attempt) (max_retries - 1)) as [_|Hge]; [|lia].
  destruct (Z.ltb_spec (base_delay * 2 ^ Z.of_nat attempt) 0) as [Hneg|_]; [|reflexivity].
  assert (0 <= 2 ^ Z.of_nat attempt) by (apply Z.pow_nonneg; lia). nia.
Qed.

Lemma backoff_last (attempt : nat) (tr : list event) :
  S attempt = Z.to_nat max_retries ->
  backoff max_retries base_delay attempt tr = inr tr.
Proof.
  intros Heq. unfold backoff.
  destruct (Z.ltb_spec (Z.of_nat attempt) (max_retries - 1)) as [Hlt|_]; [lia|reflexivity].
Qed.

(** Failing attempts before the last one: each is followed by its sleep. *)
Lemma loop_failed_prefix (k a : nat) (rest : list nat) (tr : list event) :
  (a + k < Z.to_nat max_retries)%nat ->
  (forall j, (a <= j < a + k)%nat -> attempt_fails j) ->
  loop put_item item max_retries base_delay (seq a k ++ rest) tr =
  loop put_item item max_retries base_delay rest
    (tr ++ flat_map (fun j => [Put j; Sleep (base_delay * 2 ^ Z.of_nat j)]) (seq a k)).
Proof.
  revert a tr. induction k as [|k IH]; intros a tr Hlt Hfail.
  - simpl. rewrite app_nil_r. reflexivity.
  - rewrite failed_attempts_shift. cbn [seq app loop].
    destruct (Hfail a) as [x Hx]; [lia|]. rewrite Hx.
    rewrite backoff_sleeps by lia.
    rewrite IH; [|lia|intros j Hj; apply Hfail; lia].
    f_equal. rewrite <- !app_assoc. reflexivity.
Qed.

Lemma loop_first_success (k : nat) (rest : list nat) :
  (k < Z.to_nat max_retries)%nat ->
  (forall j, (j < k)%nat -> attempt_fails j) ->
  try_write put_item item k = inr tt ->
  loop put_item item max_retries base_delay (seq 0 k ++ k :: rest) [] =
  (inr true, failed_attempts base_delay k ++ [Put k]).
Proof.
  intros Hlt Hfail Hok.
  rewrite loop_failed_prefix; [|lia|intros j Hj; apply Hfail; lia].
  cbn [loop]. rewrite Hok. reflexivity.
Qed.

Lemma loop_exhausted :
  (forall j, (j < Z.to_nat max_retries)%nat -> attempt_fails j) ->
  write_scraper_entry_with_retry put_item item max_retries base_delay =
  (match item !! "name"%string with Some _ => inr false | None => inl KeyError end,
   exhausted_attempts base_delay (Z.to_nat max_retries)).
Proof.
  intros Hfail. unfold write_scraper_entry_with_retry, exhausted_attempts.
  destruct (Z.to_nat max_retries) as [|m] eqn:Hn.
  - simpl. destruct (item !! "name"%string); reflexivity.
  - rewrite seq_S. rewrite loop_failed_prefix; [|lia|intros j Hj; apply Hfail; lia].
    cbn [loop app plus]. destruct (Hfail m) as [x Hx]; [lia|]. rewrite Hx.
    rewrite backoff_last by lia. cbn [loop].
    destruct (item !! "name"%string); reflexivity.
Qed.

Lemma seq_split_at (k n : nat) :
  (k < n)%nat -> seq 0 n = seq 0 k ++ k :: seq (S k) (n - S k).
Proof.
  intros Hlt. replace n with (k + S (n - S k))%nat at 1 by lia.
  rewrite seq_app. reflexivity.
Qed.

Lemma first_stored (n : nat) :
  (exists k, (k < n)%nat /\ put_item k = Stored /\
             forall j, (j < k)%nat -> put_item j <> Stored) \/
  (forall j, (j < n)%nat -> put_item j <> Stored).
Proof.
  induction n as [|n IH]; [right; intros j Hj; lia|].
  destruct IH as [(k & Hk & Hs & Hb)|Hnone].
  - left. exists k. split; [lia|]. split; assumption.
  - destruct (put_item n) eqn:Hn.
    + left. exists n. split; [lia|]. split; assumption.
    + right. intros j Hj. destruct (Nat.eq_dec j n) as [->|Hne]; [congruence|].
      apply Hnone. lia.
    + right. intros j Hj. destruct (Nat.eq_dec j n) as [->|Hne]; [congruence|].
      apply Hnone. lia.
Qed.

Lemma stored_copies_app (tr1 tr2 : list event) :
  stored_copies put_item (tr1 ++ tr2) =
  (stored_copies put_item tr1 + stored_copies put_item tr2)%nat.
Proof. unfold stored_copies. rewrite List.filter_app, length_app. reflexivity. Qed.

Lemma stored_copies_failed (n : nat) :
  (forall j, (j < n)%nat -> put_item j <> Stored) ->
  stored_copies put_item (failed_attempts base_delay n) = 0%nat.
Proof.
  induction n as [|n IH]; intros Hnone; [reflexivity|].
  rewrite failed_attempts_S, stored_copies_app, IH by (intros j Hj; apply Hnone; lia).
  unfold stored_copies. simpl.
  specialize (Hnone n ltac:(lia)). destruct (put_item n); [congruence|reflexivity..].
Qed.

Lemma stored_copies_all (n : nat) :
  (forall j, put_item j = Stored) ->
  stored_copies put_item (failed_attempts base_delay n) = n.
Proof.
  intros Hall. induction n as [|n IH]; [reflexivity|].
  rewrite failed_attempts_S, stored_copies_app, IH.
  unfold stored_copies. simpl. rewrite Hall. simpl. lia.
Qed.

End WriteFacts.

(** X14.  Writing an entry that has a name, with a delay that is not
    negative, never raises.  It returns [True] exactly when one of the
    first [max_retries] calls of [put_item] succeeds: the function stops
    at the first such call, having slept [base_delay * 2^i] after each
    failed attempt [i] before it, so the item is stored once.  When every
    call fails it makes [max_retries] attempts, sleeps after all but the
    last, stores nothing and returns [False]. *)
Theorem write_entry_retries {V : Type} (put_item : nat -> YouTubeStore.put_outcome)
    (item : gmap string V) (max_retries base_delay : Z) :
  is_Some (item !! "name"%string) -> 0 <= base_delay ->
  let n := Z.to_nat max_retries in
  let run := YouTubeStore.write_scraper_entry_with_retry put_item item max_retries
               base_delay in
  (forall k, (k < n)%nat -> put_item k = YouTubeStore.Stored ->
     (forall j, (j < k)%nat -> put_item j <> YouTubeStore.Stored) ->
     run = (inr true,
            YouTubeStore.failed_attempts base_delay k ++ [YouTubeStore.Put k])) /\
  ((forall j, (j < n)%nat -> put_item j <> YouTubeStore.Stored) ->
   run = (inr false, YouTubeStore.exhausted_attempts base_delay n)) /\
  (exists b, fst run = inr b /\
     YouTubeStore.stored_copies put_item (snd run) = (if b then 1 else 0)%nat /\
     (b = true <-> exists k, (k < n)%nat /\ put_item k = YouTubeStore.Stored)).
Proof.
  intros [v Hname] Hdelay n run.
  assert (Hfails : forall j, put_item j <> YouTubeStore.Stored ->
            exists x, YouTubeStore.try_write put_item item j = inl x).
  { intros j Hj. unfold YouTubeStore.try_write.
    destruct (put_item j); [congruence|eauto..]. }
  assert (Hfirst : forall k, (k < n)%nat -> put_item k = YouTubeStore.Stored ->
            (forall j, (j < k)%nat -> put_item j <> YouTubeStore.Stored) ->
            run = (inr true,
                   YouTubeStore.failed_attempts base_delay k ++ [YouTubeStore.Put k])).
  { intros k Hk Hs Hbefore. unfold run, YouTubeStore.write_scraper_entry_with_retry.
    fold n. rewrite (seq_split_at k n Hk).
    apply loop_first_success; [exact Hdelay|exact Hk| |].
    - intros j Hj. apply Hfails, Hbefore, Hj.
    - unfold YouTubeStore.try_write. rewrite Hs, Hname. reflexivity. }
  assert (Hnone : (forall j, (j < n)%nat -> put_item j <> YouTubeStore.Stored) ->
            run = (inr false, YouTubeStore.exhausted_attempts base_delay n)).
  { intros Hall. unfold run. rewrite loop_exhausted; [|exact Hdelay|].
    - rewrite Hname. reflexivity.
    - intros j Hj. apply Hfails, Hall, Hj. }
  split; [exact Hfirst|]. split; [exact Hnone|].
  destruct (first_stored put_item n) as [(k & Hk & Hs & Hbefore)|Hall].
  - exists true. rewrite (Hfirst k Hk Hs Hbefore). cbn [fst snd].
    split; [reflexivity|]. split.
    + rewrite stored_copies_app, (stored_copies_failed put_item base_delay k Hbefore).
      unfold YouTubeStore.stored_copies. simpl. rewrite Hs. reflexivity.
    + split; [intros _; exists k; auto|reflexivity].
  - exists false. rewrite (Hnone Hall). cbn [fst snd].
    split; [reflexivity|]. split.
    + unfold YouTubeStore.exhausted_attempts. destruct n as [|m]; [reflexivity|].
      rewrite stored_copies_app, (stored_copies_failed put_item base_delay m)
        by (intros j Hj; apply Hall; lia).
      unfold YouTubeStore.stored_copies. simpl.
      specialize (Hall m ltac:(lia)).
      destruct (put_item m); [congruence|reflexivity..].
    + split; [discriminate|]. intros (k & Hk & Hs). exfalso. exact (Hall k Hk Hs).
Qed.

Lemma write_entry_retries_witness :
  YouTubeStore.write_scraper_entry_with_retry YouTubeStore.third_time
    YouTubeStore.named_item 3 1 =
  (inr true,
   [YouTubeStore.Put 0; YouTubeStore.Sleep 1; YouTubeStore.Put 1; YouTubeStore.Sleep 2;
    YouTubeStore.Put 2]).
Proof.
  assert (Hname : is_Some (YouTubeStore.named_item !! "name"%string))
    by (vm_compute; eauto).
  destruct (write_entry_retries YouTubeStore.third_time YouTubeStore.named_item 3 1
              Hname ltac:(lia)) as [Hfirst _].
  apply (Hfirst 2%nat).
  - vm_compute. lia.
  - reflexivity.
  - intros j Hj. destruct j as [|[|j]]; [discriminate|discriminate|lia].
Defined.

(** X15.  An entry without a ['name'] is never reported as written: the
    log line after a successful [put_item] raises [KeyError] inside the
    [try], which counts as a failed attempt.  The function goes through
    all [max_retries] attempts, so a store that accepts every write holds
    the item [max_retries] times, and the final log line raises
    [KeyError] out of the function. *)
Theorem write_entry_without_name {V : Type} (put_item : nat -> YouTubeStore.put_outcome)
    (item : gmap string V) (max_retries base_delay : Z) :
  item !! "name"%string = None -> 0 <= base_delay ->
  let n := Z.to_nat max_retries in
  let run := YouTubeStore.write_scraper_entry_with_retry put_item item max_retries
               base_delay in
  run = (inl YouTubeStore.KeyError, YouTubeStore.exhausted_attempts base_delay n) /\
  ((forall j, put_item j = YouTubeStore.Stored) ->
   YouTubeStore.stored_copies put_item (snd run) = n).
Proof.
  intros Hname Hdelay n run.
  assert (Hrun : run = (inl YouTubeStore.KeyError,
                        YouTubeStore.exhausted_attempts base_delay n)).
  { unfold run. rewrite loop_exhausted; [|exact Hdelay|].
    - rewrite Hname. reflexivity.
    - intros j _. unfold YouTubeStore.try_write. rewrite Hname.
      destruct (put_item j); eauto. }
  split; [exact Hrun|]. intros Hall. rewrite Hrun. cbn [snd].
  unfold YouTubeStore.exhausted_attempts. destruct n as [|m]; [reflexivity|].
  rewrite stored_copies_app, (stored_copies_all put_item base_delay m Hall).
  unfold YouTubeStore.stored_copies. simpl. rewrite Hall. simpl. lia.
Qed.

Lemma write_entry_without_name_witness :
  YouTubeStore.write_scraper_entry_with_retry (fun _ => YouTubeStore.Stored)
    YouTubeStore.nameless_item 3 1 =
  (inl YouTubeStore.KeyError,
   [YouTubeStore.Put 0; YouTubeStore.Sleep 1; YouTubeStore.Put 1; YouTubeStore.Sleep 2;
    YouTubeStore.Put 2]).
Proof.
  destruct (write_entry_without_name (fun _ => YouTubeStore.Stored)
              YouTubeStore.nameless_item 3 1 ltac:(reflexivity) ltac:(lia))
    as [Hrun _].
  exact Hrun.
Defined.

Section CelebrityFacts.
Import YouTubeStore.

Lemma py_eqb_sym (a b : pyval) : py_eqb a b = py_eqb b a.
Proof.
  destruct a as [|x|x|s], b as [|y|y|t]; simpl; try reflexivity.
  - destruct x, y; reflexivity.
  - apply Z.eqb_sym.
  - apply Z.eqb_sym.
  - apply Z.eqb_sym.
  - apply String.eqb_sym.
Qed.

Lemma in_map_false (x : pyval) (m : list Celebrity) :
  in_map x m = false <-> forall d, d ∈ m -> py_eqb x (celebrity_id d) = false.
Proof.
  unfold in_map. induction m as [|c m IH]; simpl.
  - split; [intros _ d Hd; inversion Hd|reflexivity].
  - rewrite orb_false_iff, IH. split.
    + intros [Hc Hm] d Hd. apply elem_of_cons in Hd as [->|Hd]; auto.
    + intros H. split; [apply H; left|intros d Hd; apply H; right; exact Hd].
Qed.

Lemma in_map_true (x : pyval) (m : list Celebrity) :
  in_map x m = true <-> exists d, d ∈ m /\ py_eqb x (celebrity_id d) = true.
Proof.
  unfold in_map. induction m as [|c m IH]; simpl.
  - split; [discriminate|intros (d & Hd & _); inversion Hd].
  - rewrite orb_true_iff, IH. split.
    + intros [Hc|(d & Hd & He)]; [exists c; split; [left|exact Hc]|].
      exists d. split; [right; exact Hd|exact He].
    + intros (d & Hd & He). apply elem_of_cons in Hd as [->|Hd]; [left; exact He|].
      right. exists d. split; assumption.
Qed.

Lemma in_map_app (x : pyval) (m added : list Celebrity) :
  in_map x m = true -> in_map x (m ++ added) = true.
Proof.
  rewrite !in_map_true. intros (d & Hd & He). exists d. split; [|exact He].
  apply elem_of_app. left. exact Hd.
Qed.

Lemma distinct_ids_nil : distinct_ids [].
Proof. intros i j c d H. rewrite lookup_nil in H. discriminate. Qed.

Lemma distinct_ids_snoc (m : list Celebrity) (c : Celebrity) :
  distinct_ids m -> in_map (celebrity_id c) m = false -> distinct_ids (m ++ [c]).
Proof.
  intros Hm Hc. rewrite in_map_false in Hc. intros i j a b Ha Hb Hij.
  apply lookup_snoc_Some in Ha as [[Hi Ha]|[Hi <-]];
    apply lookup_snoc_Some in Hb as [[Hj Hb]|[Hj <-]].
  - exact (Hm i j a b Ha Hb Hij).
  - rewrite py_eqb_sym. apply Hc. apply list_elem_of_lookup. eauto.
  - apply Hc. apply list_elem_of_lookup. eauto.
  - lia.
Qed.

Lemma metadata_pass_spec (items : list (gmap string pyval)) (m m' : list Celebrity) :
  metadata_pass items m = inr m' ->
  exists added,
    m' = m ++ added /\
    (forall c, c ∈ added ->
       truthy (celebrity_id c) = true /\
       exists item, item ∈ items /\ from_item c item /\ is_metadata item = inr true) /\
    (distinct_ids m -> distinct_ids m') /\
    (m' = [] -> forall item, item ∈ items ->
       truthy (dict_get item "celebrity_id") = true -> is_metadata item = inr false).
Proof.
  revert m. induction items as [|item rest IH]; intros m Hrun.
  - simpl in Hrun. injection Hrun as <-. exists []. rewrite app_nil_r.
    split; [reflexivity|]. split; [intros c Hc; inversion Hc|].
    split; [auto|]. intros _ it Hit. inversion Hit.
  - cbn [metadata_pass] in Hrun.
    destruct (truthy (dict_get item "celebrity_id")) eqn:Htruthy; cbn [andb] in Hrun;
      [destruct (in_map (dict_get item "celebrity_id") m) eqn:Hin; cbn [negb] in Hrun|].
    + destruct (IH m Hrun) as (added & -> & Hadded & Hdist & Hempty).
      exists added. split; [reflexivity|]. split; [|split; [exact Hdist|]].
      * intros c Hc. destruct (Hadded c Hc) as (Ht & it & Hit & Hfrom).
        split; [exact Ht|]. exists it. split; [right; exact Hit|exact Hfrom].
      * intros He. apply app_eq_nil in He as [-> _]. discriminate.
    + destruct (is_metadata item) as [x|[|]] eqn:Hmeta; [discriminate| |].
      * destruct (IH _ Hrun) as (added & -> & Hadded & Hdist & Hempty).
        exists (entry_of (dict_get item "celebrity_id") item :: added).
        split; [rewrite <- app_assoc; reflexivity|].
        split; [|split].
        -- intros c Hc. apply elem_of_cons in Hc as [->|Hc].
           ++ split; [exact Htruthy|]. exists item.
              split; [left|]. split; [split; reflexivity|exact Hmeta].
           ++ destruct (Hadded c Hc) as (Ht & it & Hit & Hfrom).
              split; [exact Ht|]. exists it. split; [right; exact Hit|exact Hfrom].
        -- intros Hm. apply Hdist. apply distinct_ids_snoc; [exact Hm|exact Hin].
        -- intros He. apply app_eq_nil in He as [He _].
           apply app_eq_nil in He as [_ He]. discriminate.
      * destruct (IH m Hrun) as (added & -> & Hadded & Hdist & Hempty).
        exists added. split; [reflexivity|]. split; [|split; [exact Hdist|]].
        -- intros c Hc. destruct (Hadded c Hc) as (Ht & it & Hit & Hfrom).
           split; [exact Ht|]. exists it. split; [right; exact Hit|exact Hfrom].
        -- intros He it Hit Htr. apply elem_of_cons in Hit as [->|Hit];
             [exact Hmeta|exact (Hempty He it Hit Htr)].
    + destruct (IH m Hrun) as (added & -> & Hadded & Hdist & Hempty).
      exists added. split; [reflexivity|]. split; [|split; [exact Hdist|]].
      * intros c Hc. destruct (Hadded c Hc) as (Ht & it & Hit & Hfrom).
        split; [exact Ht|]. exists it. split; [right; exact Hit|exact Hfrom].
      * intros He it Hit Htr. apply elem_of_cons in Hit as [->|Hit];
          [congruence|exact (Hempty He it Hit Htr)].
Qed.

Lemma unique_pass_spec (items : list (gmap string pyval)) (m : list Celebrity) :
  exists added,
    unique_pass items m = m ++ added /\
    (forall c, c ∈ added ->
       truthy (celebrity_id c) = true /\ exists item, item ∈ items /\ from_item c item) /\
    (distinct_ids m -> distinct_ids (unique_pass items m)) /\
    (forall item, item ∈ items -> truthy (dict_get item "celebrity_id") = true ->
       in_map (dict_get item "celebrity_id") (unique_pass items m) = true).
Proof.
  revert m. induction items as [|item rest IH]; intros m.
  - exists []. simpl. rewrite app_nil_r. split; [reflexivity|].
    split; [intros c Hc; inversion Hc|]. split; [auto|]. intros it Hit. inversion Hit.
  - cbn [unique_pass].
    destruct (truthy (dict_get item "celebrity_id")) eqn:Htruthy; cbn [andb];
      [destruct (in_map (dict_get item "celebrity_id") m) eqn:Hin; cbn [negb]|].
    + destruct (IH m) as (added & Heq & Hadded & Hdist & Hall).
      exists added. split; [exact Heq|]. split; [|split; [exact Hdist|]].
      * intros c Hc. destruct (Hadded c Hc) as (Ht & it & Hit & Hfrom).
        split; [exact Ht|]. exists it. split; [right; exact Hit|exact Hfrom].
      * intros it Hit Htr. apply elem_of_cons in Hit as [->|Hit]; [|exact (Hall it Hit Htr)].
        rewrite Heq. apply in_map_app. exact Hin.
    + destruct (IH (m ++ [entry_of (dict_get item "celebrity_id") item]))
        as (added & Heq & Hadded & Hdist & Hall).
      exists (entry_of (dict_get item "celebrity_id") item :: added).
      split; [rewrite Heq, <- app_assoc; reflexivity|]. split; [|split].
      * intros c Hc. apply elem_of_cons in Hc as [->|Hc].
        -- split; [exact Htruthy|]. exists item. split; [left|split; reflexivity].
        -- destruct (Hadded c Hc) as (Ht & it & Hit & Hfrom).
           split; [exact Ht|]. exists it. split; [right; exact Hit|exact Hfrom].
      * intros Hm. apply Hdist. apply distinct_ids_snoc; [exact Hm|exact Hin].
      * intros it Hit Htr. apply elem_of_cons in Hit as [->|Hit]; [|exact (Hall it Hit Htr)].
        rewrite Heq. apply in_map_app. apply in_map_true.
        exists (entry_of (dict_get item "celebrity_id") item).
        split; [apply elem_of_app; right; apply list_elem_of_singleton; reflexivity|].
        simpl. destruct (dict_get item "celebrity_id") as [|[|]|z|s]; simpl;
          try reflexivity; try discriminate.
        -- apply Z.eqb_refl.
        -- apply String.eqb_refl.
    + destruct (IH m) as (added & Heq & Hadded & Hdist & Hall).
      exists added. split; [exact Heq|]. split; [|split; [exact Hdist|]].
      * intros c Hc. destruct (Hadded c Hc) as (Ht & it & Hit & Hfrom).
        split; [exact Ht|]. exists it. split; [right; exact Hit|exact Hfrom].
      * intros it Hit Htr. apply elem_of_cons in Hit as [->|Hit];
          [congruence|exact (Hall it Hit Htr)].
Qed.

End CelebrityFacts.

(** X16.  The celebrities the YouTube scraper reads from a scan all have
    a truthy id, no two of them have equal ids, and each is built from a
    scanned item with that id, its name defaulting to [Unknown].  Metadata
    records take precedence: either every celebrity returned comes from a
    record whose sort key starts with [metadata#], or no record with a
    truthy id is a metadata record and then every such id is returned.  A
    scan that raises gives the empty list. *)
Theorem get_all_celebrities_unique (scan : YouTubeStore.scan_outcome) :
  let result := YouTubeStore.get_all_celebrities scan in
  let items := YouTubeStore.items_of scan in
  (scan = YouTubeStore.ScanRaises -> result = []) /\
  (forall c, c ∈ result ->
     truthy (YouTubeStore.celebrity_id c) = true /\
     exists item, item ∈ items /\ YouTubeStore.from_item c item) /\
  YouTubeStore.distinct_ids result /\
  ((forall c, c ∈ result ->
      exists item, item ∈ items /\ YouTubeStore.from_item c item /\
                   YouTubeStore.is_metadata item = inr true) \/
   ((forall item, item ∈ items -> truthy (dict_get item "celebrity_id") = true ->
       YouTubeStore.is_metadata item = inr false) /\
    (forall item, item ∈ items -> truthy (dict_get item "celebrity_id") = true ->
       exists c, c ∈ result /\
         py_eqb (dict_get item "celebrity_id") (YouTubeStore.celebrity_id c) = true))).
Proof.
  intros result items. unfold result, items.
  destruct scan as [|Items].
  - simpl. split; [reflexivity|]. split; [intros c Hc; inversion Hc|].
    split; [apply distinct_ids_nil|]. left. intros c Hc. inversion Hc.
  - split; [discriminate|].
    unfold YouTubeStore.get_all_celebrities.
    set (its := YouTubeStore.items_of (YouTubeStore.ScanReturns Items)).
    destruct (YouTubeStore.metadata_pass its []) as [x|m] eqn:Hpass.
    + split; [intros c Hc; inversion Hc|]. split; [apply distinct_ids_nil|].
      left. intros c Hc. inversion Hc.
    + destruct (metadata_pass_spec its [] m Hpass) as (added & Heq & Hadded & Hdist & Hempty).
      simpl in Heq. subst added.
      destruct m as [|c0 m].
      * destruct (unique_pass_spec its []) as (added & Heq & Hadded' & Hdist' & Hall).
        simpl in Heq. rewrite Heq in *.
        split; [exact Hadded'|]. split; [apply Hdist', distinct_ids_nil|].
        right. split; [exact (Hempty eq_refl)|].
        intros item Hitem Htr. apply in_map_true. exact (Hall item Hitem Htr).
      * split; [|split; [apply Hdist, distinct_ids_nil|left; intros c Hc; exact (proj2 (Hadded c Hc))]].
        intros c Hc. destruct (Hadded c Hc) as (Ht & it & Hit & Hfrom & _).
        split; [exact Ht|]. exists it. split; assumption.
Qed.

Lemma get_all_celebrities_unique_witness :
  YouTubeStore.get_all_celebrities
    (YouTubeStore.ScanReturns (Some YouTubeStore.scanned_items)) =
  [YouTubeStore.mkCelebrity (PStr "c1") (PStr "Ada")] /\
  YouTubeStore.distinct_ids
    (YouTubeStore.get_all_celebrities
       (YouTubeStore.ScanReturns (Some YouTubeStore.scanned_items))).
Proof.
  split; [vm_compute; reflexivity|].
  apply (get_all_celebrities_unique
           (YouTubeStore.ScanReturns (Some YouTubeStore.scanned_items))).
Defined.

(** ** The Instagram scraper *)

Section MetricsFacts.
Import MetricsCollector.

Lemma total_errors_record_failure (error_type : string) (m : t) :
  total_errors (record_failure error_type m) = total_errors m + 1.
Proof.
  unfold total_errors, record_failure. cbn [errors_by_type].
  destruct (errors_by_type m !! error_type) as [count|] eqn:Hlookup.
  - rewrite <- insert_delete_eq.
    rewrite map_fold_insert_L; [|intros; lia|apply lookup_delete_eq].
    rewrite (map_fold_delete_L (fun _ c acc => c + acc) 0 error_type count
               (errors_by_type m)); [|intros; lia|exact Hlookup].
    cbn. lia.
  - rewrite map_fold_insert_L; [|intros; lia|exact Hlookup].
    cbn. lia.
Qed.

Lemma balanced_init (now : Z) : balanced 0 0 (init now).
Proof.
  unfold balanced, init, total_errors. cbn.
  rewrite map_fold_empty. repeat split; try lia.
  intros error_type count H. rewrite lookup_empty in H. discriminate.
Qed.

Lemma balanced_record_success (n : Z) (m : t) :
  balanced n 0 m -> balanced (n + 1) 0 (record_success m).
Proof.
  unfold balanced, total_errors, record_success. cbn.
  intros (H1 & H2 & H3 & H4 & H5 & H6 & H7 & H8 & H9). repeat split; try lia. exact H9.
Qed.

Lemma balanced_record_rate_limited (n : Z) (m : t) :
  balanced n 0 m -> balanced (n + 1) 1 (record_rate_limited m).
Proof.
  unfold balanced, total_errors, record_rate_limited. cbn.
  intros (H1 & H2 & H3 & H4 & H5 & H6 & H7 & H8 & H9). repeat split; try lia. exact H9.
Qed.

Lemma balanced_record_failure (n : Z) (error_type : string) (m : t) :
  balanced n 0 m -> balanced (n + 1) 1 (record_failure error_type m).
Proof.
  intros (H1 & H2 & H3 & H4 & H5 & H6 & H7 & H8 & H9).
  unfold balanced. rewrite total_errors_record_failure.
  unfold record_failure; cbn [successful_scrapes failed_scrapes rate_limited not_found
                               errors_by_type retry_count].
  repeat split; try lia.
  intros ty count Hlookup. destruct (decide (error_type = ty)) as [->|Hne].
  - rewrite lookup_insert_eq in Hlookup. injection Hlookup as <-.
    destruct (errors_by_type m !! ty) as [c|] eqn:Hc; cbn; [|lia].
    specialize (H9 ty c Hc). lia.
  - rewrite lookup_insert_ne in Hlookup by exact Hne. exact (H9 ty count Hlookup).
Qed.

Lemma balanced_record_retry (n : Z) (m : t) :
  balanced n 1 m -> balanced n 0 (record_retry m).
Proof.
  unfold balanced, total_errors, record_retry. cbn.
  intros (H1 & H2 & H3 & H4 & H5 & H6 & H7 & H8 & H9). repeat split; try lia. exact H9.
Qed.

Lemma balanced_slack (n : Z) (m : t) : balanced n 1 m -> balanced n 0 m.
Proof.
  unfold balanced.
  intros (H1 & H2 & H3 & H4 & H5 & H6 & H7 & H8 & H9). repeat split; try lia. exact H9.
Qed.

End MetricsFacts.

Section ScraperFacts.
Import InstagramScraper.
Variable INSTAGRAM_MAX_RETRIES : Z.
Variable from_username : nat -> pyval -> fetch_outcome.
Variable utcnow : nat -> Z.
Variable login_raises : nat -> bool.

Local Abbreviation login := (login_next_account login_raises).
Local Abbreviation handler := (on_exception INSTAGRAM_MAX_RETRIES utcnow login_raises).
Local Abbreviation attempt_at :=
  (attempt_once INSTAGRAM_MAX_RETRIES from_username utcnow login_raises).
Local Abbreviation attempts :=
  (attempts_loop INSTAGRAM_MAX_RETRIES from_username utcnow login_raises).
Local Abbreviation scrape :=
  (scrape_instagram_profile INSTAGRAM_MAX_RETRIES from_username utcnow login_raises).

(** The invariant of the scraper: the counters and the breaker. *)
Local Abbreviation sound s :=
  (accounted s /\ BreakerRuns.consistent (circuit_breaker s)).

(** After the fetch of an attempt has been sent and before it is counted. *)
Local Abbreviation pending s :=
  (MetricsCollector.balanced (Z.of_nat (length (fetches (trace s))) - 1) 0 (metrics s)
   /\ BreakerRuns.consistent (circuit_breaker s)).

Lemma fetches_snoc (tr : list event) (e : event) :
  fetches (tr ++ [e]) = fetches tr ++ match e with Fetch h => [h] | _ => [] end.
Proof. unfold fetches. rewrite flat_map_app. simpl. rewrite app_nil_r. reflexivity. Qed.

Lemma login_fields (s : t) :
  let s' := snd (login s) in
  metrics s' = metrics s /\ circuit_breaker s' = circuit_breaker s /\
  processed_profiles s' = processed_profiles s /\
  fetches (trace s') = fetches (trace s) /\ accounts s' = accounts s.
Proof.
  unfold login_next_account. destruct (accounts s) as [|first rest] eqn:Hacc.
  - simpl. rewrite Hacc. repeat split; reflexivity.
  - cbv zeta. destruct (_ !! "username"%string) as [user|]; [|simpl; auto].
    destruct (_ !! "password"%string) as [password|]; [|simpl; auto].
    destruct (login_raises _); cbn; rewrite fetches_snoc, app_nil_r; auto.
Qed.

Lemma on_exception_sound (e : exc) (handle : pyval) (attempt : nat) (s : t) :
  pending s -> sound (snd (handler e handle attempt s)).
Proof.
  intros [Hm Hcb]. unfold accounted.
  set (n := Z.of_nat (length (fetches (trace s)))) in *.
  assert (Hfail : forall ty, MetricsCollector.balanced n 1
                    (MetricsCollector.record_failure ty (metrics s))).
  { intros ty. replace n with (n - 1 + 1) by lia.
    apply balanced_record_failure. exact Hm. }
  destruct e; unfold on_exception; cbv zeta.
  - cbn. split; [apply balanced_slack, Hfail|exact Hcb].
  - cbn. split; [apply balanced_slack, Hfail|exact Hcb].
  - destruct (may_retry _ _).
    + pose proof (login_fields (count_failure "login_required" s)) as Hl.
      cbv zeta in Hl. destruct Hl as (Hlm & Hlc & _ & Hlf & _).
      destruct (login _) as [[x|v] s'] eqn:Hlogin; cbn [snd] in *.
      * rewrite Hlm, Hlc, Hlf. cbn. split; [apply balanced_slack, Hfail|exact Hcb].
      * cbn [count_retry with_metrics trace metrics circuit_breaker].
        rewrite Hlm, Hlc, Hlf. cbn.
        split; [apply balanced_record_retry, Hfail|exact Hcb].
    + cbn. split; [apply balanced_slack, Hfail|exact Hcb].
  - assert (Hrl : MetricsCollector.balanced n 1
                    (MetricsCollector.record_rate_limited (metrics s))).
    { replace n with (n - 1 + 1) by lia. apply balanced_record_rate_limited. exact Hm. }
    assert (Hcb' : BreakerRuns.consistent
                     (CircuitBreaker.record_failure (utcnow (steps s)) (circuit_breaker s))).
    { exact (step_consistent (BreakerRuns.Failure (utcnow (steps s))) _ Hcb). }
    destruct (may_retry _ _); cbn; rewrite ?fetches_snoc, ?app_nil_r.
    + split; [apply balanced_record_retry, Hrl|exact Hcb'].
    + split; [apply balanced_slack, Hrl|exact Hcb'].
  - destruct (may_retry _ _); cbn; rewrite ?fetches_snoc, ?app_nil_r.
    + split; [apply balanced_record_retry, Hfail|exact Hcb].
    + split; [apply balanced_slack, Hfail|exact Hcb].
Qed.

Lemma attempt_once_sound (handle : pyval) (attempt : nat) (s : t) :
  sound s -> sound (snd (attempt_at handle attempt s)).
Proof.
  intros [Hm Hcb]. unfold accounted in Hm. unfold attempt_once. cbv zeta.
  assert (Hp : forall p,
            pending (with_processed p (consult (emit (Fetch handle) s)))).
  { intros p. cbn. rewrite fetches_snoc, length_app. cbn [length].
    split; [|exact Hcb].
    replace (Z.of_nat (length (fetches (trace s)) + 1) - 1)
      with (Z.of_nat (length (fetches (trace s)))) by lia.
    exact Hm. }
  destruct (from_username _ _) as [profile|e|e].
  - cbn. unfold accounted. cbn. rewrite fetches_snoc, length_app. cbn [length].
    split.
    + replace (Z.of_nat (length (fetches (trace s)) + 1))
        with (Z.of_nat (length (fetches (trace s))) + 1) by lia.
      apply balanced_record_success. exact Hm.
    + exact (step_consistent BreakerRuns.Success _ Hcb).
  - apply on_exception_sound.
    exact (Hp (processed_profiles (consult (emit (Fetch handle) s)))).
  - apply on_exception_sound. apply Hp.
Qed.

Lemma attempts_loop_sound (handle : pyval) (todo : list nat) (s : t) :
  sound s -> sound (snd (attempts handle todo s)).
Proof.
  revert s. induction todo as [|attempt rest IH]; intros s Hs; [exact Hs|].
  cbn [attempts_loop]. pose proof (attempt_once_sound handle attempt s Hs) as H1.
  destruct (attempt_at handle attempt s) as [[x|[|success data]] s1]; cbn [snd] in *.
  - exact H1.
  - apply IH. exact H1.
  - exact H1.
Qed.

Lemma breaker_can_execute_sound (s : t) :
  sound s -> sound (snd (breaker_can_execute utcnow s)).
Proof.
  intros [Hm Hcb]. unfold breaker_can_execute.
  pose proof (step_consistent (BreakerRuns.Check (utcnow (steps s))) _ Hcb) as Hstep.
  cbn [BreakerRuns.step] in Hstep.
  destruct (CircuitBreaker.can_execute _ _) as [answer cb]. cbn in *.
  split; [exact Hm|exact Hstep].
Qed.

Lemma scrape_sound (handle : pyval) (s : t) : sound s -> sound (snd (scrape handle s)).
Proof.
  intros Hs. unfold scrape_instagram_profile.
  pose proof (breaker_can_execute_sound s Hs) as H1.
  destruct (breaker_can_execute utcnow s) as [[|] s1]; cbn [snd] in *; [|exact H1].
  destruct (set_mem _ _); [exact H1|]. apply attempts_loop_sound. exact H1.
Qed.

Variable put_item_raises : nat -> bool.

Local Abbreviation save := (save_to_dynamodb utcnow put_item_raises).
Local Abbreviation process :=
  (process_celebrity INSTAGRAM_MAX_RETRIES from_username utcnow login_raises
     put_item_raises).
Local Abbreviation process_list :=
  (process_all INSTAGRAM_MAX_RETRIES from_username utcnow login_raises put_item_raises).

Lemma save_sound (cid name : pyval) (data : Data) (s : t) :
  sound s -> sound (snd (save cid name data s)).
Proof.
  intros [Hm Hcb]. unfold save_to_dynamodb, accounted in *. cbn.
  rewrite fetches_snoc, app_nil_r. split; assumption.
Qed.

Lemma process_celebrity_sound (celebrity : gmap string pyval) (s : t) :
  sound s -> sound (snd (process celebrity s)).
Proof.
  intros Hs. unfold process_celebrity. cbv zeta.
  destruct (negb _); [exact Hs|].
  pose proof (scrape_sound (handle_of celebrity) s Hs) as H1.
  destruct (scrape _ s) as [[x|[[|] data]] s1]; cbn [snd] in *; try exact H1.
  pose proof (save_sound (dict_get celebrity "celebrity_id")
                (dict_get_default celebrity "name" (PStr "Unknown")) data s1 H1) as H2.
  destruct (save _ _ _ s1) as [saved s2]. exact H2.
Qed.

Lemma process_all_sound (celebrities : list (gmap string pyval)) (results : Results)
    (s : t) :
  sound s -> sound (snd (process_list celebrities results s)).
Proof.
  revert results s. induction celebrities as [|celebrity rest IH]; intros results s Hs;
    [exact Hs|].
  cbn [process_all]. pose proof (process_celebrity_sound celebrity s Hs) as H1.
  destruct (process celebrity s) as [[x|result] s1]; cbn [snd] in *; [exact H1|].
  apply IH. exact H1.
Qed.

Lemma init_sound (accounts : list (gmap string pyval)) : sound (init utcnow accounts).
Proof.
  split; [apply balanced_init|apply init_consistent].
Qed.

End ScraperFacts.

(** X17.  Whatever Instagram, the clock and the store do, and also when
    the invocation ends in an error, the scraper's counters account for
    its requests: every fetch is counted exactly once, as a successful
    scrape, a failed scrape or a rate limit; [failed_scrapes] is the sum
    of [errors_by_type], whose entries are all positive; there are no more
    retries than fetches; [not_found] stays 0.  The breaker is open
    exactly when its failure count has reached the threshold. *)
Theorem scraper_accounts_every_fetch (INSTAGRAM_MAX_RETRIES : Z)
    (from_username : nat -> pyval -> InstagramScraper.fetch_outcome)
    (utcnow : nat -> Z) (login_raises put_item_raises : nat -> bool)
    (secret : InstagramScraper.secret_outcome)
    (event_celebrities scan : option (list (gmap string pyval))) :
  match snd (InstagramScraper.lambda_handler INSTAGRAM_MAX_RETRIES from_username utcnow
               login_raises put_item_raises secret event_celebrities scan) with
  | None => InstagramScraper.load_accounts secret = inl InstagramScraper.SetupError
  | Some s =>
      let m := InstagramScraper.metrics s in
      let n := Z.of_nat (length (InstagramScraper.fetches (InstagramScraper.trace s))) in
      MetricsCollector.successful_scrapes m + MetricsCollector.failed_scrapes m
        + MetricsCollector.rate_limited m = n /\
      MetricsCollector.failed_scrapes m = MetricsCollector.total_errors m /\
      (forall error_type count,
         MetricsCollector.errors_by_type m !! error_type = Some count -> 0 < count) /\
      0 <= MetricsCollector.retry_count m <= n /\
      MetricsCollector.not_found m = 0 /\
      BreakerRuns.consistent (InstagramScraper.circuit_breaker s)
  end.
Proof.
  unfold InstagramScraper.lambda_handler.
  destruct (InstagramScraper.load_accounts secret) as [x|accounts] eqn:Hload.
  - cbn. destruct secret; try discriminate. symmetry. exact Hload.
  - assert (Hgoal : forall s,
              InstagramScraper.accounted s /\
              BreakerRuns.consistent (InstagramScraper.circuit_breaker s) ->
              let m := InstagramScraper.metrics s in
              let n := Z.of_nat (length (InstagramScraper.fetches
                                           (InstagramScraper.trace s))) in
              MetricsCollector.successful_scrapes m + MetricsCollector.failed_scrapes m
                + MetricsCollector.rate_limited m = n /\
              MetricsCollector.failed_scrapes m = MetricsCollector.total_errors m /\
              (forall error_type count,
                 MetricsCollector.errors_by_type m !! error_type = Some count ->
                 0 < count) /\
              0 <= MetricsCollector.retry_count m <= n /\
              MetricsCollector.not_found m = 0 /\
              BreakerRuns.consistent (InstagramScraper.circuit_breaker s)).
    { intros s [(H1 & H2 & H3 & H4 & H5 & H6 & H7 & H8 & H9) Hcb]. cbv zeta.
      split; [exact H1|]. split; [exact H2|]. split; [exact H9|].
      split; [lia|]. split; [exact H3|exact Hcb]. }
    cbv zeta.
    set (celebrities := match event_celebrities with
                        | Some c => c
                        | None => InstagramScraper.get_celebrities_from_dynamodb scan
                        end).
    destruct celebrities as [|celebrity rest] eqn:Hc.
    + cbn [snd]. apply Hgoal. apply init_sound.
    + pose proof (process_all_sound INSTAGRAM_MAX_RETRIES from_username utcnow
                    login_raises put_item_raises (celebrity :: rest)
                    (InstagramScraper.mkResults
                       (Z.of_nat (length (celebrity :: rest))) 0 0 0 [])
                    (InstagramScraper.consult (InstagramScraper.init utcnow accounts)))
        as Hs.
      destruct (InstagramScraper.process_all _ _ _ _ _ _ _ _) as [[x|results] s];
        cbn [snd] in *; apply Hgoal, Hs, (init_sound utcnow accounts).
Qed.

Ltac split_all := repeat match goal with |- _ /\ _ => split end.

Ltac known_failure := do 2 eexists; split; [reflexivity|cbn; tauto].

Section ScraperFrameFacts.
Import InstagramScraper.
Variable INSTAGRAM_MAX_RETRIES : Z.
Variable from_username : nat -> pyval -> fetch_outcome.
Variable utcnow : nat -> Z.
Variable login_raises : nat -> bool.

Local Abbreviation login := (login_next_account login_raises).
Local Abbreviation handler := (on_exception INSTAGRAM_MAX_RETRIES utcnow login_raises).
Local Abbreviation attempt_at :=
  (attempt_once INSTAGRAM_MAX_RETRIES from_username utcnow login_raises).
Local Abbreviation attempts :=
  (attempts_loop INSTAGRAM_MAX_RETRIES from_username utcnow login_raises).
Local Abbreviation scrape :=
  (scrape_instagram_profile INSTAGRAM_MAX_RETRIES from_username utcnow login_raises).

Local Abbreviation named accs :=
  (Forall (fun account : gmap string pyval => is_Some (account !! "username"%string)) accs).

Lemma py_eqb_refl (v : pyval) : py_eqb v v = true.
Proof.
  destruct v as [|b|z|s]; simpl; [reflexivity|destruct b; reflexivity| |].
  - apply Z.eqb_refl.
  - apply String.eqb_refl.
Qed.

Lemma set_mem_add (h h' : pyval) (members : list pyval) :
  set_mem h' members = true -> set_mem h' (set_add h members) = true.
Proof.
  intros Hm. unfold set_add. destruct (set_mem h members); [exact Hm|].
  unfold set_mem in *. rewrite existsb_app, Hm. reflexivity.
Qed.

Lemma set_mem_added (h : pyval) (members : list pyval) :
  set_mem h (set_add h members) = true.
Proof.
  unfold set_add. destruct (set_mem h members) eqn:Hm; [exact Hm|].
  unfold set_mem. rewrite existsb_app. simpl. rewrite py_eqb_refl.
  apply orb_true_iff. right. reflexivity.
Qed.

Lemma stored_items_snoc (tr : list event) (e : event) :
  stored_items (tr ++ [e]) =
  stored_items tr ++ match e with PutItem _ _ _ _ true => [e] | _ => [] end.
Proof.
  unfold stored_items. rewrite flat_map_app. simpl. rewrite app_nil_r. reflexivity.
Qed.

Lemma fetches_snoc' (tr : list event) (e : event) :
  fetches (tr ++ [e]) = fetches tr ++ match e with Fetch h => [h] | _ => [] end.
Proof. unfold fetches. rewrite flat_map_app. simpl. rewrite app_nil_r. reflexivity. Qed.

Lemma sleeps_snoc (tr : list event) (e : event) :
  sleeps (tr ++ [e]) = sleeps tr ++ match e with Sleep d => [d] | _ => [] end.
Proof. unfold sleeps. rewrite flat_map_app. simpl. rewrite app_nil_r. reflexivity. Qed.

(** What a login leaves alone, and when it cannot raise. *)
Lemma login_frame (s : t) :
  let r := fst (login s) in
  let s' := snd (login s) in
  accounts s' = accounts s /\ processed_profiles s' = processed_profiles s /\
  metrics s' = metrics s /\ circuit_breaker s' = circuit_breaker s /\
  fetches (trace s') = fetches (trace s) /\
  sleeps (trace s') = sleeps (trace s) /\
  stored_items (trace s') = stored_items (trace s) /\
  (named (accounts s) -> exists v, r = inr v).
Proof.
  unfold login_next_account. destruct (accounts s) as [|first rest] eqn:Hacc.
  - simpl. rewrite Hacc. split_all; eauto.
  - cbv zeta.
    set (account := nth _ _ _).
    assert (Hin : In account (first :: rest)).
    { unfold account.
      destruct (nth_in_or_default
                  (Z.to_nat (account_index s mod Z.of_nat (length (first :: rest))))
                  (first :: rest) first) as [H|H]; [exact H|].
      rewrite H. left. reflexivity. }
    destruct (account !! "username"%string) as [user|] eqn:Huser.
    + destruct (account !! "password"%string) as [password|].
      * destruct (login_raises _); cbn;
          rewrite fetches_snoc', sleeps_snoc, stored_items_snoc, !app_nil_r;
          split_all; eauto.
      * cbn. split_all; eauto.
    + cbn. split_all; auto. intros Hnamed. exfalso.
      rewrite Forall_forall in Hnamed. specialize (Hnamed account).
      rewrite <- list_elem_of_In in Hin. destruct (Hnamed Hin) as [u Hu]. congruence.
Qed.

(** The handlers: no fetch, no write, the set of processed profiles
    untouched, and a return is a failure. *)
Lemma on_exception_frame (e : exc) (handle : pyval) (attempt : nat) (s : t) :
  let r := fst (handler e handle attempt s) in
  let s' := snd (handler e handle attempt s) in
  accounts s' = accounts s /\ processed_profiles s' = processed_profiles s /\
  fetches (trace s') = fetches (trace s) /\
  stored_items (trace s') = stored_items (trace s) /\
  (forall success data, r = inr (Return success data) ->
     success = false /\ exists st er, data = Failure st er /\ In st failure_statuses) /\
  (named (accounts s) -> exists c, r = inr c).
Proof.
  clear from_username. destruct e; unfold on_exception; cbv zeta.
  - cbn. split_all; eauto; intros ? ? [= <- <-]; (split; [reflexivity|known_failure]).
  - cbn. split_all; eauto; intros ? ? [= <- <-]; (split; [reflexivity|known_failure]).
  - destruct (may_retry _ _).
    + pose proof (login_frame (count_failure "login_required" s)) as Hl.
      cbv zeta in Hl. destruct Hl as (Ha & Hp & _ & _ & Hf & _ & Hst & Hn).
      destruct (login _) as [[x|v] s1]; cbn [fst snd] in *.
      * split_all; try assumption; [discriminate..|].
        intros Hnamed. destruct (Hn Hnamed) as [v Hv]. discriminate.
      * cbn. split_all; try assumption; [discriminate..|eauto].
    + cbn. split_all; eauto; intros ? ? [= <- <-]; (split; [reflexivity|known_failure]).
  - destruct (may_retry _ _); cbn;
      rewrite ?fetches_snoc', ?stored_items_snoc, ?app_nil_r.
    + split_all; eauto; discriminate.
    + split_all; eauto; intros ? ? [= <- <-]; (split; [reflexivity|known_failure]).
  - destruct (may_retry _ _); cbn;
      rewrite ?fetches_snoc', ?stored_items_snoc, ?app_nil_r;
      split_all; eauto; discriminate.
Qed.

(** One attempt: one fetch of the handle. *)
Lemma attempt_once_frame (handle : pyval) (attempt : nat) (s : t) :
  let r := fst (attempt_at handle attempt s) in
  let s' := snd (attempt_at handle attempt s) in
  accounts s' = accounts s /\
  (forall h, set_mem h (processed_profiles s) = true ->
             set_mem h (processed_profiles s') = true) /\
  fetches (trace s') = fetches (trace s) ++ [handle] /\
  stored_items (trace s') = stored_items (trace s) /\
  (forall success data, r = inr (Return success data) ->
     if success then
       (exists p, data = ProfileData p) /\
       set_mem handle (processed_profiles s') = true /\
       CircuitBreaker.failure_count (circuit_breaker s') = 0 /\
       CircuitBreaker.is_open (circuit_breaker s') = false
     else exists st er, data = Failure st er /\ In st failure_statuses) /\
  (named (accounts s) -> exists c, r = inr c).
Proof.
  unfold attempt_once. cbv zeta.
  destruct (from_username _ _) as [profile|e|e].
  - cbn. rewrite fetches_snoc', stored_items_snoc, app_nil_r.
    split; [reflexivity|]. split; [intros h; apply set_mem_add|].
    split; [reflexivity|]. split; [reflexivity|]. split; [|eauto].
    intros success data [= <- <-]. split; [eauto|].
    split; [apply set_mem_added|]. split; reflexivity.
  - pose proof (on_exception_frame e handle attempt
                  (consult (emit (Fetch handle) s))) as H.
    cbv zeta in H. destruct H as (Ha & Hp & Hf & Hst & Hr & Hn).
    rewrite Ha, Hp, Hf, Hst. cbn. rewrite fetches_snoc', stored_items_snoc, app_nil_r.
    split; [reflexivity|]. split; [auto|]. split; [reflexivity|].
    split; [reflexivity|]. split; [|exact Hn].
    intros success data Heq. destruct (Hr success data Heq) as [-> Hd]. exact Hd.
  - pose proof (on_exception_frame e handle attempt
                  (with_processed
                     (set_add handle (processed_profiles (consult (emit (Fetch handle) s))))
                     (consult (emit (Fetch handle) s)))) as H.
    cbv zeta in H. destruct H as (Ha & Hp & Hf & Hst & Hr & Hn).
    rewrite Ha, Hp, Hf, Hst. cbn. rewrite fetches_snoc', stored_items_snoc, app_nil_r.
    split; [reflexivity|]. split; [intros h; apply set_mem_add|]. split; [reflexivity|].
    split; [reflexivity|]. split; [|exact Hn].
    intros success data Heq. destruct (Hr success data Heq) as [-> Hd]. exact Hd.
Qed.

(** What a successful scrape leaves behind. *)
Local Abbreviation scraped handle success data s' :=
  (if success : bool then
     (exists p, data = ProfileData p) /\
     set_mem handle (processed_profiles s') = true /\
     CircuitBreaker.failure_count (circuit_breaker s') = 0 /\
     CircuitBreaker.is_open (circuit_breaker s') = false
   else exists st er, data = Failure st er /\ In st failure_statuses).

Lemma attempts_loop_frame (handle : pyval) (todo : list nat) (s : t) :
  let r := fst (attempts handle todo s) in
  let s' := snd (attempts handle todo s) in
  accounts s' = accounts s /\
  (forall h, set_mem h (processed_profiles s) = true ->
             set_mem h (processed_profiles s') = true) /\
  (exists k, (k <= length todo)%nat /\
             fetches (trace s') = fetches (trace s) ++ repeat handle k) /\
  stored_items (trace s') = stored_items (trace s) /\
  (forall success data, r = inr (success, data) -> scraped handle success data s') /\
  (named (accounts s) -> exists c, r = inr c).
Proof.
  revert s. induction todo as [|attempt rest IH]; intros s.
  - cbn. split; [reflexivity|]. split; [auto|].
    split; [exists 0%nat; split; [lia|]; simpl; rewrite app_nil_r; reflexivity|].
    split; [reflexivity|]. split; [|eauto].
    intros success data [= <- <-]. known_failure.
  - cbn [attempts_loop].
    pose proof (attempt_once_frame handle attempt s) as H1. cbv zeta in H1.
    destruct H1 as (Ha & Hp & Hf & Hst & Hr & Hn).
    destruct (attempt_at handle attempt s) as [[x|[|success data]] s1];
      cbn [fst snd] in *.
    + split; [exact Ha|]. split; [exact Hp|].
      split; [exists 1%nat; split; [simpl; lia|exact Hf]|].
      split; [exact Hst|]. split; [discriminate|].
      intros Hnamed. destruct (Hn Hnamed) as [c Hc]. discriminate.
    + specialize (IH s1). cbv zeta in IH.
      destruct IH as (Ha' & Hp' & (k & Hk & Hf') & Hst' & Hr' & Hn').
      split; [congruence|]. split; [auto|].
      split; [exists (S k); split; [simpl; lia|]|].
      { rewrite Hf', Hf, <- app_assoc. reflexivity. }
      split; [congruence|]. split; [exact Hr'|].
      intros Hnamed. apply Hn'. rewrite Ha. exact Hnamed.
    + split; [exact Ha|]. split; [exact Hp|].
      split; [exists 1%nat; split; [simpl; lia|exact Hf]|].
      split; [exact Hst|]. split; [|eauto].
      intros success' data' [= <- <-]. exact (Hr success data eq_refl).
Qed.

Lemma breaker_can_execute_frame (s : t) :
  let s' := snd (breaker_can_execute utcnow s) in
  accounts s' = accounts s /\ processed_profiles s' = processed_profiles s /\
  trace s' = trace s /\ metrics s' = metrics s /\ steps s' = S (steps s) /\
  circuit_breaker s' = snd (CircuitBreaker.can_execute (utcnow (steps s)) (circuit_breaker s)) /\
  fst (breaker_can_execute utcnow s) =
  fst (CircuitBreaker.can_execute (utcnow (steps s)) (circuit_breaker s)).
Proof.
  unfold breaker_can_execute. destruct (CircuitBreaker.can_execute _ _) as [answer cb].
  cbn. split_all; reflexivity.
Qed.

(** A scrape: at most [INSTAGRAM_MAX_RETRIES] fetches, all of the handle,
    and none for a handle already in the set. *)
Lemma scrape_frame (handle : pyval) (s : t) :
  let r := fst (scrape handle s) in
  let s' := snd (scrape handle s) in
  accounts s' = accounts s /\
  (forall h, set_mem h (processed_profiles s) = true ->
             set_mem h (processed_profiles s') = true) /\
  (exists k, (k <= Z.to_nat INSTAGRAM_MAX_RETRIES)%nat /\
             fetches (trace s') = fetches (trace s) ++ repeat handle k /\
             (set_mem handle (processed_profiles s) = true -> k = 0%nat)) /\
  stored_items (trace s') = stored_items (trace s) /\
  (forall success data, r = inr (success, data) -> scraped handle success data s') /\
  (set_mem handle (processed_profiles s) = true ->
   exists st er, r = inr (false, Failure st er) /\
                 (st = RATE_LIMITED \/ st = "duplicate"%string)) /\
  (named (accounts s) -> exists c, r = inr c).
Proof.
  unfold scrape_instagram_profile.
  pose proof (breaker_can_execute_frame s) as Hb. cbv zeta in Hb.
  destruct Hb as (Ha & Hp & Ht & _ & _ & _ & _).
  destruct (breaker_can_execute utcnow s) as [[|] s1]; cbn [fst snd] in *.
  - destruct (set_mem handle (processed_profiles s1)) eqn:Hmem; cbn [fst snd].
    + rewrite Hp in Hmem. split; [exact Ha|]. split; [rewrite Hp; auto|].
      split; [exists 0%nat; rewrite Ht; simpl; rewrite app_nil_r; split; [lia|auto]|].
      split; [rewrite Ht; reflexivity|].
      split; [intros success data [= <- <-]; known_failure|].
      split; [|eauto]. intros _. eauto.
    + pose proof (attempts_loop_frame handle (seq 0 (Z.to_nat INSTAGRAM_MAX_RETRIES)) s1)
        as Hl.
      cbv zeta in Hl. destruct Hl as (Ha' & Hp' & (k & Hk & Hf) & Hst & Hr & Hn).
      rewrite length_seq in Hk. rewrite Hp in Hmem, Hp'. rewrite Ht in Hf, Hst.
      split; [congruence|]. split; [exact Hp'|].
      split; [exists k; split; [exact Hk|split; [exact Hf|congruence]]|].
      split; [exact Hst|]. split; [exact Hr|].
      split; [congruence|]. intros Hnamed. apply Hn. rewrite Ha. exact Hnamed.
  - split; [exact Ha|]. split; [rewrite Hp; auto|].
    split; [exists 0%nat; rewrite Ht; simpl; rewrite app_nil_r; split; [lia|auto]|].
    split; [rewrite Ht; reflexivity|].
    split; [intros success data [= <- <-]; known_failure|].
    split; [|eauto]. intros _. eauto.
Qed.

Variable put_item_raises : nat -> bool.

Local Abbreviation save := (save_to_dynamodb utcnow put_item_raises).
Local Abbreviation process :=
  (process_celebrity INSTAGRAM_MAX_RETRIES from_username utcnow login_raises
     put_item_raises).
Local Abbreviation process_list :=
  (process_all INSTAGRAM_MAX_RETRIES from_username utcnow login_raises put_item_raises).

Lemma save_frame (cid name : pyval) (data : Data) (s : t) :
  let saved := fst (save cid name data s) in
  let s' := snd (save cid name data s) in
  accounts s' = accounts s /\ processed_profiles s' = processed_profiles s /\
  fetches (trace s') = fetches (trace s) /\
  stored_items (trace s') =
  stored_items (trace s) ++
  (if saved then [PutItem cid name (utcnow (steps s)) data true] else []).
Proof.
  unfold save_to_dynamodb. cbn. rewrite fetches_snoc', stored_items_snoc, app_nil_r.
  destruct (put_item_raises _); cbn; split_all; reflexivity.
Qed.

(** One celebrity: the detail carries its id, at most
    [INSTAGRAM_MAX_RETRIES] fetches are made, and an item is stored
    exactly when the status is [success]. *)
Lemma process_celebrity_frame (celebrity : gmap string pyval) (s : t) :
  let r := fst (process celebrity s) in
  let s' := snd (process celebrity s) in
  accounts s' = accounts s /\
  (forall h, set_mem h (processed_profiles s) = true ->
             set_mem h (processed_profiles s') = true) /\
  (exists k, (k <= Z.to_nat INSTAGRAM_MAX_RETRIES)%nat /\
             fetches (trace s') = fetches (trace s) ++ repeat (handle_of celebrity) k /\
             (truthy (handle_of celebrity) = false -> k = 0%nat) /\
             (set_mem (handle_of celebrity) (processed_profiles s) = true -> k = 0%nat)) /\
  (forall d, r = inr d ->
     detail_id d = dict_get celebrity "celebrity_id" /\
     (status d = "skipped"%string <-> truthy (handle_of celebrity) = false) /\
     length (stored_items (trace s')) =
     (length (stored_items (trace s))
      + if String.eqb (status d) "success" then 1 else 0)%nat /\
     (truthy (handle_of celebrity) = true ->
      set_mem (handle_of celebrity) (processed_profiles s) = true ->
      status d = "failed"%string)) /\
  (named (accounts s) -> exists d, r = inr d).
Proof.
  unfold process_celebrity. cbv zeta.
  destruct (truthy (handle_of celebrity)) eqn:Htruthy; cbn [negb].
  - pose proof (scrape_frame (handle_of celebrity) s) as Hs. cbv zeta in Hs.
    destruct Hs as (Ha & Hp & (k & Hk & Hf & Hk0) & Hst & Hr & Hdup & Hn).
    destruct (scrape _ s) as [[x|[[|] data]] s1]; cbn [fst snd] in *.
    + split; [exact Ha|]. split; [exact Hp|].
      split; [exists k; split_all; try assumption; discriminate|].
      split; [discriminate|].
      intros Hnamed. destruct (Hn Hnamed) as [c Hc]. discriminate.
    + pose proof (save_frame (dict_get celebrity "celebrity_id")
                    (dict_get_default celebrity "name" (PStr "Unknown")) data s1) as Hsv.
      cbv zeta in Hsv. destruct Hsv as (Ha' & Hp' & Hf' & Hst').
      destruct (save _ _ data s1) as [saved s2]; cbn [fst snd] in *.
      split; [congruence|]. split; [rewrite Hp'; exact Hp|].
      split; [exists k; rewrite Hf'; split_all; try assumption; discriminate|].
      split; [|eauto]. intros d [= <-]. cbn [detail_id status].
      split; [reflexivity|]. split; [destruct saved; split; discriminate|].
      split.
      * rewrite Hst', Hst, length_app. destruct saved; reflexivity.
      * intros _ Hmem. destruct (Hdup Hmem) as (st & er & Heq & _). discriminate.
    + split; [exact Ha|]. split; [exact Hp|].
      split; [exists k; split_all; try assumption; discriminate|].
      split; [|eauto]. intros d [= <-]. cbn [detail_id status].
      split; [reflexivity|]. split; [split; discriminate|].
      split; [rewrite Hst; simpl; lia|reflexivity].
  - cbn [fst snd]. split; [reflexivity|]. split; [auto|].
    split; [exists 0%nat; simpl; rewrite app_nil_r; split_all; auto; lia|].
    split; [|eauto]. intros d [= <-]. cbn [detail_id status].
    split; [reflexivity|]. split; [split; reflexivity|].
    split; [simpl; lia|discriminate].
Qed.

(** The loop over the celebrities. *)
Lemma process_all_frame (celebrities : list (gmap string pyval)) (results : Results)
    (s : t) :
  let r := fst (process_list celebrities results s) in
  let s' := snd (process_list celebrities results s) in
  accounts s' = accounts s /\
  (forall h, set_mem h (processed_profiles s) = true ->
             set_mem h (processed_profiles s') = true) /\
  (length (fetches (trace s')) <=
   length (fetches (trace s))
   + length (List.filter with_handle celebrities) * Z.to_nat INSTAGRAM_MAX_RETRIES)%nat /\
  (forall results', r = inr results' ->
     total_celebrities results' = total_celebrities results /\
     successful results' + failed results' + skipped results' =
     successful results + failed results + skipped results
     + Z.of_nat (length celebrities) /\
     successful results <= successful results' /\
     failed results <= failed results' /\
     map detail_id (details results') =
     map detail_id (details results)
     ++ map (fun c => dict_get c "celebrity_id") celebrities /\
     successful results' - successful results =
     Z.of_nat (length (stored_items (trace s')))
     - Z.of_nat (length (stored_items (trace s))) /\
     skipped results' =
     skipped results + Z.of_nat (length (List.filter without_handle celebrities))) /\
  (named (accounts s) -> exists results', r = inr results').
Proof.
  revert results s. induction celebrities as [|celebrity rest IH]; intros results s.
  - cbn. split_all; auto; try lia.
    + intros results' [= <-]. split_all; try lia; try reflexivity.
      rewrite app_nil_r. reflexivity.
    + eauto.
  - cbn [process_all].
    pose proof (process_celebrity_frame celebrity s) as H1.
    cbv zeta in H1. destruct H1 as (Ha & Hp & (k & Hk & Hf & Hk0 & _) & Hd & Hn).
    assert (Hlen : length (fetches (trace (snd (process celebrity s)))) =
                   (length (fetches (trace s)) + k)%nat).
    { rewrite Hf, length_app, repeat_length. reflexivity. }
    destruct (process celebrity s) as [[x|d] s1]; cbn [fst snd] in *.
    + split; [exact Ha|]. split; [exact Hp|]. split; [|split; [discriminate|]].
      * cbn [List.filter]. unfold with_handle at 1.
        destruct (truthy (handle_of celebrity)) eqn:Ht.
        -- cbn [length]. lia.
        -- rewrite (Hk0 eq_refl) in Hlen. lia.
      * intros Hnamed. destruct (Hn Hnamed) as [d Hd']. discriminate.
    + destruct (Hd d eq_refl) as (Hid & Hskip & Hstored & _).
      set (results1 :=
             if String.eqb (status d) "success" then
               mkResults (total_celebrities results) (successful results + 1)
                 (failed results) (skipped results) (details results ++ [d])
             else if String.eqb (status d) "skipped" then
               mkResults (total_celebrities results) (successful results)
                 (failed results) (skipped results + 1) (details results ++ [d])
             else
               mkResults (total_celebrities results) (successful results)
                 (failed results + 1) (skipped results) (details results ++ [d])).
      specialize (IH results1 s1). cbv zeta in IH.
      destruct IH as (Ha' & Hp' & Hf' & Hr' & Hn').
      split; [congruence|]. split; [auto|]. split; [|split].
      * cbn [List.filter]. unfold with_handle at 1.
        destruct (truthy (handle_of celebrity)) eqn:Ht.
        -- cbn [length]. lia.
        -- rewrite (Hk0 eq_refl) in Hlen. lia.
      * intros results' Hres. destruct (Hr' results' Hres)
          as (Ht & Hsum & Hs & Hfl & Hmap & Hst & Hsk).
        assert (Hcase :
                  total_celebrities results1 = total_celebrities results /\
                  details results1 = details results ++ [d] /\
                  successful results1 =
                  successful results + (if String.eqb (status d) "success" then 1 else 0) /\
                  skipped results1 =
                  skipped results + (if without_handle celebrity then 1 else 0) /\
                  successful results1 + failed results1 + skipped results1 =
                  successful results + failed results + skipped results + 1 /\
                  failed results <= failed results1).
        { unfold results1, without_handle.
          destruct (String.eqb (status d) "success") eqn:Es.
          - cbn. split_all; try reflexivity; try lia.
            destruct (truthy (handle_of celebrity)); [cbn; lia|].
            rewrite (proj2 Hskip eq_refl) in Es. discriminate.
          - destruct (String.eqb (status d) "skipped") eqn:Ek.
            + cbn. split_all; try reflexivity; try lia.
              apply String.eqb_eq in Ek. rewrite (proj1 Hskip Ek). cbn. lia.
            + cbn. split_all; try reflexivity; try lia.
              destruct (truthy (handle_of celebrity)); [cbn; lia|].
              rewrite (proj2 Hskip eq_refl) in Ek. discriminate. }
        destruct Hcase as (Ct & Cd & Cs & Ck & Csum & Cf).
        cbn [length List.filter map].
        split; [congruence|]. split; [lia|]. split; [destruct (String.eqb _ _); lia|].
        split; [lia|]. split; [|split].
        -- rewrite Hmap, Cd, map_app, <- app_assoc. cbn [map app]. rewrite Hid. reflexivity.
        -- rewrite Hstored in Hst. destruct (String.eqb (status d) "success"); lia.
        -- rewrite Hsk, Ck. destruct (without_handle celebrity); cbn [length]; lia.
      * intros Hnamed. apply Hn'. rewrite Ha. exact Hnamed.
Qed.

End ScraperFrameFacts.

(** X18.  The Instagram handler answers 200 or 500, and 200 whenever the
    accounts could be loaded and each has a ['username'].  In a summary
    every celebrity is counted once, as successful, failed or skipped, and
    the details list the celebrities in order.  The skipped ones are those
    without a handle; the successful ones are exactly the items the store
    accepted; and no more than [INSTAGRAM_MAX_RETRIES] fetches are made
    for each celebrity that has a handle. *)
Theorem instagram_handler_counts (INSTAGRAM_MAX_RETRIES : Z)
    (from_username : nat -> pyval -> InstagramScraper.fetch_outcome)
    (utcnow : nat -> Z) (login_raises put_item_raises : nat -> bool)
    (secret : InstagramScraper.secret_outcome)
    (event_celebrities scan : option (list (gmap string pyval))) :
  let out := InstagramScraper.lambda_handler INSTAGRAM_MAX_RETRIES from_username utcnow
               login_raises put_item_raises secret event_celebrities scan in
  let celebrities :=
    match event_celebrities with
    | Some celebrities => celebrities
    | None => InstagramScraper.get_celebrities_from_dynamodb scan
    end in
  (InstagramScraper.statusCode (fst out) = 200 \/
   InstagramScraper.statusCode (fst out) = 500) /\
  (forall accounts,
     InstagramScraper.load_accounts secret = inr accounts ->
     Forall (fun account : gmap string pyval => is_Some (account !! "username"%string))
       accounts ->
     InstagramScraper.statusCode (fst out) = 200) /\
  (forall results s,
     out = (InstagramScraper.mkResponse 200 (InstagramScraper.Summary results), Some s) ->
     InstagramScraper.total_celebrities results = Z.of_nat (length celebrities) /\
     InstagramScraper.successful results + InstagramScraper.failed results
       + InstagramScraper.skipped results = InstagramScraper.total_celebrities results /\
     0 <= InstagramScraper.successful results /\ 0 <= InstagramScraper.failed results /\
     map InstagramScraper.detail_id (InstagramScraper.details results) =
     map (fun c => dict_get c "celebrity_id") celebrities /\
     InstagramScraper.skipped results =
     Z.of_nat (length (List.filter InstagramScraper.without_handle celebrities)) /\
     InstagramScraper.successful results =
     Z.of_nat (length (InstagramScraper.stored_items (InstagramScraper.trace s))) /\
     (length (InstagramScraper.fetches (InstagramScraper.trace s)) <=
      length (List.filter InstagramScraper.with_handle celebrities)
      * Z.to_nat INSTAGRAM_MAX_RETRIES)%nat).
Proof.
  intros out celebrities. unfold out, InstagramScraper.lambda_handler.
  fold celebrities.
  destruct (InstagramScraper.load_accounts secret) as [x|accounts] eqn:Hload.
  - cbn. split; [auto|]. split; [discriminate|discriminate].
  - cbv zeta. destruct celebrities as [|celebrity rest] eqn:Hc.
    + cbn. split; [auto|]. split; [reflexivity|discriminate].
    + pose proof (process_all_frame INSTAGRAM_MAX_RETRIES from_username utcnow
                    login_raises put_item_raises (celebrity :: rest)
                    (InstagramScraper.mkResults
                       (Z.of_nat (length (celebrity :: rest))) 0 0 0 [])
                    (InstagramScraper.consult (InstagramScraper.init utcnow accounts)))
        as H.
      cbv zeta in H. destruct H as (_ & _ & Hf & Hr & Hn).
      destruct (InstagramScraper.process_all _ _ _ _ _ _ _ _) as [[x|results] s];
        cbn [fst snd InstagramScraper.statusCode] in *.
      * split; [auto|]. split; [|discriminate].
        intros accounts' [= <-] Hnamed. destruct (Hn Hnamed) as [r' Hr']. discriminate.
      * split; [auto|]. split; [reflexivity|].
        intros results' s' [= <- <-].
        destruct (Hr results eq_refl) as (Ht & Hsum & Hs & Hfl & Hmap & Hst & Hsk).
        cbn in Ht, Hsum, Hs, Hfl, Hmap, Hst, Hsk, Hf.
        split; [exact Ht|]. split; [lia|]. split; [lia|]. split; [lia|].
        split; [exact Hmap|]. split; [exact Hsk|]. split; [lia|exact Hf].
Qed.

Lemma instagram_handler_counts_witness :
  let out := InstagramScraper.lambda_handler 3 InstagramScraper.always_found
               (fun n => Z.of_nat n) (fun _ => false) (fun _ => false)
               InstagramScraper.NoSecretArn
               (Some [InstagramScraper.celebrity_ada;
                      InstagramScraper.celebrity_without_handle]) None in
  InstagramScraper.statusCode (fst out) = 200 /\
  exists results s,
    out = (InstagramScraper.mkResponse 200 (InstagramScraper.Summary results), Some s) /\
    InstagramScraper.successful results = 1 /\ InstagramScraper.skipped results = 1.
Proof.
  cbv zeta. split.
  - apply (instagram_handler_counts 3 InstagramScraper.always_found
             (fun n => Z.of_nat n) (fun _ => false) (fun _ => false)
             InstagramScraper.NoSecretArn
             (Some [InstagramScraper.celebrity_ada;
                    InstagramScraper.celebrity_without_handle]) None) with (accounts := []).
    + reflexivity.
    + constructor.
  - eexists. eexists. split; [vm_compute; reflexivity|]. split; reflexivity.
Defined.

Section ScraperRunFacts.
Import InstagramScraper.
Variable INSTAGRAM_MAX_RETRIES : Z.
Variable from_username : nat -> pyval -> fetch_outcome.
Variable utcnow : nat -> Z.
Variable login_raises : nat -> bool.
Variable put_item_raises : nat -> bool.

Local Abbreviation process_list :=
  (process_all INSTAGRAM_MAX_RETRIES from_username utcnow login_raises put_item_raises).
Local Abbreviation process :=
  (process_celebrity INSTAGRAM_MAX_RETRIES from_username utcnow login_raises
     put_item_raises).

Lemma py_eqb_trans (a b c : pyval) : py_eqb a b = true -> py_eqb a c = py_eqb b c.
Proof.
  destruct a as [|x|x|s], b as [|y|y|u]; cbn [py_eqb]; intros H; try discriminate;
    try apply Z.eqb_eq in H; try apply String.eqb_eq in H; try apply Bool.eqb_prop in H;
    subst; destruct c as [|z|z|v]; cbn [py_eqb]; try reflexivity;
    repeat match goal with b : bool |- _ => destruct b end; reflexivity.
Qed.

Lemma set_mem_eq (a b : pyval) (members : list pyval) :
  py_eqb a b = true -> set_mem a members = set_mem b members.
Proof.
  intros H. unfold set_mem. induction members as [|x rest IH]; [reflexivity|].
  simpl. rewrite IH, (py_eqb_trans a b x H). reflexivity.
Qed.

(** Celebrities processed after a handle has entered the set never lead
    to a request for it. *)
Lemma process_all_avoids (handle : pyval) (celebrities : list (gmap string pyval))
    (results : Results) (s : t) :
  set_mem handle (processed_profiles s) = true ->
  let s' := snd (process_list celebrities results s) in
  set_mem handle (processed_profiles s') = true /\
  exists added,
    fetches (trace s') = fetches (trace s) ++ added /\
    forall h, In h added -> py_eqb handle h = false.
Proof.
  revert results s. induction celebrities as [|celebrity rest IH]; intros results s Hmem.
  - cbn. split; [exact Hmem|]. exists []. rewrite app_nil_r. split; [reflexivity|].
    intros h [].
  - cbn [process_all].
    pose proof (process_celebrity_frame INSTAGRAM_MAX_RETRIES from_username utcnow
                  login_raises put_item_raises celebrity s) as H1.
    cbv zeta in H1. destruct H1 as (_ & Hp & (k & _ & Hf & _ & Hk0) & _ & _).
    assert (Hadded : forall h, In h (repeat (handle_of celebrity) k) ->
                               py_eqb handle h = false).
    { intros h Hin. pose proof (repeat_spec _ _ _ Hin) as Heq0. subst h.
      destruct (py_eqb handle (handle_of celebrity)) eqn:Heq; [|reflexivity].
      rewrite (set_mem_eq _ _ _ Heq) in Hmem. rewrite (Hk0 Hmem) in Hin.
      destruct Hin. }
    destruct (process celebrity s) as [[x|d] s1]; cbn [fst snd] in *.
    + split; [apply Hp, Hmem|]. exists (repeat (handle_of celebrity) k).
      split; [exact Hf|exact Hadded].
    + match goal with |- context [process_list rest ?r s1] => specialize (IH r s1) end.
      cbv zeta in IH. destruct (IH (Hp _ Hmem)) as (Hmem' & added & Hf' & Hnot).
      split; [exact Hmem'|]. exists (repeat (handle_of celebrity) k ++ added).
      split; [rewrite Hf', Hf, app_assoc; reflexivity|].
      intros h Hin. apply in_app_or in Hin as [Hin|Hin]; auto.
Qed.

End ScraperRunFacts.

(** X19.  One call of [scrape_instagram_profile] makes at most
    [INSTAGRAM_MAX_RETRIES] requests, all for the given handle, and writes
    nothing.  It reports success only with the profile's data, and then the
    handle is in the set of processed profiles and the breaker is closed
    with a failure count of 0; a failure carries one of six statuses
    ([network_error] and [unknown_error] never occur).  For a handle
    already in the set it makes no request at all. *)
Theorem scrape_fetch_budget (INSTAGRAM_MAX_RETRIES : Z)
    (from_username : nat -> pyval -> InstagramScraper.fetch_outcome)
    (utcnow : nat -> Z) (login_raises : nat -> bool)
    (handle : pyval) (s : InstagramScraper.t) :
  let out := InstagramScraper.scrape_instagram_profile INSTAGRAM_MAX_RETRIES
               from_username utcnow login_raises handle s in
  let s' := snd out in
  (exists k, (k <= Z.to_nat INSTAGRAM_MAX_RETRIES)%nat /\
     InstagramScraper.fetches (InstagramScraper.trace s') =
     InstagramScraper.fetches (InstagramScraper.trace s) ++ repeat handle k /\
     (InstagramScraper.set_mem handle (InstagramScraper.processed_profiles s) = true ->
      k = 0%nat)) /\
  InstagramScraper.stored_items (InstagramScraper.trace s') =
  InstagramScraper.stored_items (InstagramScraper.trace s) /\
  (forall data, fst out = inr (true, data) ->
     (exists profile, data = InstagramScraper.ProfileData profile) /\
     InstagramScraper.set_mem handle (InstagramScraper.processed_profiles s') = true /\
     CircuitBreaker.failure_count (InstagramScraper.circuit_breaker s') = 0 /\
     CircuitBreaker.is_open (InstagramScraper.circuit_breaker s') = false) /\
  (forall data, fst out = inr (false, data) ->
     exists status error,
       data = InstagramScraper.Failure status error /\
       In status InstagramScraper.failure_statuses).
Proof.
  intros out s'. unfold s', out.
  pose proof (scrape_frame INSTAGRAM_MAX_RETRIES from_username utcnow login_raises
                handle s) as H.
  cbv zeta in H. destruct H as (_ & _ & Hk & Hst & Hr & _ & _).
  split; [exact Hk|]. split; [exact Hst|]. split.
  - intros data Heq. exact (Hr true data Heq).
  - intros data Heq. exact (Hr false data Heq).
Qed.

(** X20.  The set of processed profiles only grows, and a handle in it is
    never requested again: whatever celebrities are processed afterwards,
    none of the requests they cause is for that handle, also when the
    handle comes back as an equal value of another type. *)
Theorem processed_profile_not_fetched (INSTAGRAM_MAX_RETRIES : Z)
    (from_username : nat -> pyval -> InstagramScraper.fetch_outcome)
    (utcnow : nat -> Z) (login_raises put_item_raises : nat -> bool)
    (handle : pyval) (celebrities : list (gmap string pyval))
    (results : InstagramScraper.Results) (s : InstagramScraper.t) :
  InstagramScraper.set_mem handle (InstagramScraper.processed_profiles s) = true ->
  let s' := snd (InstagramScraper.process_all INSTAGRAM_MAX_RETRIES from_username utcnow
                   login_raises put_item_raises celebrities results s) in
  InstagramScraper.set_mem handle (InstagramScraper.processed_profiles s') = true /\
  exists added,
    InstagramScraper.fetches (InstagramScraper.trace s') =
    InstagramScraper.fetches (InstagramScraper.trace s) ++ added /\
    forall h, In h added -> py_eqb handle h = false.
Proof.
  intros Hmem. apply process_all_avoids. exact Hmem.
Qed.

Lemma processed_profile_not_fetched_witness :
  let s' := snd (InstagramScraper.process_all 3 InstagramScraper.always_found
                   InstagramScraper.ticking (fun _ => false) (fun _ => false)
                   [InstagramScraper.celebrity_ada]
                   (InstagramScraper.mkResults 1 0 0 0 []) InstagramScraper.after_ada) in
  InstagramScraper.set_mem (PStr "ada") (InstagramScraper.processed_profiles s') = true /\
  exists added,
    InstagramScraper.fetches (InstagramScraper.trace s') =
    InstagramScraper.fetches (InstagramScraper.trace InstagramScraper.after_ada) ++ added /\
    forall h, In h added -> py_eqb (PStr "ada") h = false.
Proof.
  apply (processed_profile_not_fetched 3 InstagramScraper.always_found
           InstagramScraper.ticking (fun _ => false) (fun _ => false) (PStr "ada")
           [InstagramScraper.celebrity_ada] (InstagramScraper.mkResults 1 0 0 0 [])
           InstagramScraper.after_ada).
  vm_compute. reflexivity.
Defined.

Section RetryRuns.
Import InstagramScraper.
Variable INSTAGRAM_MAX_RETRIES : Z.
Variable from_username : nat -> pyval -> fetch_outcome.
Variable utcnow : nat -> Z.
Variable login_raises : nat -> bool.
Variable handle : pyval.

Local Abbreviation attempt_at :=
  (attempt_once INSTAGRAM_MAX_RETRIES from_username utcnow login_raises).
Local Abbreviation attempts :=
  (attempts_loop INSTAGRAM_MAX_RETRIES from_username utcnow login_raises).
Local Abbreviation scrape :=
  (scrape_instagram_profile INSTAGRAM_MAX_RETRIES from_username utcnow login_raises).
Local Abbreviation retrying attempt := (may_retry INSTAGRAM_MAX_RETRIES attempt).

Lemma may_retry_more (a k : nat) :
  (a + S (S k))%nat = Z.to_nat INSTAGRAM_MAX_RETRIES -> retrying a = true.
Proof. intros H. unfold may_retry. apply Z.ltb_lt. lia. Qed.

Lemma may_retry_last (a : nat) :
  (a + 1)%nat = Z.to_nat INSTAGRAM_MAX_RETRIES -> retrying a = false.
Proof. intros H. unfold may_retry. apply Z.ltb_ge. lia. Qed.

(** A scrape that the breaker refuses, or of a processed handle, touches
    nothing but the count of consultations. *)
Lemma scrape_skips (h : pyval) (s : t) :
  fst (CircuitBreaker.can_execute (utcnow (steps s)) (circuit_breaker s)) = false \/
  set_mem h (processed_profiles s) = true ->
  trace (snd (scrape h s)) = trace s /\ metrics (snd (scrape h s)) = metrics s /\
  processed_profiles (snd (scrape h s)) = processed_profiles s /\
  exists st er, fst (scrape h s) = inr (false, Failure st er) /\
    (st = RATE_LIMITED \/ st = "duplicate"%string) /\
    (fst (CircuitBreaker.can_execute (utcnow (steps s)) (circuit_breaker s)) = false ->
     st = RATE_LIMITED).
Proof.
  intros Hskip. unfold scrape_instagram_profile, breaker_can_execute.
  destruct (CircuitBreaker.can_execute _ _) as [[|] cb]; cbn [fst snd] in *.
  - destruct Hskip as [Hskip|Hskip]; [discriminate|].
    cbn [processed_profiles with_breaker consult]. rewrite Hskip. cbn.
    split_all; try reflexivity. do 2 eexists. split; [reflexivity|].
    split; [auto|discriminate].
  - cbn. split_all; try reflexivity. do 2 eexists. split; [reflexivity|]. auto.
Qed.

Section Unreadable.
Hypothesis unreadable_profile :
  forall n, exists type_name, from_username n handle = ReadRaises (OtherException type_name).

Lemma unreadable_attempt (a : nat) (s : t) :
  exists s1,
    attempt_at handle a s = (inr Continue, s1) /\
    set_mem handle (processed_profiles s1) = true /\
    fetches (trace s1) = fetches (trace s) ++ [handle] /\
    sleeps (trace s1) =
    sleeps (trace s) ++ (if retrying a then [5 * (Z.of_nat a + 1)] else []).
Proof.
  unfold attempt_once. destruct (unreadable_profile (steps s)) as [ty ->].
  cbv zeta. unfold on_exception. cbv zeta.
  destruct (retrying a); eexists; (split; [reflexivity|]); cbn;
    rewrite ?fetches_snoc', ?sleeps_snoc, ?app_nil_r;
    (split; [apply set_mem_added|]); split; reflexivity.
Qed.

Lemma unreadable_loop (k a : nat) (s : t) :
  (a + S k)%nat = Z.to_nat INSTAGRAM_MAX_RETRIES ->
  let out := attempts handle (seq a (S k)) s in
  (exists er, fst out = inr (false, Failure RETRY_EXHAUSTED er)) /\
  set_mem handle (processed_profiles (snd out)) = true /\
  fetches (trace (snd out)) = fetches (trace s) ++ repeat handle (S k) /\
  sleeps (trace (snd out)) =
  sleeps (trace s) ++ map (fun i => 5 * (Z.of_nat i + 1)) (seq a k).
Proof.
  revert a s. induction k as [|k IH]; intros a s Hn; cbv zeta.
  - destruct (unreadable_attempt a s) as (s1 & Hat & Hmem & Hf & Hsl).
    rewrite (may_retry_last a) in Hsl by lia.
    cbn [seq attempts_loop]. rewrite Hat. cbn [attempts_loop fst snd].
    split; [eauto|]. split; [exact Hmem|]. split; [exact Hf|exact Hsl].
  - destruct (unreadable_attempt a s) as (s1 & Hat & Hmem & Hf & Hsl).
    rewrite (may_retry_more a k) in Hsl by lia.
    change (seq a (S (S k))) with (a :: seq (S a) (S k)).
    cbn [attempts_loop]. rewrite Hat.
    specialize (IH (S a) s1 ltac:(lia)). cbv zeta in IH.
    destruct IH as (Hr & Hmem' & Hf' & Hsl').
    split; [exact Hr|]. split; [exact Hmem'|]. split.
    + rewrite Hf', Hf, <- app_assoc. reflexivity.
    + rewrite Hsl', Hsl, <- app_assoc. reflexivity.
Qed.

End Unreadable.

Section Storm.
Hypothesis rate_limited_world :
  forall n, from_username n handle = FetchRaises TooManyRequestsException.

Lemma storm_attempt (a : nat) (s : t) :
  let out := attempt_at handle a s in
  let s1 := snd out in
  fst out =
  (if retrying a then inr Continue
   else inr (Return false
               (Failure RATE_LIMITED
                  ("Rate limited after " ++ py_str (PInt INSTAGRAM_MAX_RETRIES)
                   ++ " retries: " ++ py_str handle)))) /\
  circuit_breaker s1 =
  CircuitBreaker.record_failure (utcnow (S (steps s))) (circuit_breaker s) /\
  steps s1 = S (S (steps s)) /\
  processed_profiles s1 = processed_profiles s /\
  fetches (trace s1) = fetches (trace s) ++ [handle] /\
  sleeps (trace s1) =
  sleeps (trace s) ++ (if retrying a then [10 * 2 ^ Z.of_nat a] else []) /\
  MetricsCollector.rate_limited (metrics s1) =
  MetricsCollector.rate_limited (metrics s) + 1 /\
  MetricsCollector.retry_count (metrics s1) =
  MetricsCollector.retry_count (metrics s) + (if retrying a then 1 else 0).
Proof.
  unfold attempt_once. rewrite rate_limited_world. cbv zeta.
  unfold on_exception. cbv zeta.
  destruct (retrying a); cbn;
    rewrite ?fetches_snoc', ?sleeps_snoc, ?app_nil_r; split_all; try reflexivity; lia.
Qed.

Lemma storm_loop (k a : nat) (s : t) :
  (a + S k)%nat = Z.to_nat INSTAGRAM_MAX_RETRIES ->
  let out := attempts handle (seq a (S k)) s in
  let cb := circuit_breaker s in
  let cb' := circuit_breaker (snd out) in
  (exists er, fst out = inr (false, Failure RATE_LIMITED er)) /\
  CircuitBreaker.failure_count cb' = CircuitBreaker.failure_count cb + Z.of_nat (S k) /\
  CircuitBreaker.failure_threshold cb' = CircuitBreaker.failure_threshold cb /\
  CircuitBreaker.timeout cb' = CircuitBreaker.timeout cb /\
  (CircuitBreaker.is_open cb' = true <->
   CircuitBreaker.is_open cb = true \/
   CircuitBreaker.failure_threshold cb <= CircuitBreaker.failure_count cb + Z.of_nat (S k)) /\
  CircuitBreaker.last_failure_time cb' = Some (utcnow (pred (steps (snd out)))) /\
  processed_profiles (snd out) = processed_profiles s /\
  fetches (trace (snd out)) = fetches (trace s) ++ repeat handle (S k) /\
  sleeps (trace (snd out)) =
  sleeps (trace s) ++ map (fun i => 10 * 2 ^ Z.of_nat i) (seq a k) /\
  MetricsCollector.rate_limited (metrics (snd out)) =
  MetricsCollector.rate_limited (metrics s) + Z.of_nat (S k) /\
  MetricsCollector.retry_count (metrics (snd out)) =
  MetricsCollector.retry_count (metrics s) + Z.of_nat k.
Proof.
  revert a s. induction k as [|k IH]; intros a s Hn; cbv zeta.
  - pose proof (storm_attempt a s) as H. cbv zeta in H.
    destruct H as (Hr & Hcb & Hsteps & Hp & Hf & Hsl & Hrl & Hrc).
    rewrite (may_retry_last a) in Hr, Hsl, Hrc by lia.
    cbn [seq attempts_loop].
    destruct (attempt_at handle a s) as [r s1]; cbn [fst snd] in *. subst r.
    cbn [fst snd]. rewrite Hcb, Hsteps. cbn [pred].
    unfold CircuitBreaker.record_failure; cbn.
    split; [eauto|]. split; [lia|]. split; [reflexivity|]. split; [reflexivity|].
    split.
    { destruct (Z.leb_spec (CircuitBreaker.failure_threshold (circuit_breaker s))
                  (CircuitBreaker.failure_count (circuit_breaker s) + 1)).
      - split; [intros _; right; lia|reflexivity].
      - split; [auto|]. intros [Ho|Ht]; [exact Ho|lia]. }
    split; [reflexivity|]. split; [exact Hp|]. split; [exact Hf|].
    split; [exact Hsl|]. split; lia.
  - pose proof (storm_attempt a s) as H. cbv zeta in H.
    destruct H as (Hr & Hcb & Hsteps & Hp & Hf & Hsl & Hrl & Hrc).
    rewrite (may_retry_more a k) in Hr, Hsl, Hrc by lia.
    change (seq a (S (S k))) with (a :: seq (S a) (S k)).
    cbn [attempts_loop].
    destruct (attempt_at handle a s) as [r s1]; cbn [fst snd] in *. subst r.
    specialize (IH (S a) s1 ltac:(lia)). cbv zeta in IH.
    destruct IH as (Hr' & Hc' & Ht' & Hto' & Ho' & Hl' & Hp' & Hf' & Hsl' & Hrl' & Hrc').
    rewrite Hcb in Hc', Ht', Hto', Ho'.
    unfold CircuitBreaker.record_failure in Hc', Ht', Hto', Ho';
      cbn [CircuitBreaker.failure_count CircuitBreaker.failure_threshold
           CircuitBreaker.timeout CircuitBreaker.is_open] in Hc', Ht', Hto', Ho'.
    split; [exact Hr'|]. split; [lia|]. split; [exact Ht'|]. split; [exact Hto'|].
    split.
    { rewrite Ho'.
      destruct (Z.leb_spec (CircuitBreaker.failure_threshold (circuit_breaker s))
                  (CircuitBreaker.failure_count (circuit_breaker s) + 1)).
      - split; [intros _; right; lia|auto].
      - split; [intros [Ho|Hle]; [auto|right; lia]|].
        intros [Ho|Hle]; [auto|right; lia]. }
    split; [exact Hl'|]. split; [congruence|]. split.
    + rewrite Hf', Hf, <- app_assoc. reflexivity.
    + split; [rewrite Hsl', Hsl, <- app_assoc; reflexivity|]. split; lia.
Qed.

End Storm.

Lemma can_execute_true_closed (now : Z) (cb : CircuitBreaker.t) :
  fst (CircuitBreaker.can_execute now cb) = true ->
  CircuitBreaker.is_open (snd (CircuitBreaker.can_execute now cb)) = false.
Proof.
  unfold CircuitBreaker.can_execute.
  destruct (CircuitBreaker.is_open cb) eqn:Ho; cbn; [|intros _; exact Ho].
  destruct (CircuitBreaker.last_failure_time cb); cbn; [|discriminate].
  destruct (Qltb _ _); cbn; [reflexivity|discriminate].
Qed.

Lemma can_execute_cooling (now tf : Z) (cb : CircuitBreaker.t) :
  CircuitBreaker.is_open cb = true ->
  CircuitBreaker.last_failure_time cb = Some tf ->
  now - tf <= CircuitBreaker.timeout cb * 1000000 ->
  fst (CircuitBreaker.can_execute now cb) = false.
Proof.
  intros Ho Hl Hnow. unfold CircuitBreaker.can_execute. rewrite Ho, Hl. cbn.
  assert (H : Qltb (inject_Z (CircuitBreaker.timeout cb))
                (CircuitBreaker.total_seconds now tf) = false).
  { apply Qltb_false. unfold Qle, CircuitBreaker.total_seconds, inject_Z. simpl. lia. }
  rewrite H. reflexivity.
Qed.

End RetryRuns.

(** X21.  A profile that can be fetched but whose attributes cannot be
    read is marked as processed all the same.  When every attempt ends
    that way, the scrape makes all [INSTAGRAM_MAX_RETRIES] requests,
    sleeping 5, 10, ... seconds between them, and reports
    [retry_exhausted]; the handle is then in the set of processed
    profiles, so that a further scrape of it makes no request and reports
    a duplicate (or a rate limit, if the breaker is open by then). *)
Theorem unreadable_profile_is_marked (INSTAGRAM_MAX_RETRIES : Z)
    (from_username : nat -> pyval -> InstagramScraper.fetch_outcome)
    (utcnow : nat -> Z) (login_raises : nat -> bool)
    (handle : pyval) (s : InstagramScraper.t) :
  (forall n, exists type_name,
     from_username n handle =
     InstagramScraper.ReadRaises (InstagramScraper.OtherException type_name)) ->
  1 <= INSTAGRAM_MAX_RETRIES ->
  fst (CircuitBreaker.can_execute (utcnow (InstagramScraper.steps s))
         (InstagramScraper.circuit_breaker s)) = true ->
  InstagramScraper.set_mem handle (InstagramScraper.processed_profiles s) = false ->
  let scrape := InstagramScraper.scrape_instagram_profile INSTAGRAM_MAX_RETRIES
                  from_username utcnow login_raises handle in
  let s' := snd (scrape s) in
  (exists error,
     fst (scrape s) =
     inr (false, InstagramScraper.Failure InstagramScraper.RETRY_EXHAUSTED error)) /\
  InstagramScraper.fetches (InstagramScraper.trace s') =
  InstagramScraper.fetches (InstagramScraper.trace s)
  ++ repeat handle (Z.to_nat INSTAGRAM_MAX_RETRIES) /\
  InstagramScraper.sleeps (InstagramScraper.trace s') =
  InstagramScraper.sleeps (InstagramScraper.trace s)
  ++ map (fun i => 5 * (Z.of_nat i + 1)) (seq 0 (Z.to_nat INSTAGRAM_MAX_RETRIES - 1)) /\
  InstagramScraper.set_mem handle (InstagramScraper.processed_profiles s') = true /\
  InstagramScraper.trace (snd (scrape s')) = InstagramScraper.trace s' /\
  exists status error,
    fst (scrape s') = inr (false, InstagramScraper.Failure status error) /\
    (status = InstagramScraper.RATE_LIMITED \/ status = "duplicate"%string).
Proof.
  intros Hworld Hmax Hcan Hmem scrape s'.
  assert (Hfirst :
            (exists error,
               fst (scrape s) =
               inr (false,
                    InstagramScraper.Failure InstagramScraper.RETRY_EXHAUSTED error)) /\
            InstagramScraper.set_mem handle (InstagramScraper.processed_profiles s') = true /\
            InstagramScraper.fetches (InstagramScraper.trace s') =
            InstagramScraper.fetches (InstagramScraper.trace s)
            ++ repeat handle (Z.to_nat INSTAGRAM_MAX_RETRIES) /\
            InstagramScraper.sleeps (InstagramScraper.trace s') =
            InstagramScraper.sleeps (InstagramScraper.trace s)
            ++ map (fun i => 5 * (Z.of_nat i + 1))
                 (seq 0 (Z.to_nat INSTAGRAM_MAX_RETRIES - 1))).
  { unfold s', scrape, InstagramScraper.scrape_instagram_profile,
      InstagramScraper.breaker_can_execute.
    destruct (CircuitBreaker.can_execute _ _) as [answer cb]. cbn [fst] in Hcan.
    subst answer.
    cbn [InstagramScraper.processed_profiles InstagramScraper.with_breaker
           InstagramScraper.consult].
    rewrite Hmem.
    destruct (Z.to_nat INSTAGRAM_MAX_RETRIES) as [|k] eqn:Hn; [lia|].
    replace (S k - 1)%nat with k by lia.
    pose proof (unreadable_loop INSTAGRAM_MAX_RETRIES from_username utcnow login_raises
                  handle Hworld k 0
                  (InstagramScraper.with_breaker cb (InstagramScraper.consult s))
                  ltac:(lia)) as H.
    exact H. }
  destruct Hfirst as (Hr & Hmem' & Hf & Hsl).
  split; [exact Hr|]. split; [exact Hf|]. split; [exact Hsl|]. split; [exact Hmem'|].
  destruct (scrape_skips INSTAGRAM_MAX_RETRIES from_username utcnow login_raises
              handle s' (or_intror Hmem')) as (Ht & _ & _ & st & er & Heq & Hst & _).
  split; [exact Ht|]. exists st, er. split; [exact Heq|exact Hst].
Qed.

Lemma unreadable_profile_is_marked_witness :
  let scrape := InstagramScraper.scrape_instagram_profile 3 InstagramScraper.unreadable
                  InstagramScraper.ticking (fun _ => false) (PStr "ada") in
  let s' := snd (scrape (InstagramScraper.init InstagramScraper.ticking [])) in
  InstagramScraper.sleeps (InstagramScraper.trace s') = [5; 10] /\
  InstagramScraper.set_mem (PStr "ada") (InstagramScraper.processed_profiles s') = true.
Proof.
  destruct (unreadable_profile_is_marked 3 InstagramScraper.unreadable
              InstagramScraper.ticking (fun _ => false) (PStr "ada")
              (InstagramScraper.init InstagramScraper.ticking []))
    as (_ & _ & Hsl & Hmem & _).
  - intros n. exists "ConnectionException"%string. reflexivity.
  - lia.
  - reflexivity.
  - reflexivity.
  - split; [exact Hsl|exact Hmem].
Defined.

(** X22.  The breaker is consulted once per profile, not per attempt.
    When Instagram answers every request with a rate limit, a scrape that
    was let through makes all [INSTAGRAM_MAX_RETRIES] requests, sleeping
    10, 20, 40, ... seconds between them, and reports [rate_limited]; each
    request adds one to the breaker's failure count and to the
    [rate_limited] counter, also after the breaker has opened, and the
    handle is not marked as processed.  The breaker is open afterwards
    exactly when the count has reached the threshold, and then every
    scrape within the cool-down is refused without a request. *)
Theorem rate_limit_storm (INSTAGRAM_MAX_RETRIES : Z)
    (from_username : nat -> pyval -> InstagramScraper.fetch_outcome)
    (utcnow : nat -> Z) (login_raises : nat -> bool)
    (handle : pyval) (s : InstagramScraper.t) :
  (forall n, from_username n handle =
             InstagramScraper.FetchRaises InstagramScraper.TooManyRequestsException) ->
  1 <= INSTAGRAM_MAX_RETRIES ->
  fst (CircuitBreaker.can_execute (utcnow (InstagramScraper.steps s))
         (InstagramScraper.circuit_breaker s)) = true ->
  InstagramScraper.set_mem handle (InstagramScraper.processed_profiles s) = false ->
  let cb0 := snd (CircuitBreaker.can_execute (utcnow (InstagramScraper.steps s))
                    (InstagramScraper.circuit_breaker s)) in
  let scrape := InstagramScraper.scrape_instagram_profile INSTAGRAM_MAX_RETRIES
                  from_username utcnow login_raises in
  let s' := snd (scrape handle s) in
  let cb' := InstagramScraper.circuit_breaker s' in
  (exists error,
     fst (scrape handle s) =
     inr (false, InstagramScraper.Failure InstagramScraper.RATE_LIMITED error)) /\
  InstagramScraper.fetches (InstagramScraper.trace s') =
  InstagramScraper.fetches (InstagramScraper.trace s)
  ++ repeat handle (Z.to_nat INSTAGRAM_MAX_RETRIES) /\
  InstagramScraper.sleeps (InstagramScraper.trace s') =
  InstagramScraper.sleeps (InstagramScraper.trace s)
  ++ map (fun i => 10 * 2 ^ Z.of_nat i) (seq 0 (Z.to_nat INSTAGRAM_MAX_RETRIES - 1)) /\
  CircuitBreaker.failure_count cb' =
  CircuitBreaker.failure_count cb0 + INSTAGRAM_MAX_RETRIES /\
  (CircuitBreaker.is_open cb' = true <->
   CircuitBreaker.failure_threshold cb0 <=
   CircuitBreaker.failure_count cb0 + INSTAGRAM_MAX_RETRIES) /\
  MetricsCollector.rate_limited (InstagramScraper.metrics s') =
  MetricsCollector.rate_limited (InstagramScraper.metrics s) + INSTAGRAM_MAX_RETRIES /\
  MetricsCollector.retry_count (InstagramScraper.metrics s') =
  MetricsCollector.retry_count (InstagramScraper.metrics s) + INSTAGRAM_MAX_RETRIES - 1 /\
  InstagramScraper.processed_profiles s' = InstagramScraper.processed_profiles s /\
  (CircuitBreaker.is_open cb' = true ->
   exists last, CircuitBreaker.last_failure_time cb' = Some last /\
     forall other,
       utcnow (InstagramScraper.steps s') - last <= CircuitBreaker.timeout cb' * 1000000 ->
       InstagramScraper.trace (snd (scrape other s')) = InstagramScraper.trace s' /\
       exists error,
         fst (scrape other s') =
         inr (false, InstagramScraper.Failure InstagramScraper.RATE_LIMITED error)).
Proof.
  intros Hworld Hmax Hcan Hmem cb0 scrape s' cb'.
  pose proof (can_execute_true_closed _ _ Hcan) as Hclosed. fold cb0 in Hclosed.
  assert (Hloop :
            let out := InstagramScraper.attempts_loop INSTAGRAM_MAX_RETRIES from_username
                         utcnow login_raises handle
                         (seq 0 (Z.to_nat INSTAGRAM_MAX_RETRIES))
                         (InstagramScraper.with_breaker cb0 (InstagramScraper.consult s)) in
            scrape handle s = out).
  { cbv zeta. unfold scrape, InstagramScraper.scrape_instagram_profile,
      InstagramScraper.breaker_can_execute. unfold cb0.
    destruct (CircuitBreaker.can_execute _ _) as [answer cb]. cbn [fst snd] in *.
    subst answer.
    cbn [InstagramScraper.processed_profiles InstagramScraper.with_breaker
           InstagramScraper.consult].
    rewrite Hmem. reflexivity. }
  cbv zeta in Hloop.
  destruct (Z.to_nat INSTAGRAM_MAX_RETRIES) as [|k] eqn:Hn; [lia|].
  pose proof (storm_loop INSTAGRAM_MAX_RETRIES from_username utcnow login_raises handle
                Hworld k 0 (InstagramScraper.with_breaker cb0 (InstagramScraper.consult s))
                ltac:(lia)) as H.
  cbv zeta in H. rewrite <- Hloop in H. fold s' in H. fold cb' in H.
  cbn [InstagramScraper.circuit_breaker InstagramScraper.with_breaker
         InstagramScraper.consult InstagramScraper.processed_profiles
         InstagramScraper.trace InstagramScraper.metrics] in H.
  destruct H as (Hr & Hc & Ht & Hto & Ho & Hl & Hp & Hf & Hsl & Hrl & Hrc).
  replace (S k - 1)%nat with k by lia.
  split; [exact Hr|]. split; [exact Hf|]. split; [exact Hsl|]. split; [lia|].
  split; [|split; [lia|split; [lia|split; [exact Hp|]]]].
  - rewrite Ho, Hclosed. split.
    + intros [Hfalse|Hle]; [discriminate|lia].
    + intros Hle. right. lia.
  - intros Hopen. eexists. split; [exact Hl|]. intros other Hnow.
    destruct (scrape_skips INSTAGRAM_MAX_RETRIES from_username utcnow login_raises
                other s') as (Htr & _ & _ & st & er & Heq & _ & Hst).
    + left. apply (can_execute_cooling _ _ _ Hopen Hl Hnow).
    + specialize (Hst (can_execute_cooling _ _ _ Hopen Hl Hnow)). subst st.
      split; [exact Htr|]. exists er. exact Heq.
Qed.

Lemma rate_limit_storm_witness :
  let scrape := InstagramScraper.scrape_instagram_profile 3
                  InstagramScraper.always_rate_limited InstagramScraper.ticking
                  (fun _ => false) in
  let s' := snd (scrape (PStr "ada") (InstagramScraper.init InstagramScraper.ticking [])) in
  InstagramScraper.sleeps (InstagramScraper.trace s') = [10; 20] /\
  CircuitBreaker.failure_count (InstagramScraper.circuit_breaker s') = 3.
Proof.
  destruct (rate_limit_storm 3 InstagramScraper.always_rate_limited
              InstagramScraper.ticking (fun _ => false) (PStr "ada")
              (InstagramScraper.init InstagramScraper.ticking []))
    as (_ & _ & Hsl & Hc & _).
  - intros n. reflexivity.
  - lia.
  - reflexivity.
  - reflexivity.
  - split; [exact Hsl|exact Hc].
Defined.

(** ** The retry executor: success, stale results and edge cases *)

Section RetrySuccessFacts.
Import Retry.
Variable func : nat -> outcome.
Variable max_retries : Z.
Variable base_delay : Z.
Hypothesis base_delay_nonneg : 0 <= base_delay.

Lemma loop_succeeds_at (i : nat) (d : gmap string pyval) (rest : list nat) :
  Z.of_nat i <= max_retries - 1 ->
  (forall j, (j < i)%nat -> retried (func j) = true) ->
  func i = Returns (ODict d) ->
  failing d = false ->
  loop func max_retries base_delay (seq 0 i ++ i :: rest) (mkState None []) =
  (inr (ODict d), mkState (Some (ODict d)) (retry_trace base_delay i ++ [Call i])).
Proof.
  intros Hi Hbefore Hfi Hok.
  rewrite loop_retried_run
    by (try exact base_delay_nonneg; intros j Hj; apply in_seq in Hj; apply Hbefore; lia).
  fold (after_run func max_retries base_delay i). simpl loop. unfold try_body. rewrite Hfi.
  unfold failing in Hok. apply negb_false_iff in Hok. rewrite Hok.
  unfold bind_result, emit. simpl. rewrite after_run_trace by lia.
  reflexivity.
Qed.

End RetrySuccessFacts.

(** X23.  The executor returns the first result whose [success] or
    [channel_id] is truthy, having slept [base_delay * 2^j] after each
    earlier attempt [j] and without calling the function again.  When no
    attempt succeeds or is terminal, it returns the last object an
    attempt returned, also when the attempts after that one raised: the
    caller then gets the result of an earlier attempt. *)
Theorem retry_returns_first_success (func : nat -> Retry.outcome)
    (max_retries base_delay : Z) :
  0 <= base_delay ->
  (forall (i : nat) (d : gmap string pyval),
     Z.of_nat i < max_retries ->
     (forall j, (j < i)%nat -> Retry.retried (func j) = true) ->
     func i = Retry.Returns (Retry.ODict d) ->
     Retry.failing d = false ->
     Retry.retry_with_backoff func max_retries base_delay =
       (inr (Retry.ODict d),
        Retry.mkState (Some (Retry.ODict d))
          (Retry.retry_trace base_delay i ++ [Retry.Call i]))) /\
  (forall (i : nat) (r : Retry.pyobj),
     1 <= max_retries ->
     (forall j, Z.of_nat j < max_retries -> Retry.retried (func j) = true) ->
     Z.of_nat i < max_retries ->
     func i = Retry.Returns r ->
     (forall j, (i < j)%nat -> Z.of_nat j < max_retries -> func j = Retry.Raises) ->
     fst (Retry.retry_with_backoff func max_retries base_delay) = inr r).
Proof.
  intros Hbase. split.
  - intros i d Hi Hbefore Hfi Hok. unfold Retry.retry_with_backoff.
    replace (Z.to_nat max_retries) with (i + S (Z.to_nat max_retries - S i))%nat by lia.
    rewrite seq_app. simpl seq at 2.
    apply loop_succeeds_at; [exact Hbase|lia|exact Hbefore|exact Hfi|exact Hok].
  - intros i r Hmax Hall Hi Hfi Hafter.
    rewrite retry_exhausted; [|exact Hbase|exact Hmax|exact Hall].
    cbn [fst].
    assert (Hlast : forall n, (i < n)%nat -> Z.of_nat n <= max_retries ->
                      Retry.last_observed func n = Some r).
    { induction n as [|n IH]; intros Hin Hn; [lia|].
      cbn [Retry.last_observed].
      destruct (Nat.eq_dec i n) as [<-|Hne].
      - rewrite Hfi. reflexivity.
      - rewrite (Hafter n) by lia. cbn [Retry.observe]. apply IH; lia. }
    rewrite (Hlast (Z.to_nat max_retries)) by lia. reflexivity.
Qed.

Lemma retry_returns_first_success_witness :
  Retry.retry_with_backoff RetryExamples.fails_then_found 3 1 =
    (inr (Retry.ODict RetryExamples.found_channel),
     Retry.mkState (Some (Retry.ODict RetryExamples.found_channel))
       [Retry.Call 0; Retry.Sleep 1; Retry.Call 1]) /\
  fst (Retry.retry_with_backoff RetryExamples.fails_then_raises 3 1) =
    inr (Retry.ODict Retry.persistent_error).
Proof.
  split.
  - destruct (retry_returns_first_success RetryExamples.fails_then_found 3 1 ltac:(lia))
      as [Hfirst _].
    apply (Hfirst 1%nat RetryExamples.found_channel).
    + lia.
    + intros j Hj. assert (j = 0%nat) as -> by lia. vm_compute. reflexivity.
    + reflexivity.
    + vm_compute. reflexivity.
  - destruct (retry_returns_first_success RetryExamples.fails_then_raises 3 1 ltac:(lia))
      as [_ Hlast].
    apply (Hlast 0%nat).
    + lia.
    + intros j Hj. destruct j as [|j]; vm_compute; reflexivity.
    + lia.
    + reflexivity.
    + intros j Hj _. destruct j as [|j]; [lia|reflexivity].
Defined.

(** X24.  Two edges of the executor.  With [max_retries] at most 0 the
    function is never called and [return result] raises
    [UnboundLocalError].  With a negative [base_delay] and at least two
    attempts allowed, a first attempt that has to be retried ends the
    executor with the [ValueError] of [time.sleep]: one call, no sleep. *)
Theorem retry_edge_cases (func : nat -> Retry.outcome) (max_retries base_delay : Z) :
  (max_retries <= 0 ->
   Retry.retry_with_backoff func max_retries base_delay =
   (inl Retry.UnboundLocalError, Retry.mkState None [])) /\
  (base_delay < 0 -> 2 <= max_retries -> Retry.retried (func 0%nat) = true ->
   let out := Retry.retry_with_backoff func max_retries base_delay in
   fst out = inl Retry.ValueError /\
   Retry.trace (snd out) = [Retry.Call 0]).
Proof.
  split.
  - intros Hmax. unfold Retry.retry_with_backoff.
    replace (Z.to_nat max_retries) with 0%nat by lia. reflexivity.
  - intros Hneg Hmax Hretried. cbv zeta. unfold Retry.retry_with_backoff.
    destruct (Z.to_nat max_retries) as [|n] eqn:Hn; [lia|].
    cbn [seq Retry.loop].
    assert (Hback : forall s, Retry.backoff max_retries base_delay 0 s = inl Retry.ValueError).
    { intros s. unfold Retry.backoff, Retry.time_sleep, Retry.delay_of.
      destruct (Z.ltb_spec (Z.of_nat 0) (max_retries - 1)) as [_|H]; [|lia].
      destruct (Z.ltb_spec (base_delay * 2 ^ Z.of_nat 0) 0) as [_|H]; [reflexivity|].
      change (2 ^ Z.of_nat 0) with 1 in H. lia. }
    unfold Retry.try_body.
    destruct (func 0%nat) as [|[d|v]] eqn:Hf; cbn [Retry.retried] in Hretried.
    + rewrite Hback. split; reflexivity.
    + apply andb_true_iff in Hretried as [Hfail Hterm].
      unfold Retry.failing in Hfail. apply negb_true_iff in Hfail. rewrite Hfail.
      unfold Retry.terminal in Hterm. rewrite negb_true_iff in Hterm.
      unfold Retry.failing in Hterm. rewrite Hfail in Hterm. cbn [negb andb] in Hterm.
      destruct (Retry.invalid_key_error _) as [x|[|]]; try discriminate;
        rewrite ?Hback; split; reflexivity.
    + rewrite Hback. split; reflexivity.
Qed.

Lemma retry_edge_cases_witness :
  Retry.retry_with_backoff Retry.always_fails 0 1 =
    (inl Retry.UnboundLocalError, Retry.mkState None []) /\
  Retry.trace (snd (Retry.retry_with_backoff Retry.always_fails 3 (-1))) = [Retry.Call 0].
Proof.
  destruct (retry_edge_cases Retry.always_fails 0 1) as [Hzero _].
  destruct (retry_edge_cases Retry.always_fails 3 (-1)) as [_ Hneg].
  split.
  - apply Hzero. lia.
  - apply Hneg; [lia|lia|vm_compute; reflexivity].
Defined.
